(** * CultureBridge matching and caching engine

    A shallow embedding of the coach-matching core of the backend
    ([app/services/matching_service.py], [app/routers/matching.py],
    [app/utils/cache_utils.py], [app/models/profile.py]) together with the
    properties its specification states about it.

    Conventions of the embedding.
    - Python [float] values are read as real numbers ([R]); rounding error of
      binary floating point is not represented.  A float stored in a JSON
      column is carried by the shortest decimal that reads back as it
      ([pyfloat]), which is what [repr] prints.
    - Python [str] values are [string]s whose characters are code points
      below 256; [str.lower] and [str.split] follow CPython on that range.
    - A Python exception is a value of [exn]; a function that may raise
      returns a [result]. *)

From Stdlib Require Import Reals Lra Lia ZArith String Ascii List.
From Stdlib Require Import DecimalString DecimalZ DecimalPos.
From Stdlib Require Import Sorting.Sorted Sorting.Permutation.
From stdpp Require Import gmap strings.

Local Open Scope string_scope.

(* ===================================================================== *)
(** ** Exceptions and results *)
(* ===================================================================== *)

Inductive exn : Type :=
| ZeroDivisionError
| ValueError
| TypeError
| AttributeError
| TimeoutError
| DatabaseError
| OpenAIError
| IndexError
| ConnectionError.

Inductive result (A : Type) : Type :=
| Ok (a : A)
| Raise (e : exn).

Arguments Ok {A} a.
Arguments Raise {A} e.

Definition bind {A B : Type} (m : result A) (k : A -> result B) : result B :=
  match m with
  | Ok a => k a
  | Raise e => Raise e
  end.

Notation "'let*' x ':=' m 'in' k" := (bind m (fun x => k))
  (at level 10, x name, m at level 100, k at level 200).

(** [try: m except Exception: h] *)
Definition try_except {A : Type} (m : result A) (h : exn -> result A) : result A :=
  match m with
  | Ok a => Ok a
  | Raise e => h e
  end.

Definition is_ok {A : Type} (m : result A) : bool :=
  match m with Ok _ => true | Raise _ => false end.

(* ===================================================================== *)
(** ** Python strings *)
(* ===================================================================== *)

Module PyStr.

(** Characters that [str.lower] changes: A-Z and the Latin-1 capitals
    (192..222 except the multiplication sign 215); each moves up by 32. *)
Definition is_cased_upper (c : ascii) : bool :=
  let n := nat_of_ascii c in
  (((65 <=? n) && (n <=? 90))
   || ((192 <=? n) && (n <=? 222) && negb (n =? 215)))%nat.

Definition lower_char (c : ascii) : ascii :=
  if is_cased_upper c then ascii_of_nat (nat_of_ascii c + 32) else c.

Fixpoint lower (s : string) : string :=
  match s with
  | EmptyString => EmptyString
  | String c r => String (lower_char c) (lower r)
  end.

(** [str.isspace] on one character. *)
Definition isspace (c : ascii) : bool :=
  let n := nat_of_ascii c in
  (((9 <=? n) && (n <=? 13)) || ((28 <=? n) && (n <=? 32))
   || (n =? 133) || (n =? 160))%nat.

Definition is_empty (s : string) : bool :=
  match s with EmptyString => true | String _ _ => false end.

(** [s.split()]: the maximal runs of non-space characters, in order.
    [cur] is the run being read. *)
Fixpoint split_from (cur : string) (s : string) : list string :=
  match s with
  | EmptyString => if is_empty cur then [] else [cur]
  | String c r =>
      if isspace c
      then (if is_empty cur then split_from EmptyString r
            else cur :: split_from EmptyString r)
      else split_from (cur ++ String c EmptyString) r
  end.

Definition split (s : string) : list string := split_from EmptyString s.

(** [sep.join(l)] *)
Fixpoint join (sep : string) (l : list string) : string :=
  match l with
  | [] => EmptyString
  | [x] => x
  | x :: r => x ++ sep ++ join sep r
  end.

End PyStr.

(* ===================================================================== *)
(** ** JSON values (the JSONB columns) *)
(* ===================================================================== *)

(** A Python [float] as [repr] sees it: a sign, the digits [d1 ... dn] of
    the shortest decimal that reads back as the float, and the position of
    the decimal point.  It stands for [0.d1...dn x 10^decpt]; zero has the
    digits "0" and [decpt = 1]. *)
Record pyfloat : Type := {
  f_negative : bool;
  f_digits : string;
  f_decpt : Z
}.

Module PyFloat.

Definition is_digit (c : ascii) : bool :=
  let n := nat_of_ascii c in ((48 <=? n) && (n <=? 57))%nat.

Fixpoint all_digits (s : string) : bool :=
  match s with
  | EmptyString => true
  | String c r => is_digit c && all_digits r
  end.

Definition digit_value (c : ascii) : Z := (Z.of_nat (nat_of_ascii c) - 48)%Z.

(** The number a string of digits writes, after the digits of [acc]. *)
Fixpoint digits_value_from (acc : Z) (s : string) : Z :=
  match s with
  | EmptyString => acc
  | String c r => digits_value_from (10 * acc + digit_value c)%Z r
  end.

Definition digits_value (s : string) : Z := digits_value_from 0 s.

Fixpoint last_char (c : ascii) (s : string) : ascii :=
  match s with
  | EmptyString => c
  | String c' r => last_char c' r
  end.

(** The digits are the shortest: no zero in front or behind, but for zero
    itself. *)
Definition wf (f : pyfloat) : bool :=
  match f_digits f with
  | EmptyString => false
  | String c r =>
      all_digits (String c r)
      && (if String.eqb (String c r) "0" then (f_decpt f =? 1)%Z
          else negb (Ascii.eqb c "0") && negb (Ascii.eqb (last_char c r) "0"))
  end.

Definition is_zero (f : pyfloat) : bool := (digits_value (f_digits f) =? 0)%Z.

End PyFloat.

#[local] Set Warnings "-register-all".

Inductive json : Type :=
| JNull
| JBool (b : bool)
| JInt (n : Z)
| JFloat (f : pyfloat)
| JStr (s : string)
| JList (l : list json)
| JDict (d : list (string * json)).

(** A Python [dict] with string keys, in insertion order. *)
Definition pydict : Type := list (string * json).

(** Python truthiness of a JSON value ([if v:], [v or default]). *)
Definition truthy (v : json) : bool :=
  match v with
  | JNull => false
  | JBool b => b
  | JInt n => negb (n =? 0)%Z
  | JFloat f => negb (PyFloat.is_zero f)
  | JStr s => negb (PyStr.is_empty s)
  | JList l => match l with [] => false | _ => true end
  | JDict d => match d with [] => false | _ => true end
  end.

(** [d.get(k)] : the value of the first (only) entry under [k]. *)
Fixpoint dict_get (k : string) (d : pydict) : option json :=
  match d with
  | [] => None
  | (k', v) :: r => if String.eqb k k' then Some v else dict_get k r
  end.

(** [k in d] *)
Definition dict_has (k : string) (d : pydict) : bool :=
  match dict_get k d with Some _ => true | None => false end.

(* ===================================================================== *)
(** ** The scorers of [MatchingService] *)
(* ===================================================================== *)

Local Open Scope R_scope.

(** [set(x.lower() for x in l)] *)
Definition lower_set (l : list string) : gset string :=
  list_to_set (map PyStr.lower l).

(** [len(a & b) / len(a | b) if len(a | b) > 0 else 0.0] *)
Definition jaccard (a b : gset string) : R :=
  let intersection := size (a ∩ b) in
  let union := size (a ∪ b) in
  if (0 <? union)%nat then INR intersection / INR union else 0.

Definition is_nil {A : Type} (l : list A) : bool :=
  match l with [] => true | _ :: _ => false end.

Definition calculate_language_score
    (client_languages coach_languages : list string) : R :=
  if is_nil client_languages || is_nil coach_languages then 0
  else
    let client_set := lower_set client_languages in
    let coach_set := lower_set coach_languages in
    jaccard client_set coach_set.

Definition calculate_country_score
    (client_countries coach_countries : list string) : R :=
  if is_nil client_countries || is_nil coach_countries then 0
  else
    let client_set := lower_set client_countries in
    let coach_set := lower_set coach_countries in
    jaccard client_set coach_set.

(** *** Embeddings and cosine similarity *)

(** What one call of [client.embeddings.create] under [asyncio.wait_for]
    can do: answer with vectors, of which the first is read; answer with
    an empty [data] list; or raise ([OpenAIError], the [TimeoutError] of
    [wait_for], or any other exception). *)
Inductive embed_outcome : Type :=
| Embedding (v : list R)
| EmbedNoData
| EmbedRaises (e : exn).

(** The part of [MatchingService] the scorers read: [self.client], which
    is [None] when no API key is configured. *)
Record EmbeddingProvider : Type := {
  openai_client : option (string -> embed_outcome)
}.

(** [get_text_embedding]: its handler is
    [except (OpenAIError, asyncio.TimeoutError)]; [response.data[0]] on an
    empty list raises [IndexError], which that handler lets through like
    every other exception. *)
Definition get_text_embedding (self : EmbeddingProvider) (text : string)
  : result (option (list R)) :=
  match openai_client self with
  | None => Ok None
  | Some create =>
      match create text with
      | Embedding v => Ok (Some v)
      | EmbedNoData => Raise IndexError
      | EmbedRaises OpenAIError => Ok None
      | EmbedRaises TimeoutError => Ok None
      | EmbedRaises e => Raise e
      end
  end.

(** [np.dot] of two one-dimensional arrays: defined on equal lengths. *)
Fixpoint dot (v1 v2 : list R) : result R :=
  match v1, v2 with
  | [], [] => Ok 0
  | x :: r1, y :: r2 => let* d := dot r1 r2 in Ok (x * y + d)
  | _, _ => Raise ValueError
  end.

Fixpoint sum_squares (v : list R) : R :=
  match v with
  | [] => 0
  | x :: r => x * x + sum_squares r
  end.

(** [np.linalg.norm] *)
Definition norm (v : list R) : R := sqrt (sum_squares v).

Definition cosine_similarity (vec1 vec2 : list R) : result R :=
  if is_nil vec1 || is_nil vec2 then Ok 0
  else
    let* dot_product := dot vec1 vec2 in
    let norm_v1 := norm vec1 in
    let norm_v2 := norm vec2 in
    if Req_dec_T norm_v1 0 then Ok 0
    else if Req_dec_T norm_v2 0 then Ok 0
    else Ok (dot_product / (norm_v1 * norm_v2)).

(** [set(text.lower().split())] *)
Definition word_set (text : string) : gset string :=
  list_to_set (PyStr.split (PyStr.lower text)).

(** The keyword fallback of [calculate_goal_expertise_score]. *)
Definition keyword_overlap (client_text coach_text : string) : R :=
  jaccard (word_set client_text) (word_set coach_text).

Definition calculate_goal_expertise_score (self : EmbeddingProvider)
    (client_goals client_challenges coach_expertise : list string) : result R :=
  if (is_nil client_goals && is_nil client_challenges) || is_nil coach_expertise
  then Ok 0
  else
    let client_text := PyStr.join " " (client_goals ++ client_challenges) in
    let coach_text := PyStr.join " " coach_expertise in
    let* client_embedding := get_text_embedding self client_text in
    let* coach_embedding := get_text_embedding self coach_text in
    match client_embedding, coach_embedding with
    | Some v1, Some v2 =>
        if is_nil v1 || is_nil v2
        then Ok (keyword_overlap client_text coach_text)
        else cosine_similarity v1 v2
    | _, _ => Ok (keyword_overlap client_text coach_text)
    end.

(** *** Budget and availability *)

(** Python's [/] on numbers. *)
Definition py_div (x y : R) : result R :=
  if Req_dec_T y 0 then Raise ZeroDivisionError else Ok (x / y).

Definition calculate_budget_score (client_budget_max coach_rate : R) : result R :=
  if Rle_dec coach_rate 0 then Ok (1/2)
  else if Rle_dec coach_rate client_budget_max then Ok 1
  else
    let* overage := py_div (coach_rate - client_budget_max) client_budget_max in
    if Rle_dec overage (2/10) then Ok (1/2) else Ok 0.

Definition calculate_availability_score
    (client_timezone : string) (coach_availability : json) : R :=
  if negb (truthy coach_availability) then 1/2
  else
    let has_availability := truthy coach_availability in
    if has_availability then 1 else 0.

(** *** The weighted score *)

(** The normalised client dictionary of [normalize_client_data]. The
    entries the scorers read are typed; the others are carried as stored. *)
Record ClientData : Type := {
  cd_languages : list string;
  cd_countries : list string;
  cd_goals : list string;
  cd_challenges : list string;
  cd_industry : json;
  cd_coaching_style : json;
  cd_budget_min : json;
  cd_budget_max : R;
  cd_timeline_urgency : json;
  cd_previous_experience : json;
  cd_family_status : json;
  cd_timezone : string
}.

(** The normalised coach dictionary of [normalize_coach_data]. *)
Record CoachData : Type := {
  co_languages : list string;
  co_countries : list string;
  co_expertise : list string;
  co_hourly_rate : R;
  co_rating : R;
  co_total_sessions : Z;
  co_is_verified : option bool;
  co_availability : json
}.

Definition weighted_total (language_score country_score goal_score
                           budget_score availability_score : R) : R :=
  (language_score * (25/100) + country_score * (20/100)
   + goal_score * (30/100) + budget_score * (15/100)
   + availability_score * (10/100)) * 100.

Definition calculate_match_score (self : EmbeddingProvider)
    (client_data : ClientData) (coach_data : CoachData) : result R :=
  let language_score :=
    calculate_language_score (cd_languages client_data) (co_languages coach_data) in
  let country_score :=
    calculate_country_score (cd_countries client_data) (co_countries coach_data) in
  let* goal_score :=
    calculate_goal_expertise_score self (cd_goals client_data)
      (cd_challenges client_data) (co_expertise coach_data) in
  let* budget_score :=
    calculate_budget_score (cd_budget_max client_data) (co_hourly_rate coach_data) in
  let availability_score :=
    calculate_availability_score (cd_timezone client_data)
      (co_availability coach_data) in
  let total_score :=
    weighted_total language_score country_score goal_score budget_score
      availability_score in
  Ok (Rmin total_score 100).

(* ===================================================================== *)
(** ** [json.dumps(value, sort_keys=True)] *)
(* ===================================================================== *)

Local Close Scope R_scope.

Module JsonDumps.

Definition hex_digit (n : Z) : ascii :=
  match n with
  | 0 => "0" | 1 => "1" | 2 => "2" | 3 => "3" | 4 => "4" | 5 => "5" | 6 => "6"
  | 7 => "7" | 8 => "8" | 9 => "9" | 10 => "a" | 11 => "b" | 12 => "c"
  | 13 => "d" | 14 => "e" | _ => "f"
  end%Z%char.

(** The [k] low hexadecimal digits of [n], most significant first
    (['%0kx' % n] for [0 <= n < 16^k]). *)
Fixpoint hex_digits (k : nat) (n : Z) : string :=
  match k with
  | O => EmptyString
  | S k' => hex_digits k' (n / 16) ++ String (hex_digit (n mod 16)) EmptyString
  end.

Definition quote : string := String (ascii_of_nat 34) EmptyString.

(** One character of a string literal, as [ensure_ascii=True] writes it. *)
Definition escape_char (c : ascii) : string :=
  let n := Z.of_nat (nat_of_ascii c) in
  if (n =? 34)%Z then "\" ++ quote
  else if (n =? 92)%Z then "\\"
  else if (n =? 10)%Z then "\n"
  else if (n =? 13)%Z then "\r"
  else if (n =? 9)%Z then "\t"
  else if (n =? 8)%Z then "\b"
  else if (n =? 12)%Z then "\f"
  else if ((32 <=? n) && (n <=? 126))%Z then String c EmptyString
  else "\u" ++ hex_digits 4 n.

Fixpoint escape (s : string) : string :=
  match s with
  | EmptyString => EmptyString
  | String c r => escape_char c ++ escape r
  end.

Definition encode_str (s : string) : string := quote ++ escape s ++ quote.

(** [str(n)] for an int. *)
Definition str_of_int (n : Z) : string := NilZero.string_of_int (Z.to_int n).

Fixpoint zeros (n : nat) : string :=
  match n with
  | O => EmptyString
  | S k => String "0" (zeros k)
  end.

(** [repr(x)] of a float.  With [-4 < decpt <= 16] the digits are written
    with the point in place, zeros filling up to it and [.0] closing a
    whole number; otherwise one digit, the others after a point, and the
    exponent [decpt - 1] with its sign and at least two digits. *)
Definition float_repr (f : pyfloat) : string :=
  let digits := f_digits f in
  let n := Z.of_nat (String.length digits) in
  let decpt := f_decpt f in
  (if f_negative f then "-" else "")
  ++ (if ((-4 <? decpt) && (decpt <=? 16))%Z then
        if (decpt <=? 0)%Z
        then "0." ++ zeros (Z.to_nat (- decpt)) ++ digits
        else if (n <=? decpt)%Z
        then digits ++ zeros (Z.to_nat (decpt - n)) ++ ".0"
        else substring 0 (Z.to_nat decpt) digits ++ "."
             ++ substring (Z.to_nat decpt) (Z.to_nat (n - decpt)) digits
      else
        let e := (decpt - 1)%Z in
        substring 0 1 digits
        ++ (if (1 <? n)%Z
            then "." ++ substring 1 (Z.to_nat (n - 1)) digits
            else "")
        ++ "e" ++ (if (e <? 0)%Z then "-" else "+")
        ++ (if (Z.abs e <? 10)%Z then "0" else "")
        ++ str_of_int (Z.abs e)).

(** Ascending insertion by key; a dict has no two entries under one key. *)
Fixpoint insert_by_key {A : Type} (x : string * A) (l : list (string * A))
  : list (string * A) :=
  match l with
  | [] => [x]
  | y :: r => if String.ltb (fst y) (fst x) then y :: insert_by_key x r
              else x :: y :: r
  end.

Definition sort_by_key {A : Type} (l : list (string * A)) : list (string * A) :=
  fold_right insert_by_key [] l.

Definition render_item (kv : string * string) : string :=
  encode_str (fst kv) ++ ": " ++ snd kv.

(** [json.dumps(v, sort_keys=True)]: the items of every dict, each already
    serialised, are ordered by key. *)
Fixpoint dumps (v : json) : string :=
  match v with
  | JNull => "null"
  | JBool true => "true"
  | JBool false => "false"
  | JInt n => str_of_int n
  | JFloat f => float_repr f
  | JStr s => encode_str s
  | JList l => "[" ++ PyStr.join ", " (map dumps l) ++ "]"
  | JDict d =>
      "{" ++ PyStr.join ", "
               (map render_item
                  (sort_by_key (map (fun kv => (fst kv, dumps (snd kv))) d)))
          ++ "}"
  end.

End JsonDumps.

(* ===================================================================== *)
(** ** [hashlib.md5] (RFC 1321) *)
(* ===================================================================== *)

Module MD5.

Local Open Scope Z_scope.

Definition w32 (x : Z) : Z := x mod 2 ^ 32.
Definition add32 (x y : Z) : Z := w32 (x + y).
Definition not32 (x : Z) : Z := Z.lxor x (2 ^ 32 - 1).
Definition rotl32 (x n : Z) : Z :=
  w32 (Z.lor (Z.shiftl x n) (Z.shiftr x (32 - n))).

Definition K : list Z := [
  3614090360; 3905402710; 606105819; 3250441966;
  4118548399; 1200080426; 2821735955; 4249261313;
  1770035416; 2336552879; 4294925233; 2304563134;
  1804603682; 4254626195; 2792965006; 1236535329;
  4129170786; 3225465664; 643717713; 3921069994;
  3593408605; 38016083; 3634488961; 3889429448;
  568446438; 3275163606; 4107603335; 1163531501;
  2850285829; 4243563512; 1735328473; 2368359562;
  4294588738; 2272392833; 1839030562; 4259657740;
  2763975236; 1272893353; 4139469664; 3200236656;
  681279174; 3936430074; 3572445317; 76029189;
  3654602809; 3873151461; 530742520; 3299628645;
  4096336452; 1126891415; 2878612391; 4237533241;
  1700485571; 2399980690; 4293915773; 2240044497;
  1873313359; 4264355552; 2734768916; 1309151649;
  4149444226; 3174756917; 718787259; 3951481745 ].

Definition S : list Z := [
  7; 12; 17; 22; 7; 12; 17; 22; 7; 12; 17; 22; 7; 12; 17; 22;
  5; 9; 14; 20; 5; 9; 14; 20; 5; 9; 14; 20; 5; 9; 14; 20;
  4; 11; 16; 23; 4; 11; 16; 23; 4; 11; 16; 23; 4; 11; 16; 23;
  6; 10; 15; 21; 6; 10; 15; 21; 6; 10; 15; 21; 6; 10; 15; 21 ].

Definition state : Type := (Z * Z * Z * Z)%type.

Definition init : state := (1732584193, 4023233417, 2562383102, 271733878).

(** The round function and the message word index of operation [i]. *)
Definition round_fn (i : nat) (b c d : Z) : Z :=
  if (i <? 16)%nat then Z.lor (Z.land b c) (Z.land (not32 b) d)
  else if (i <? 32)%nat then Z.lor (Z.land d b) (Z.land (not32 d) c)
  else if (i <? 48)%nat then Z.lxor (Z.lxor b c) d
  else Z.lxor c (Z.lor b (not32 d)).

Definition word_index (i : nat) : nat :=
  if (i <? 16)%nat then i
  else if (i <? 32)%nat then ((5 * i + 1) mod 16)%nat
  else if (i <? 48)%nat then ((3 * i + 5) mod 16)%nat
  else ((7 * i) mod 16)%nat.

Definition step (M : list Z) (st : state) (i : nat) : state :=
  let '(a, b, c, d) := st in
  let f := add32 (add32 (add32 (round_fn i b c d) a) (nth i K 0))
             (nth (word_index i) M 0) in
  (d, add32 b (rotl32 f (nth i S 0)), b, c).

Definition process_block (st : state) (M : list Z) : state :=
  let '(a0, b0, c0, d0) := st in
  let '(a, b, c, d) := fold_left (step M) (seq 0 64) st in
  (add32 a0 a, add32 b0 b, add32 c0 c, add32 d0 d).

(** Little-endian bytes of a number, and back. *)
Fixpoint le_bytes (k : nat) (n : Z) : list Z :=
  match k with
  | O => []
  | Datatypes.S k' => n mod 256 :: le_bytes k' (n / 256)
  end.

Fixpoint le_word (bytes : list Z) : Z :=
  match bytes with
  | [] => 0
  | b :: r => b + 256 * le_word r
  end.

(** The message followed by 0x80, zeros up to 56 modulo 64, and the bit
    length on 8 bytes. *)
Definition pad (msg : list Z) : list Z :=
  let len := Z.of_nat (length msg) in
  let zeros := Z.to_nat ((55 - len) mod 64) in
  msg ++ [128] ++ repeat 0 zeros ++ le_bytes 8 ((8 * len) mod 2 ^ 64).

(** Cut a list into pieces of [n] elements; [fuel] bounds the number of
    pieces, and [length l] is always enough. *)
Fixpoint chunks {A : Type} (fuel n : nat) (l : list A) : list (list A) :=
  match fuel with
  | O => []
  | Datatypes.S fuel' =>
      match l with
      | [] => []
      | _ => firstn n l :: chunks fuel' n (skipn n l)
      end
  end.

Definition blocks (bytes : list Z) : list (list Z) :=
  map (fun block => map le_word (chunks 16 4 block))
      (chunks (length bytes) 64 bytes).

Definition digest (msg : list Z) : state :=
  fold_left process_block (blocks (pad msg)) init.

Definition hex_byte (b : Z) : string := JsonDumps.hex_digits 2 b.

Definition hex_word (w : Z) : string :=
  String.concat EmptyString (map hex_byte (le_bytes 4 w)).

Definition hexdigest (msg : list Z) : string :=
  let '(a, b, c, d) := digest msg in
  (hex_word a ++ hex_word b ++ hex_word c ++ hex_word d)%string.

End MD5.

(** [s.encode()]: UTF-8 of code points below 256. *)
Fixpoint utf8_encode (s : string) : list Z :=
  match s with
  | EmptyString => []
  | String c r =>
      let n := Z.of_nat (nat_of_ascii c) in
      if (n <? 128)%Z then n :: utf8_encode r
      else (192 + n / 64)%Z :: (128 + n mod 64)%Z :: utf8_encode r
  end.

(* ===================================================================== *)
(** ** UUIDs and cache keys *)
(* ===================================================================== *)

(** A [uuid.UUID] is its 128-bit integer. *)
Definition UUID : Type := Z.
Bind Scope Z_scope with UUID.

Definition uuid_valid (u : UUID) : Prop := (0 <= u < 2 ^ 128)%Z.

(** [str(u)]: the 32 hexadecimal digits in groups of 8-4-4-4-12. *)
Definition uuid_str (u : UUID) : string :=
  let hex := JsonDumps.hex_digits 32 u in
  substring 0 8 hex ++ "-" ++ substring 8 4 hex ++ "-" ++ substring 12 4 hex
  ++ "-" ++ substring 16 4 hex ++ "-" ++ substring 20 12 hex.

(** [MatchingService.generate_cache_key] *)
Definition generate_cache_key (client_id : UUID) (quiz_data : pydict) : string :=
  let quiz_json := JsonDumps.dumps (JDict quiz_data) in
  let quiz_hash := MD5.hexdigest (utf8_encode quiz_json) in
  "match:" ++ uuid_str client_id ++ ":" ++ quiz_hash.

(* ===================================================================== *)
(** ** Profiles and their normalisation *)
(* ===================================================================== *)

Local Open Scope R_scope.

(** [models.profile.ClientProfile]: the columns the engine reads. *)
Record ClientProfile : Type := {
  client_user_id : UUID;
  client_timezone : option string;
  quiz_data : pydict
}.

(** [models.profile.CoachProfile]; every column but the keys is nullable. *)
Record CoachProfile : Type := {
  coach_id : UUID;
  coach_user_id : UUID;
  first_name : option string;
  last_name : option string;
  photo_url : option string;
  bio : option string;
  expertise : option (list string);
  languages : option (list string);
  countries : option (list string);
  hourly_rate : option R;
  currency : option string;
  availability : option json;
  rating : option R;
  total_sessions : option Z;
  is_verified : option bool
}.

Definition required_fields : list string := [
  "target_countries";
  "cultural_goals";
  "preferred_languages";
  "industry";
  "family_status";
  "previous_expat_experience";
  "timeline_urgency";
  "budget_range";
  "coaching_style";
  "specific_challenges" ].

(** [ClientProfile.validate_quiz_data] *)
Definition validate_quiz_data (self : ClientProfile) : bool :=
  if is_nil (quiz_data self) then false
  else forallb (fun field => dict_has field (quiz_data self)) required_fields.

(** [quiz.get(key, default)] *)
Definition get_or (quiz : pydict) (key : string) (default : json) : json :=
  match dict_get key quiz with
  | None => default
  | Some v => v
  end.

(** [quiz.get('budget_range', {})], on which [.get] is then called: only
    a dict has that method. *)
Definition get_budget_range (quiz : pydict) : result pydict :=
  match dict_get "budget_range" quiz with
  | None => Ok []
  | Some (JDict d) => Ok d
  | Some _ => Raise AttributeError
  end.

(** The dictionary [normalize_client_data] returns: the quiz answers as
    they are stored, of whatever JSON type, under the names the scorers
    use. *)
Record NormalizedClient : Type := {
  nc_languages : json;
  nc_countries : json;
  nc_goals : json;
  nc_challenges : json;
  nc_industry : json;
  nc_coaching_style : json;
  nc_budget_min : json;
  nc_budget_max : json;
  nc_timeline_urgency : json;
  nc_previous_experience : json;
  nc_family_status : json;
  nc_timezone : string
}.

Definition normalize_client_data (client : ClientProfile)
  : result NormalizedClient :=
  let quiz := quiz_data client in
  let* budget_range := get_budget_range quiz in
  Ok {|
    nc_languages := get_or quiz "preferred_languages" (JList []);
    nc_countries := get_or quiz "target_countries" (JList []);
    nc_goals := get_or quiz "cultural_goals" (JList []);
    nc_challenges := get_or quiz "specific_challenges" (JList []);
    nc_industry := get_or quiz "industry" (JStr "");
    nc_coaching_style := get_or quiz "coaching_style" (JStr "");
    nc_budget_min := get_or budget_range "min" (JInt 0);
    nc_budget_max := get_or budget_range "max" (JInt 500);
    nc_timeline_urgency := get_or quiz "timeline_urgency" (JInt 3);
    nc_previous_experience := get_or quiz "previous_expat_experience" (JBool false);
    nc_family_status := get_or quiz "family_status" (JStr "");
    nc_timezone :=
      match client_timezone client with
      | Some tz => if PyStr.is_empty tz then "UTC" else tz
      | None => "UTC"
      end
  |}.

(** *** The scorers on entries of any JSON type

    [normalize_client_data] checks no types, so the scorers can be handed
    a value that is not the list or number their annotations name.  What
    the Python code does then is given here; on values of the annotated
    types these are the scorers above (see [Untyped.typed] below). *)

(** The number a float stands for. *)
Definition float_value (f : pyfloat) : R :=
  let magnitude :=
    IZR (PyFloat.digits_value (f_digits f))
    * powerRZ 10 (f_decpt f - Z.of_nat (String.length (f_digits f))) in
  if f_negative f then - magnitude else magnitude.

(** A value in a comparison or a division with a float: numbers and
    booleans take part, anything else raises [TypeError]. *)
Definition as_number (v : json) : result R :=
  match v with
  | JInt n => Ok (IZR n)
  | JFloat f => Ok (float_value f)
  | JBool b => Ok (if b then 1 else 0)
  | _ => Raise TypeError
  end.

Module Untyped.

(** The strings of a list; [None] when an element is not a string. *)
Fixpoint strings (l : list json) : option (list string) :=
  match l with
  | [] => Some []
  | JStr s :: r =>
      match strings r with
      | Some rest => Some (s :: rest)
      | None => None
      end
  | _ :: _ => None
  end.

(** The characters of a string, each a string of length one. *)
Fixpoint chars (s : string) : list string :=
  match s with
  | EmptyString => []
  | String c r => String c EmptyString :: chars r
  end.

(** [set(x.lower() for x in v)]: a list gives its elements, which must be
    strings to have [lower] ([AttributeError] otherwise); a string gives
    its characters and a dict its keys; a number is not iterable
    ([TypeError]). *)
Definition lowered (v : json) : result (gset string) :=
  match v with
  | JList l =>
      match strings l with
      | Some items => Ok (lower_set items)
      | None => Raise AttributeError
      end
  | JStr s => Ok (lower_set (chars s))
  | JDict d => Ok (lower_set (map fst d))
  | _ => Raise TypeError
  end.

(** [calculate_language_score] and [calculate_country_score]; the coach's
    list comes from a text-array column. *)
Definition calculate_language_score (client_languages : json)
    (coach_languages : list string) : result R :=
  if negb (truthy client_languages) || is_nil coach_languages then Ok 0
  else
    let* client_set := lowered client_languages in
    let coach_set := lower_set coach_languages in
    Ok (jaccard client_set coach_set).

Definition calculate_country_score (client_countries : json)
    (coach_countries : list string) : result R :=
  if negb (truthy client_countries) || is_nil coach_countries then Ok 0
  else
    let* client_set := lowered client_countries in
    let coach_set := lower_set coach_countries in
    Ok (jaccard client_set coach_set).

(** [" ".join(client_goals + client_challenges)]: [+] joins two lists or
    two strings, and [join] wants strings to iterate over: the elements
    of the list, or the characters of the string.  Every other pair ends
    in [TypeError], raised by [+] or, for two numbers, by [join]. *)
Definition client_text (client_goals client_challenges : json) : result string :=
  match client_goals, client_challenges with
  | JList goals, JList challenges =>
      match strings (goals ++ challenges) with
      | Some items => Ok (PyStr.join " " items)
      | None => Raise TypeError
      end
  | JStr goals, JStr challenges => Ok (PyStr.join " " (chars (goals ++ challenges)))
  | _, _ => Raise TypeError
  end.

Definition calculate_goal_expertise_score (self : EmbeddingProvider)
    (client_goals client_challenges : json) (coach_expertise : list string)
  : result R :=
  if (negb (truthy client_goals) && negb (truthy client_challenges))
     || is_nil coach_expertise
  then Ok 0
  else
    let* client_text := client_text client_goals client_challenges in
    let coach_text := PyStr.join " " coach_expertise in
    let* client_embedding := get_text_embedding self client_text in
    let* coach_embedding := get_text_embedding self coach_text in
    match client_embedding, coach_embedding with
    | Some v1, Some v2 =>
        if is_nil v1 || is_nil v2
        then Ok (keyword_overlap client_text coach_text)
        else cosine_similarity v1 v2
    | _, _ => Ok (keyword_overlap client_text coach_text)
    end.

(** [calculate_budget_score]: the budget is looked at only once the rate
    is known to be positive. *)
Definition calculate_budget_score (client_budget_max : json) (coach_rate : R)
  : result R :=
  if Rle_dec coach_rate 0 then Ok (1/2)
  else
    let* budget_max := as_number client_budget_max in
    if Rle_dec coach_rate budget_max then Ok 1
    else
      let* overage := py_div (coach_rate - budget_max) budget_max in
      if Rle_dec overage (2/10) then Ok (1/2) else Ok 0.

Definition calculate_match_score (self : EmbeddingProvider)
    (client_data : NormalizedClient) (coach_data : CoachData) : result R :=
  let* language_score :=
    calculate_language_score (nc_languages client_data) (co_languages coach_data) in
  let* country_score :=
    calculate_country_score (nc_countries client_data) (co_countries coach_data) in
  let* goal_score :=
    calculate_goal_expertise_score self (nc_goals client_data)
      (nc_challenges client_data) (co_expertise coach_data) in
  let* budget_score :=
    calculate_budget_score (nc_budget_max client_data) (co_hourly_rate coach_data) in
  let availability_score :=
    calculate_availability_score (nc_timezone client_data)
      (co_availability coach_data) in
  let total_score :=
    weighted_total language_score country_score goal_score budget_score
      availability_score in
  Ok (Rmin total_score 100).

(** The entries with the types [schemas.profile.QuizData] gives them:
    lists of strings and a number. *)
Definition typed (client_data : NormalizedClient) : option ClientData :=
  match nc_languages client_data, nc_countries client_data,
        nc_goals client_data, nc_challenges client_data,
        as_number (nc_budget_max client_data) with
  | JList languages, JList countries, JList goals, JList challenges,
    Ok budget_max =>
      match strings languages, strings countries, strings goals,
            strings challenges with
      | Some languages, Some countries, Some goals, Some challenges =>
          Some {|
            cd_languages := languages;
            cd_countries := countries;
            cd_goals := goals;
            cd_challenges := challenges;
            cd_industry := nc_industry client_data;
            cd_coaching_style := nc_coaching_style client_data;
            cd_budget_min := nc_budget_min client_data;
            cd_budget_max := budget_max;
            cd_timeline_urgency := nc_timeline_urgency client_data;
            cd_previous_experience := nc_previous_experience client_data;
            cd_family_status := nc_family_status client_data;
            cd_timezone := nc_timezone client_data
          |}
      | _, _, _, _ => None
      end
  | _, _, _, _, _ => None
  end.

End Untyped.

(** [x or []] *)
Definition or_nil {A : Type} (x : option (list A)) : list A :=
  match x with Some l => l | None => [] end.

(** [float(x) if x else d]: a stored zero counts as unset. *)
Definition float_or (x : option R) (d : R) : R :=
  match x with
  | Some r => if Req_dec_T r 0 then d else r
  | None => d
  end.

Definition normalize_coach_data (coach : CoachProfile) : CoachData := {|
  co_languages := or_nil (languages coach);
  co_countries := or_nil (countries coach);
  co_expertise := or_nil (expertise coach);
  co_hourly_rate := float_or (hourly_rate coach) 0;
  co_rating := float_or (rating coach) 0;
  co_total_sessions :=
    match total_sessions coach with Some n => n | None => 0%Z end;
  co_is_verified := is_verified coach;
  co_availability :=
    match availability coach with
    | Some v => if truthy v then v else JDict []
    | None => JDict []
    end
|}.

(* ===================================================================== *)
(** ** Ranking: [find_matches] and [get_fallback_matches] *)
(* ===================================================================== *)

(** One element of the list [find_matches] returns. *)
Record MatchEntry : Type := {
  m_coach_id : string;
  m_user_id : string;
  m_first_name : option string;
  m_last_name : option string;
  m_photo_url : option string;
  m_bio : option string;
  m_expertise : option (list string);
  m_languages : option (list string);
  m_countries : option (list string);
  m_hourly_rate : option R;
  m_currency : option string;
  m_rating : R;
  m_total_sessions : option Z;
  m_is_verified : option bool;
  m_match_score : R;
  m_confidence_score : R
}.

Definition match_entry (coach : CoachProfile) (match_score confidence_score : R)
  : MatchEntry := {|
  m_coach_id := uuid_str (coach_id coach);
  m_user_id := uuid_str (coach_user_id coach);
  m_first_name := first_name coach;
  m_last_name := last_name coach;
  m_photo_url := photo_url coach;
  m_bio := bio coach;
  m_expertise := expertise coach;
  m_languages := languages coach;
  m_countries := countries coach;
  m_hourly_rate :=
    match hourly_rate coach with
    | Some r => if Req_dec_T r 0 then None else Some r
    | None => None
    end;
  m_currency := currency coach;
  m_rating := float_or (rating coach) 0;
  m_total_sessions := total_sessions coach;
  m_is_verified := is_verified coach;
  m_match_score := match_score;
  m_confidence_score := confidence_score
|}.

(** Rounding to the nearest integer, ties to even. *)
Definition round_half_even (x : R) : Z :=
  let f := Zfloor x in
  let d := x - IZR f in
  if Rlt_dec d (1 / 2) then f
  else if Rlt_dec (1 / 2) d then (f + 1)%Z
  else if Z.even f then f else (f + 1)%Z.

(** [round(x, 2)] of the score read as a real number: to the nearest
    hundredth, a tie going to the even one.  The code rounds the binary
    float, which at a tie can lie to either side of the real it stands
    for. *)
Definition py_round2 (x : R) : R := IZR (round_half_even (x * 100)) / 100.

(** The service: the coach repository ([get_active_coaches(limit=n)], which
    may raise), the embedding client, and whether scoring a coach overruns
    the [asyncio.wait_for] deadline. *)
Record MatchingService : Type := {
  get_active_coaches : Z -> result (list CoachProfile);
  embeddings : EmbeddingProvider;
  scoring_timed_out : CoachProfile -> bool
}.

(** *** The query of [CoachProfileRepository.get_active_coaches]

    [coach_profiles] joined with [users]: each row is a coach profile and
    the [is_active] flag of its user. *)
Record CoachRow : Type := {
  row_coach : CoachProfile;
  row_user_active : bool
}.

(** [is_verified == True AND user.is_active]; a NULL flag is not true. *)
Definition row_selected (row : CoachRow) : bool :=
  match is_verified (row_coach row) with
  | Some true => row_user_active row
  | _ => false
  end.

(** [ORDER BY rating DESC] as PostgreSQL sorts: NULL counts as larger
    than every number, so it comes first. *)
Definition rating_above (a b : option R) : bool :=
  match a, b with
  | None, Some _ => true
  | Some x, Some y => if Rlt_dec y x then true else false
  | _, None => false
  end.

(** Rows of one rating keep the order they have in [rows]; the database
    promises no order among them. *)
Fixpoint insert_by_rating (coach : CoachProfile) (l : list CoachProfile)
  : list CoachProfile :=
  match l with
  | [] => [coach]
  | other :: rest =>
      if rating_above (rating other) (rating coach)
      then other :: insert_by_rating coach rest
      else coach :: l
  end.

Definition order_by_rating (l : list CoachProfile) : list CoachProfile :=
  fold_right insert_by_rating [] l.

(** The query with [OFFSET skip LIMIT limit]; a negative [limit] or
    [skip] is an error of the database. *)
Definition query_active_coaches (rows : list CoachRow) (skip limit : Z)
  : result (list CoachProfile) :=
  if ((limit <? 0) || (skip <? 0))%Z then Raise DatabaseError
  else
    Ok (firstn (Z.to_nat limit)
          (skipn (Z.to_nat skip)
             (order_by_rating
                (map row_coach (filter (fun row => row_selected row = true) rows))))).

(** The service over a database that answers, with the repository's
    default [skip=0]. *)
Definition service_over (rows : list CoachRow) (provider : EmbeddingProvider)
    (timed_out : CoachProfile -> bool) : MatchingService := {|
  get_active_coaches := fun limit => query_active_coaches rows 0 limit;
  embeddings := provider;
  scoring_timed_out := timed_out
|}.

(** The loop over the coaches: a timed-out coach is skipped, any other
    exception leaves the loop. *)
Fixpoint score_coaches (self : MatchingService)
    (client_data : NormalizedClient)
    (coaches : list CoachProfile) : result (list MatchEntry) :=
  match coaches with
  | [] => Ok []
  | coach :: rest =>
      let coach_data := normalize_coach_data coach in
      if scoring_timed_out self coach then score_coaches self client_data rest
      else
        let* score :=
          Untyped.calculate_match_score (embeddings self) client_data
            coach_data in
        let* matches := score_coaches self client_data rest in
        Ok (match_entry coach (py_round2 score) (py_round2 score) :: matches)
  end.

(** Tuple comparison [k1 < k2] of the sort keys [(match_score, rating)]. *)
Definition key_ltb (k1 k2 : R * R) : bool :=
  if Rlt_dec (fst k1) (fst k2) then true
  else if Req_dec_T (fst k1) (fst k2)
       then (if Rlt_dec (snd k1) (snd k2) then true else false)
       else false.

Definition sort_key (x : MatchEntry) : R * R := (m_match_score x, m_rating x).

(** [list.sort(key=..., reverse=True)]: descending and stable. *)
Fixpoint insert_desc (x : MatchEntry) (l : list MatchEntry) : list MatchEntry :=
  match l with
  | [] => [x]
  | y :: r => if key_ltb (sort_key x) (sort_key y) then y :: insert_desc x r
              else x :: l
  end.

Definition sort_desc (l : list MatchEntry) : list MatchEntry :=
  fold_right insert_desc [] l.

(** [l[:limit]] *)
Definition py_take {A : Type} (limit : Z) (l : list A) : list A :=
  if (0 <=? limit)%Z then firstn (Z.to_nat limit) l
  else firstn (length l - Z.to_nat (- limit)) l.

Definition get_fallback_matches (self : MatchingService) (limit : Z)
  : result (list MatchEntry) :=
  let* coaches := get_active_coaches self limit in
  Ok (map (fun coach => match_entry coach 0 0) coaches).

(** The body of the [try] of [find_matches]. *)
Definition rank_matches (self : MatchingService) (client : ClientProfile)
    (limit : Z) : result (list MatchEntry) :=
  let* client_data := normalize_client_data client in
  let* coaches := get_active_coaches self 100 in
  if is_nil coaches then Ok []
  else
    let* matches := score_coaches self client_data coaches in
    Ok (py_take limit (sort_desc matches)).

Definition find_matches (self : MatchingService) (client : ClientProfile)
    (limit : Z) : result (list MatchEntry) :=
  try_except (rank_matches self client limit)
    (fun _ => get_fallback_matches self limit).

(* ===================================================================== *)
(** ** The Redis cache *)
(* ===================================================================== *)

Local Close Scope R_scope.

(** The dictionary [get_coach_matches] stores. *)
Record CachedMatches : Type := {
  cached_matches : list MatchEntry;
  cached_total : nat;
  cached_generated_at : string
}.

Module Redis.

(** Glob-style patterns of [KEYS]: [*], [?], [[set]], [[^set]], ranges and
    backslash escapes. *)
Inductive class_item : Type :=
| CChar (c : ascii)
| CRange (lo hi : ascii).

Inductive token : Type :=
| TStar
| TAny
| TClass (negated : bool) (items : list class_item)
| TLit (c : ascii).

(** Tokens of a pattern; [mode] holds the class being read, if any. *)
Fixpoint tokens_from (mode : option (bool * list class_item)) (p : string)
  : list token :=
  match mode with
  | None =>
      match p with
      | EmptyString => []
      | String c r =>
          if Ascii.eqb c "*" then TStar :: tokens_from None r
          else if Ascii.eqb c "?" then TAny :: tokens_from None r
          else if Ascii.eqb c "[" then
            match r with
            | String c' r' =>
                if Ascii.eqb c' "^" then tokens_from (Some (true, [])) r'
                else tokens_from (Some (false, [])) r
            | EmptyString => tokens_from (Some (false, [])) r
            end
          else if Ascii.eqb c "\" then
            match r with
            | String c' r' => TLit c' :: tokens_from None r'
            | EmptyString => [TLit c]
            end
          else TLit c :: tokens_from None r
      end
  | Some (negated, items) =>
      match p with
      | EmptyString => [TClass negated (rev items)]
      | String c r =>
          if Ascii.eqb c "]" then TClass negated (rev items) :: tokens_from None r
          else
            match r with
            | EmptyString => tokens_from (Some (negated, CChar c :: items)) r
            | String c' r' =>
                if Ascii.eqb c "\"
                then tokens_from (Some (negated, CChar c' :: items)) r'
                else if Ascii.eqb c' "-" then
                  match r' with
                  | String hi r'' =>
                      tokens_from (Some (negated, CRange c hi :: items)) r''
                  | EmptyString =>
                      tokens_from (Some (negated, CChar c :: items)) r
                  end
                else tokens_from (Some (negated, CChar c :: items)) r
            end
      end
  end.

Definition tokens (p : string) : list token := tokens_from None p.

Definition in_item (c : ascii) (item : class_item) : bool :=
  match item with
  | CChar x => Ascii.eqb x c
  | CRange lo hi =>
      let n := N_of_ascii c in
      let a := N.min (N_of_ascii lo) (N_of_ascii hi) in
      let b := N.max (N_of_ascii lo) (N_of_ascii hi) in
      ((a <=? n) && (n <=? b))%N
  end.

Fixpoint match_tokens (p : list token) (s : string) : bool :=
  match p with
  | [] => PyStr.is_empty s
  | TStar :: p' =>
      (fix star (s : string) : bool :=
         match_tokens p' s
         || match s with
            | EmptyString => false
            | String _ s' => star s'
            end) s
  | TAny :: p' =>
      match s with
      | EmptyString => false
      | String _ s' => match_tokens p' s'
      end
  | TClass negated items :: p' =>
      match s with
      | EmptyString => false
      | String c s' =>
          xorb negated (existsb (in_item c) items) && match_tokens p' s'
      end
  | TLit x :: p' =>
      match s with
      | EmptyString => false
      | String c s' => Ascii.eqb x c && match_tokens p' s'
      end
  end.

(** Does [key] match [pattern]?  An empty key is matched by the empty
    pattern only. *)
Definition glob_match (pattern key : string) : bool :=
  if PyStr.is_empty key then PyStr.is_empty pattern
  else match_tokens (tokens pattern) key.

(** One stored value with its time to live in seconds. *)
Record entry : Type := {
  entry_value : CachedMatches;
  entry_ttl : Z
}.

(** The keyspace of the server, at one instant. *)
Definition store : Type := gmap string entry.

(** Is [key] listed by [KEYS pattern]?  The pattern [*] lists every key
    without matching; any other pattern is matched against the key. *)
Definition selects (pattern key : string) : bool :=
  String.eqb pattern "*" || glob_match pattern key.

(** [KEYS pattern] *)
Definition keys (db : store) (pattern : string) : list string :=
  filter (fun k => selects pattern k = true) (elements (dom db)).

(** [DEL key ...] *)
Definition delete_all (db : store) (ks : list string) : store :=
  fold_right (fun k acc => delete k acc) db ks.

End Redis.

(** The [redis] client object: the keyspace of the server it talks to, and
    whether that server answers. A command sent to a server that does not
    answer raises [RedisError]. *)
Record RedisClient : Type := {
  keyspace : Redis.store;
  server_up : bool
}.

(** [utils.cache_utils.CacheService]: the client made at start-up, or
    [None] when the connection failed then, and the flag set with it. *)
Record CacheService : Type := {
  redis_client : option RedisClient;
  is_available : bool
}.

(** The guard every method starts with:
    [if not self.is_available or not self.redis_client]. *)
Definition usable_client (self : CacheService) : option RedisClient :=
  if is_available self then redis_client self else None.

Definition with_keyspace (self : CacheService) (db : Redis.store) : CacheService :=
  {| redis_client := Some {| keyspace := db; server_up := true |};
     is_available := is_available self |}.

Definition cache_get (self : CacheService) (key : string) : option CachedMatches :=
  match usable_client self with
  | None => None
  | Some client =>
      if server_up client then
        match keyspace client !! key with
        | Some e => Some (Redis.entry_value e)
        | None => None
        end
      else None (* except RedisError *)
  end.

(** The longest time [timedelta(seconds=...)] can hold is 999999999 days,
    23 hours, 59 minutes and 59 seconds. *)
Definition timedelta_max_seconds : Z := 86399999999999.

(** [CacheService.set].  Its handler is
    [except (RedisError, TypeError, json.JSONEncodeError)]; the module
    [json] has no attribute [JSONEncodeError], so when anything in the
    [try] raises, evaluating the handler's tuple raises [AttributeError]
    in its place.  The [try] raises when [timedelta] overflows, when the
    server rejects a time to live that is not positive, and when the
    server does not answer. *)
Definition cache_set (self : CacheService) (key : string) (value : CachedMatches)
    (ttl_seconds : Z) : result (bool * CacheService) :=
  match usable_client self with
  | None => Ok (false, self)
  | Some client =>
      if ((0 <? ttl_seconds) && (ttl_seconds <=? timedelta_max_seconds))%Z
         && server_up client
      then
        Ok (true,
            with_keyspace self
              (<[key := {| Redis.entry_value := value;
                           Redis.entry_ttl := ttl_seconds |}]> (keyspace client)))
      else Raise AttributeError
  end.

Definition cache_delete_pattern (self : CacheService) (pattern : string)
  : Z * CacheService :=
  match usable_client self with
  | None => (0%Z, self)
  | Some client =>
      if server_up client then
        let ks := Redis.keys (keyspace client) pattern in
        if is_nil ks then (0%Z, self)
        else (Z.of_nat (length ks),
              with_keyspace self (Redis.delete_all (keyspace client) ks))
      else (0%Z, self) (* except RedisError *)
  end.

Definition cache_exists (self : CacheService) (key : string) : bool :=
  match usable_client self with
  | None => false
  | Some client =>
      if server_up client then
        match keyspace client !! key with Some _ => true | None => false end
      else false (* except RedisError *)
  end.

Definition get_match_cache (cache_service : CacheService) (cache_key : string)
  : option CachedMatches :=
  cache_get cache_service cache_key.

Definition set_match_cache (cache_service : CacheService) (cache_key : string)
    (match_results : CachedMatches) (ttl_hours : Z)
  : result (bool * CacheService) :=
  cache_set cache_service cache_key match_results (ttl_hours * 3600).

Definition invalidate_client_match_cache (cache_service : CacheService)
    (client_id : string) : Z * CacheService :=
  let pattern := "match:" ++ client_id ++ ":*" in
  cache_delete_pattern cache_service pattern.

Definition invalidate_all_match_cache (cache_service : CacheService)
  : Z * CacheService :=
  let pattern := "match:*" in
  cache_delete_pattern cache_service pattern.

(** The keyspace the service works on: that of a usable client whose
    server answers. *)
Definition connected (self : CacheService) : option Redis.store :=
  match usable_client self with
  | Some client => if server_up client then Some (keyspace client) else None
  | None => None
  end.

(* ===================================================================== *)
(** ** The endpoint [POST /match] *)
(* ===================================================================== *)

(** [schemas.matching.MatchRequest]; [limit] is validated to 1..50 before
    the handler runs. *)
Record MatchRequest : Type := {
  limit : Z;
  use_cache : bool
}.

Definition request_valid (request : MatchRequest) : Prop :=
  (1 <= limit request <= 50)%Z.

Definition default_request : MatchRequest := {| limit := 10; use_cache := true |}.

Record User : Type := {
  user_id : UUID;
  role : string
}.

(** [schemas.matching.CoachMatchResult]: the list fields, the currency, the
    session count and the verification flag may not be [None]. *)
Record CoachMatchResult : Type := {
  r_coach_id : string;
  r_user_id : string;
  r_first_name : option string;
  r_last_name : option string;
  r_photo_url : option string;
  r_bio : option string;
  r_expertise : list string;
  r_languages : list string;
  r_countries : list string;
  r_hourly_rate : option R;
  r_currency : string;
  r_rating : R;
  r_total_sessions : Z;
  r_is_verified : bool;
  r_match_score : R;
  r_confidence_score : R
}.

(** The constructor call of [CoachMatchResult] on one entry; [None] stands
    for the validation error. *)
Definition coach_match_result (m : MatchEntry) : option CoachMatchResult :=
  match m_expertise m, m_languages m, m_countries m,
        m_currency m, m_total_sessions m, m_is_verified m with
  | Some e, Some l, Some c, Some cur, Some n, Some v =>
      Some {|
        r_coach_id := m_coach_id m;
        r_user_id := m_user_id m;
        r_first_name := m_first_name m;
        r_last_name := m_last_name m;
        r_photo_url := m_photo_url m;
        r_bio := m_bio m;
        r_expertise := e;
        r_languages := l;
        r_countries := c;
        r_hourly_rate := m_hourly_rate m;
        r_currency := cur;
        r_rating := m_rating m;
        r_total_sessions := n;
        r_is_verified := v;
        r_match_score := m_match_score m;
        r_confidence_score := m_confidence_score m
      |}
  | _, _, _, _, _, _ => None
  end.

(** The list comprehension over [matches]. *)
Fixpoint coach_match_results (matches : list MatchEntry)
  : option (list CoachMatchResult) :=
  match matches with
  | [] => Some []
  | m :: rest =>
      match coach_match_result m, coach_match_results rest with
      | Some r, Some rs => Some (r :: rs)
      | _, _ => None
      end
  end.

Record MatchResponse : Type := {
  resp_matches : list CoachMatchResult;
  resp_total_matches : nat;
  resp_cached : bool;
  resp_generated_at : string
}.

(** How a call of the handler ends: it returns the response, raises an
    [HTTPException], or lets an exception through (the model validation
    error of [CoachMatchResult], or any other). *)
Inductive handler_result : Type :=
| Response (r : MatchResponse)
| HTTPException (status_code : Z) (detail : string)
| ResponseValidationError
| Unhandled (e : exn).

(** The constructor call of [MatchResponse] over validated entries. *)
Definition match_response (matches : list MatchEntry) (total : nat)
    (cached : bool) (generated_at : string) : option MatchResponse :=
  match coach_match_results matches with
  | Some rs =>
      Some {| resp_matches := rs; resp_total_matches := total;
              resp_cached := cached; resp_generated_at := generated_at |}
  | None => None
  end.

Definition not_a_client : string := "Only clients can request coach matches".
Definition profile_not_found : string :=
  "Client profile not found. Please complete your profile first.".
Definition incomplete_quiz : string :=
  "Incomplete quiz data. Please complete all 20 required matching factors.".
Definition matching_failed : string :=
  "Failed to generate coach matches. Please try again later.".

(** [get_coach_matches].  [client_profile] is what
    [client_repo.get_by_user_id] finds, [utcnow] the clock's answer; the
    result comes with the cache as the request leaves it. *)
Definition get_coach_matches (matching_service : MatchingService)
    (cache_service : CacheService) (utcnow : string)
    (request : MatchRequest) (current_user : User)
    (client_profile : option ClientProfile) : handler_result * CacheService :=
  if negb (String.eqb (role current_user) "client")
  then (HTTPException 403 not_a_client, cache_service)
  else
    match client_profile with
    | None => (HTTPException 404 profile_not_found, cache_service)
    | Some client_profile =>
        if negb (validate_quiz_data client_profile)
        then (HTTPException 400 incomplete_quiz, cache_service)
        else
          let cache_key :=
            generate_cache_key (user_id current_user) (quiz_data client_profile) in
          let cached_results :=
            if use_cache request then get_match_cache cache_service cache_key
            else None in
          match cached_results with
          | Some cached =>
              (match match_response (cached_matches cached) (cached_total cached)
                       true (cached_generated_at cached) with
               | Some r => Response r
               | None => ResponseValidationError
               end,
               cache_service)
          | None =>
              match find_matches matching_service client_profile (limit request) with
              | Ok matches =>
                  let generated_at := utcnow in
                  let response_data := {|
                    cached_matches := matches;
                    cached_total := length matches;
                    cached_generated_at := generated_at
                  |} in
                  match set_match_cache cache_service cache_key response_data 24 with
                  | Ok (_, cache_service') =>
                      (match match_response matches (length matches) false
                               generated_at with
                       | Some r => Response r
                       | None => HTTPException 500 matching_failed
                       end,
                       cache_service')
                  | Raise _ => (HTTPException 500 matching_failed, cache_service)
                  end
              | Raise TimeoutError =>
                  (match get_fallback_matches matching_service (limit request) with
                   | Ok fallback_matches =>
                       match match_response fallback_matches
                               (length fallback_matches) false utcnow with
                       | Some r => Response r
                       | None => ResponseValidationError
                       end
                   | Raise e => Unhandled e
                   end,
                   cache_service)
              | Raise _ => (HTTPException 500 matching_failed, cache_service)
              end
          end
    end.

(** The status the application answers with: [main.py] registers the
    handlers of [middleware/error_handler.py], which turn a validation
    error into 400 and any other exception into 500. *)
Definition http_status (r : handler_result) : Z :=
  match r with
  | Response _ => 200
  | HTTPException status_code _ => status_code
  | ResponseValidationError => 400
  | Unhandled _ => 500
  end.

(* ===================================================================== *)
(** ** The other methods of [CacheService] *)
(* ===================================================================== *)

(** [CacheService.delete]: [True] once the command went through, whether
    or not the key was there. *)
Definition cache_delete (self : CacheService) (key : string)
  : bool * CacheService :=
  match usable_client self with
  | None => (false, self)
  | Some client =>
      if server_up client then
        (true, with_keyspace self (delete key (keyspace client)))
      else (false, self) (* except RedisError *)
  end.

(** [TTL key]: the seconds the entry has left, [-2] for a key that does
    not exist. *)
Definition redis_ttl (db : Redis.store) (key : string) : Z :=
  match db !! key with
  | Some e => Redis.entry_ttl e
  | None => (-2)%Z
  end.

(** [CacheService.get_ttl]: [ttl if ttl > 0 else None]. *)
Definition cache_get_ttl (self : CacheService) (key : string) : option Z :=
  match usable_client self with
  | None => None
  | Some client =>
      if server_up client then
        let ttl := redis_ttl (keyspace client) key in
        if (0 <? ttl)%Z then Some ttl else None
      else None (* except RedisError *)
  end.

(** [CacheService.flush_all] *)
Definition cache_flush_all (self : CacheService) : bool * CacheService :=
  match usable_client self with
  | None => (false, self)
  | Some client =>
      if server_up client then (true, with_keyspace self ∅)
      else (false, self) (* except RedisError *)
  end.

(** [utils.response_cache.invalidate_cache_pattern] and
    [invalidate_endpoint_cache]: the same service, other keys. *)
Definition invalidate_cache_pattern (cache_service : CacheService)
    (pattern : string) : Z * CacheService :=
  cache_delete_pattern cache_service pattern.

Definition invalidate_endpoint_cache (cache_service : CacheService)
    (endpoint_name : string) : Z * CacheService :=
  let pattern := "api_cache:" ++ endpoint_name ++ ":*" in
  cache_delete_pattern cache_service pattern.

(* ===================================================================== *)
(** ** The endpoints [GET /match/cache/info] and [DELETE /match/cache] *)
(* ===================================================================== *)

(** [schemas.matching.MatchCacheInfo] *)
Record MatchCacheInfo : Type := {
  info_cache_key : string;
  info_exists : bool;
  info_ttl_seconds : option Z
}.

(** How a call of one of these handlers ends: it returns, or raises an
    [HTTPException]. *)
Inductive endpoint_result (A : Type) : Type :=
| Returned (a : A)
| HTTPError (status_code : Z) (detail : string).
Arguments Returned {A} a.
Arguments HTTPError {A} status_code detail.

Definition no_cache_info_access : string :=
  "Only clients can access match cache info".
Definition client_profile_not_found : string := "Client profile not found".
Definition no_cache_clear_access : string :=
  "Only clients can clear match cache".

(** [get_match_cache_info]; [client_profile] is what
    [client_repo.get_by_user_id] finds. *)
Definition get_match_cache_info (cache_service : CacheService)
    (current_user : User) (client_profile : option ClientProfile)
  : endpoint_result MatchCacheInfo :=
  if negb (String.eqb (role current_user) "client")
  then HTTPError 403 no_cache_info_access
  else
    match client_profile with
    | None => HTTPError 404 client_profile_not_found
    | Some client_profile =>
        let cache_key :=
          generate_cache_key (user_id current_user) (quiz_data client_profile) in
        let exists_ := cache_exists cache_service cache_key in
        let ttl :=
          if exists_ then cache_get_ttl cache_service cache_key else None in
        Returned {| info_cache_key := cache_key;
                    info_exists := exists_;
                    info_ttl_seconds := ttl |}
    end.

(** [clear_match_cache]: the result comes with the cache as the request
    leaves it. *)
Definition clear_match_cache (cache_service : CacheService)
    (current_user : User) : endpoint_result unit * CacheService :=
  if negb (String.eqb (role current_user) "client")
  then (HTTPError 403 no_cache_clear_access, cache_service)
  else
    (Returned tt,
     snd (invalidate_client_match_cache cache_service
            (uuid_str (user_id current_user)))).

(* ===================================================================== *)
(** ** The methods of [models.profile.CoachProfile] and the quiz schema *)
(* ===================================================================== *)

(** [CoachProfile.validate_hourly_rate] *)
Definition validate_hourly_rate (self : CoachProfile) : bool :=
  match hourly_rate self with
  | None => false
  | Some rate =>
      if Rle_dec 25 rate then (if Rle_dec rate 500 then true else false)
      else false
  end.

(** [x or d] on strings *)
Definition str_or (x : option string) (d : string) : string :=
  match x with
  | Some s => if PyStr.is_empty s then d else s
  | None => d
  end.

(** [CoachProfile.get_full_name] *)
Definition get_full_name (self : CoachProfile) : string :=
  match first_name self, last_name self with
  | Some first, Some last =>
      if negb (PyStr.is_empty first) && negb (PyStr.is_empty last)
      then first ++ " " ++ last
      else str_or (Some first) (str_or (Some last) "Unknown")
  | first, last => str_or first (str_or last "Unknown")
  end.

(** [x in (l or [])] *)
Definition py_in (x : string) (l : option (list string)) : bool :=
  existsb (String.eqb x) (or_nil l).

(** [CoachProfile.has_language], [has_country_experience] and
    [has_expertise] *)
Definition has_language (self : CoachProfile) (language : string) : bool :=
  py_in language (languages self).

Definition has_country_experience (self : CoachProfile) (country : string)
  : bool :=
  py_in country (countries self).

Definition has_expertise (self : CoachProfile) (expertise_area : string)
  : bool :=
  py_in expertise_area (expertise self).

(** [schemas.profile.QuizData.validate_budget_range] on the validated
    [Dict[str, float]]: the value itself, or [ValueError]. *)
Definition validate_budget_range (v : gmap string R)
  : result (gmap string R) :=
  match v !! "min", v !! "max" with
  | Some vmin, Some vmax =>
      if Rlt_dec vmin 0 then Raise ValueError
      else if Rlt_dec vmax 0 then Raise ValueError
      else if Rgt_dec vmin vmax then Raise ValueError
      else Ok v
  | _, _ => Raise ValueError
  end.

Local Open Scope R_scope.

(* ===================================================================== *)
(** ** Python strings: sanity checks *)
(* ===================================================================== *)

Module PyStrFacts.
Import PyStr.

Example lower_mixed : lower "EnGlish-42" = "english-42".
Proof. reflexivity. Qed.

Example split_runs :
  split (String (ascii_of_nat 9) "  career  Change " ++ "x")
  = ["career"; "Change"; "x"].
Proof. reflexivity. Qed.

Example join_three : join " " ["a"; "b"; "c"] = "a b c".
Proof. reflexivity. Qed.

Lemma lower_char_idem (c : ascii) : lower_char (lower_char c) = lower_char c.
Proof.
  destruct c as [[] [] [] [] [] [] [] []]; reflexivity.
Qed.

Lemma lower_idem (s : string) : lower (lower s) = lower s.
Proof.
  induction s as [|c r IH]; simpl; [reflexivity|].
  now rewrite lower_char_idem, IH.
Qed.

End PyStrFacts.

(* ===================================================================== *)
(** ** Jaccard similarity of finite sets *)
(* ===================================================================== *)

Section JaccardFacts.

Implicit Types a b : gset string.

Lemma ratio_unit_interval (p q : R) : 0 <= p <= q -> 0 < q -> 0 <= p / q <= 1.
Proof.
  intros [Hp Hpq] Hq. split.
  - apply Rmult_le_pos; [exact Hp|]. left. now apply Rinv_0_lt_compat.
  - apply Rmult_le_reg_r with q; [exact Hq|].
    unfold Rdiv. rewrite Rmult_assoc, Rinv_l by lra. lra.
Qed.

Lemma jaccard_range a b : 0 <= jaccard a b <= 1.
Proof.
  unfold jaccard. cbv zeta.
  destruct (Nat.ltb_spec 0 (size (a ∪ b))) as [Hpos|_]; [|lra].
  apply ratio_unit_interval.
  - split; [apply pos_INR|]. apply le_INR, subseteq_size.
    transitivity a; [apply intersection_subseteq_l|apply union_subseteq_l].
  - now apply lt_0_INR.
Qed.

Lemma jaccard_sym a b : jaccard a b = jaccard b a.
Proof.
  unfold jaccard.
  assert (Hi : a ∩ b = b ∩ a).
  { apply set_eq. intros z. rewrite !elem_of_intersection. tauto. }
  assert (Hu : a ∪ b = b ∪ a).
  { apply set_eq. intros z. rewrite !elem_of_union. tauto. }
  now rewrite Hi, Hu.
Qed.

Lemma jaccard_same a : a ≠ ∅ -> jaccard a a = 1.
Proof.
  intros Hne. unfold jaccard. cbv zeta.
  assert (Hi : a ∩ a = a).
  { apply set_eq. intros z. rewrite elem_of_intersection. tauto. }
  assert (Hu : a ∪ a = a).
  { apply set_eq. intros z. rewrite elem_of_union. tauto. }
  rewrite Hi, Hu.
  assert (Hsz : size a ≠ 0%nat).
  { intros Hz. apply Hne. apply leibniz_equiv. now apply size_empty_iff. }
  destruct (Nat.ltb_spec 0 (size a)) as [Hpos|Hle]; [|lia].
  apply Rinv_r. apply not_0_INR. exact Hsz.
Qed.

Lemma jaccard_union_positive a b :
  a ≠ ∅ -> jaccard a b = INR (size (a ∩ b)) / INR (size (a ∪ b)).
Proof.
  intros Hne. unfold jaccard. cbv zeta.
  destruct (Nat.ltb_spec 0 (size (a ∪ b))) as [Hpos|Hle]; [reflexivity|].
  exfalso. apply Hne. apply set_eq. intros z.
  assert (Hz : size (a ∪ b) = 0%nat) by lia.
  apply size_empty_iff in Hz. split.
  - intros Hin. apply (Hz z). apply elem_of_union. now left.
  - intros Hin. now apply not_elem_of_empty in Hin.
Qed.

(** Evaluating [jaccard] from the two cardinalities. *)
Lemma jaccard_eval a b (i u : nat) :
  size (a ∩ b) = i -> size (a ∪ b) = S u -> jaccard a b = INR i / INR (S u).
Proof. unfold jaccard. now intros -> ->. Qed.

Lemma lower_set_nonempty (l : list string) : l <> [] -> lower_set l ≠ ∅.
Proof.
  destruct l as [|x r]; [congruence|]. intros _ He.
  assert (Hin : PyStr.lower x ∈ lower_set (x :: r)).
  { unfold lower_set. simpl. apply elem_of_union. left.
    now apply elem_of_singleton. }
  rewrite He in Hin. now apply not_elem_of_empty in Hin.
Qed.

Lemma is_nil_true {A : Type} (l : list A) : is_nil l = true <-> l = [].
Proof. destruct l; simpl; split; congruence. Qed.

Lemma is_nil_false {A : Type} (l : list A) : is_nil l = false <-> l <> [].
Proof. destruct l; simpl; split; congruence. Qed.

End JaccardFacts.

(* ===================================================================== *)
(** ** The language and country scorers *)
(* ===================================================================== *)

Lemma country_score_is_language_score (x y : list string) :
  calculate_country_score x y = calculate_language_score x y.
Proof. reflexivity. Qed.

Lemma language_score_nonempty (x y : list string) :
  x <> [] -> y <> [] ->
  calculate_language_score x y = jaccard (lower_set x) (lower_set y).
Proof.
  intros Hx Hy. unfold calculate_language_score.
  apply is_nil_false in Hx, Hy. now rewrite Hx, Hy.
Qed.

Lemma language_score_sym (x y : list string) :
  calculate_language_score x y = calculate_language_score y x.
Proof.
  unfold calculate_language_score. cbv zeta.
  rewrite (orb_comm (is_nil x)).
  destruct (is_nil y || is_nil x); [reflexivity|apply jaccard_sym].
Qed.

Lemma language_score_range (x y : list string) :
  0 <= calculate_language_score x y <= 1.
Proof.
  unfold calculate_language_score. cbv zeta.
  destruct (is_nil x || is_nil y); [lra|apply jaccard_range].
Qed.

Lemma language_score_empty (x y : list string) :
  x = [] \/ y = [] -> calculate_language_score x y = 0.
Proof.
  unfold calculate_language_score.
  intros [-> | ->]; simpl; [reflexivity|].
  now rewrite orb_true_r.
Qed.

Lemma language_score_identical (x y : list string) :
  x <> [] -> lower_set x = lower_set y -> calculate_language_score x y = 1.
Proof.
  intros Hx Heq.
  assert (Hy : y <> []).
  { intros ->. apply (lower_set_nonempty x Hx). rewrite Heq. reflexivity. }
  rewrite language_score_nonempty by assumption.
  rewrite <- Heq. apply jaccard_same. now apply lower_set_nonempty.
Qed.

(** C10. The language and country scorers are the Jaccard similarity of the
    lower-cased sets: |A ∩ B| / |A ∪ B| on non-empty lists. They are
    symmetric in their two arguments, take values in [0,1], give 0.0 when
    either list is empty and 1.0 when the two lists denote the same
    non-empty set up to case. *)
Theorem jaccard_scorers_contract (x y : list string) :
  (x <> [] -> y <> [] ->
     calculate_language_score x y
     = INR (size (lower_set x ∩ lower_set y)) / INR (size (lower_set x ∪ lower_set y))
     /\ calculate_country_score x y
     = INR (size (lower_set x ∩ lower_set y)) / INR (size (lower_set x ∪ lower_set y)))
  /\ calculate_language_score x y = calculate_language_score y x
  /\ calculate_country_score x y = calculate_country_score y x
  /\ 0 <= calculate_language_score x y <= 1
  /\ 0 <= calculate_country_score x y <= 1
  /\ (x = [] \/ y = [] ->
        calculate_language_score x y = 0 /\ calculate_country_score x y = 0)
  /\ (x <> [] -> lower_set x = lower_set y ->
        calculate_language_score x y = 1 /\ calculate_country_score x y = 1).
Proof.
  change (calculate_country_score x y) with (calculate_language_score x y).
  change (calculate_country_score y x) with (calculate_language_score y x).
  repeat split.
  - rewrite language_score_nonempty by assumption.
    apply jaccard_union_positive. now apply lower_set_nonempty.
  - rewrite language_score_nonempty by assumption.
    apply jaccard_union_positive. now apply lower_set_nonempty.
  - apply language_score_sym.
  - apply language_score_sym.
  - apply language_score_range.
  - apply language_score_range.
  - apply language_score_range.
  - apply language_score_range.
  - now apply language_score_empty.
  - now apply language_score_empty.
  - now apply language_score_identical.
  - now apply language_score_identical.
Qed.

(** The scorers on the lists of scenario A, and on lists equal up to case. *)
Lemma jaccard_scorers_contract_witness :
  calculate_language_score ["English"; "Spanish"] ["Spanish"] = 1 / 2
  /\ calculate_country_score ["Spain"] ["SPAIN"; "spain"] = 1.
Proof.
  split.
  - destruct (jaccard_scorers_contract ["English"; "Spanish"] ["Spanish"])
      as [Hform _].
    destruct Hform as [Hl _]; [discriminate|discriminate|].
    rewrite Hl.
    replace (size (lower_set ["English"; "Spanish"] ∩ lower_set ["Spanish"]))
      with 1%nat by (vm_compute; reflexivity).
    replace (size (lower_set ["English"; "Spanish"] ∪ lower_set ["Spanish"]))
      with 2%nat by (vm_compute; reflexivity).
    simpl. lra.
  - destruct (jaccard_scorers_contract ["Spain"] ["SPAIN"; "spain"])
      as (_ & _ & _ & _ & _ & _ & Hsame).
    apply Hsame; [discriminate|].
    vm_compute. reflexivity.
Defined.

(* ===================================================================== *)
(** ** The budget scorer *)
(* ===================================================================== *)

(** Decide the comparisons of a closed real expression. *)
Ltac decide_reals :=
  repeat match goal with
    | |- context [Rle_dec ?a ?b] =>
        destruct (Rle_dec a b); [try (exfalso; lra)|try (exfalso; lra)]
    | |- context [Req_dec_T ?a ?b] =>
        destruct (Req_dec_T a b); [try (exfalso; lra)|try (exfalso; lra)]
    end.

Lemma budget_score_unset_rate (budget_max rate : R) :
  rate <= 0 -> calculate_budget_score budget_max rate = Ok (1 / 2).
Proof.
  intros Hr. unfold calculate_budget_score.
  destruct (Rle_dec rate 0); [reflexivity|contradiction].
Qed.

Lemma budget_score_within (budget_max rate : R) :
  0 < rate <= budget_max -> calculate_budget_score budget_max rate = Ok 1.
Proof.
  intros [H0 Hm]. unfold calculate_budget_score.
  destruct (Rle_dec rate 0); [lra|].
  destruct (Rle_dec rate budget_max); [reflexivity|contradiction].
Qed.

Lemma budget_score_over (budget_max rate : R) :
  0 < budget_max -> budget_max < rate ->
  calculate_budget_score budget_max rate
  = Ok (if Rle_dec (rate - budget_max) (2 / 10 * budget_max) then 1 / 2 else 0).
Proof.
  intros Hb Hover. unfold calculate_budget_score, py_div.
  destruct (Rle_dec rate 0); [lra|].
  destruct (Rle_dec rate budget_max); [lra|].
  destruct (Req_dec_T budget_max 0); [lra|]. simpl.
  assert (Hiff : (rate - budget_max) / budget_max <= 2 / 10
                 <-> rate - budget_max <= 2 / 10 * budget_max).
  { split; intros H.
    - apply Rmult_le_compat_r with (r := budget_max) in H; [|lra].
      unfold Rdiv in H at 1. rewrite Rmult_assoc, Rinv_l in H by lra. lra.
    - apply Rmult_le_reg_r with budget_max; [lra|].
      unfold Rdiv at 1. rewrite Rmult_assoc, Rinv_l by lra. lra. }
  destruct (Rle_dec ((rate - budget_max) / budget_max) (2 / 10)) as [H|H];
    destruct (Rle_dec (rate - budget_max) (2 / 10 * budget_max)) as [H'|H'];
    try reflexivity; exfalso; tauto.
Qed.

(** On a zero budget every positive rate reaches the division. *)
Lemma budget_score_zero_budget (rate : R) :
  0 < rate -> calculate_budget_score 0 rate = Raise ZeroDivisionError.
Proof.
  intros Hr. unfold calculate_budget_score, py_div.
  destruct (Rle_dec rate 0); [lra|].
  destruct (Rle_dec rate 0); [lra|].
  destruct (Req_dec_T 0 0); [reflexivity|lra].
Qed.

(** With a positive budget the scorer returns, and its value is in [0,1]. *)
Lemma budget_score_positive_budget (budget_max rate : R) :
  0 < budget_max ->
  exists b, calculate_budget_score budget_max rate = Ok b /\ 0 <= b <= 1.
Proof.
  intros Hb.
  destruct (Rle_dec rate 0) as [H0|H0].
  { exists (1 / 2). split; [now apply budget_score_unset_rate|lra]. }
  destruct (Rle_dec rate budget_max) as [Hm|Hm].
  { exists 1. split; [apply budget_score_within; lra|lra]. }
  eexists. split; [apply budget_score_over; lra|].
  destruct (Rle_dec (rate - budget_max) (2 / 10 * budget_max)); lra.
Qed.

(** C5. [calculate_budget_score] is not total on non-negative budgets: with
    [budget_max = 0] and a coach rate of 100 the overage division raises
    [ZeroDivisionError] instead of returning 0.0. *)
Theorem budget_score_raises_on_zero_budget :
  calculate_budget_score 0 100 = Raise ZeroDivisionError.
Proof. apply budget_score_zero_budget. lra. Qed.

(* ===================================================================== *)
(** ** The goal-expertise scorer *)
(* ===================================================================== *)

Lemma keyword_overlap_range (client_text coach_text : string) :
  0 <= keyword_overlap client_text coach_text <= 1.
Proof. apply jaccard_range. Qed.

Lemma get_text_embedding_unconfigured (text : string) :
  get_text_embedding {| openai_client := None |} text = Ok None.
Proof. reflexivity. Qed.

(** The two exceptions the handler names give [None]. *)
Lemma get_text_embedding_failure (create : string -> embed_outcome) (text : string) :
  create text = EmbedRaises OpenAIError \/ create text = EmbedRaises TimeoutError ->
  get_text_embedding {| openai_client := Some create |} text = Ok None.
Proof.
  unfold get_text_embedding. simpl. now intros [-> | ->].
Qed.

(** Every other exception, and an answer without data, leave the call. *)
Lemma get_text_embedding_raises (create : string -> embed_outcome)
    (text : string) (e : exn) :
  get_text_embedding {| openai_client := Some create |} text = Raise e
  <-> (create text = EmbedNoData /\ e = IndexError)
      \/ (create text = EmbedRaises e /\ e <> OpenAIError /\ e <> TimeoutError).
Proof.
  unfold get_text_embedding. simpl.
  destruct (create text) as [v| |e'] eqn:Hc.
  - split; [discriminate|]. intros [[H _]|[H _]]; discriminate.
  - split.
    + intros [= <-]. left. now split.
    + intros [[_ ->]|[H _]]; [reflexivity|discriminate].
  - split.
    + intros H. right.
      destruct e'; try discriminate; injection H as <-;
        repeat split; discriminate.
    + intros [[H _]|[[= ->] [H1 H2]]]; [discriminate|].
      destruct e; try reflexivity; contradiction.
Qed.

Lemma word_set_empty : word_set "" = ∅.
Proof. reflexivity. Qed.

Lemma jaccard_empty_l (b : gset string) : jaccard ∅ b = 0.
Proof.
  unfold jaccard. cbv zeta.
  assert (Hi : (∅ : gset string) ∩ b = ∅).
  { apply set_eq. intros z. rewrite elem_of_intersection.
    split; [now intros [H _]|]. intros H. now apply not_elem_of_empty in H. }
  rewrite Hi, size_empty. simpl.
  destruct (0 <? size (∅ ∪ b))%nat; [|reflexivity].
  unfold Rdiv. apply Rmult_0_l.
Qed.

Lemma jaccard_empty_r (a : gset string) : jaccard a ∅ = 0.
Proof. rewrite jaccard_sym. apply jaccard_empty_l. Qed.

(** The keyword fallback is taken when both calls return and an
    embedding is missing. *)
Lemma goal_score_without_embedding (self : EmbeddingProvider)
    (client_goals client_challenges coach_expertise : list string)
    (client_embedding coach_embedding : option (list R)) :
  get_text_embedding self (PyStr.join " " (client_goals ++ client_challenges))
  = Ok client_embedding ->
  get_text_embedding self (PyStr.join " " coach_expertise) = Ok coach_embedding ->
  client_embedding = None \/ coach_embedding = None ->
  calculate_goal_expertise_score self client_goals client_challenges
    coach_expertise
  = Ok (keyword_overlap (PyStr.join " " (client_goals ++ client_challenges))
          (PyStr.join " " coach_expertise)).
Proof.
  intros Hclient Hcoach Hnone. unfold calculate_goal_expertise_score.
  destruct ((is_nil client_goals && is_nil client_challenges)
            || is_nil coach_expertise) eqn:Hempty.
  - (* an empty side: the early 0.0 is the overlap of an empty word set *)
    f_equal. symmetry. unfold keyword_overlap.
    apply orb_true_iff in Hempty as [Hc|He].
    + apply andb_true_iff in Hc as [Hg Hch].
      apply is_nil_true in Hg, Hch. subst. simpl.
      apply jaccard_empty_l.
    + apply is_nil_true in He. subst. simpl. apply jaccard_empty_r.
  - cbv zeta. rewrite Hclient, Hcoach. cbn [bind].
    destruct Hnone as [-> | ->]; [reflexivity|].
    now destruct client_embedding.
Qed.

Lemma goal_score_unconfigured
    (client_goals client_challenges coach_expertise : list string) :
  calculate_goal_expertise_score {| openai_client := None |} client_goals
    client_challenges coach_expertise
  = Ok (keyword_overlap (PyStr.join " " (client_goals ++ client_challenges))
          (PyStr.join " " coach_expertise)).
Proof.
  apply (goal_score_without_embedding _ _ _ _ None None);
    [reflexivity|reflexivity|now left].
Qed.

Lemma goal_score_empty_side (self : EmbeddingProvider)
    (client_goals client_challenges coach_expertise : list string) :
  (client_goals ++ client_challenges)%list = [] \/ coach_expertise = [] ->
  calculate_goal_expertise_score self client_goals client_challenges
    coach_expertise = Ok 0.
Proof.
  intros Hempty. unfold calculate_goal_expertise_score.
  destruct Hempty as [Hc | ->].
  - apply app_eq_nil in Hc as [-> ->]. reflexivity.
  - simpl. now rewrite orb_true_r.
Qed.

(** Vectors of one dimension never make the scorer raise. *)
Lemma dot_same_length (v1 v2 : list R) :
  length v1 = length v2 -> exists d, dot v1 v2 = Ok d.
Proof.
  revert v2. induction v1 as [|x r1 IH]; intros [|y r2] Hlen;
    try discriminate; simpl.
  - now exists 0.
  - injection Hlen as Hlen. destruct (IH r2 Hlen) as [d ->]. simpl.
    now eexists.
Qed.

Lemma cosine_same_length (v1 v2 : list R) :
  length v1 = length v2 -> exists s, cosine_similarity v1 v2 = Ok s.
Proof.
  intros Hlen. unfold cosine_similarity.
  destruct (is_nil v1 || is_nil v2); [now eexists|].
  destruct (dot_same_length v1 v2 Hlen) as [d ->]. simpl.
  destruct (Req_dec_T (norm v1) 0); [now eexists|].
  destruct (Req_dec_T (norm v2) 0); now eexists.
Qed.

(** With a provider whose calls all return, and whose vectors all have
    one dimension, the scorer always returns. *)
Lemma goal_score_same_dimension (self : EmbeddingProvider) (dimension : nat)
    (client_goals client_challenges coach_expertise : list string) :
  (forall text, exists answer,
      get_text_embedding self text = Ok answer
      /\ forall v, answer = Some v -> length v = dimension) ->
  exists s, calculate_goal_expertise_score self client_goals
              client_challenges coach_expertise = Ok s.
Proof.
  intros Hdim. unfold calculate_goal_expertise_score.
  destruct (_ || is_nil coach_expertise); [now eexists|]. cbv zeta.
  destruct (Hdim (PyStr.join " " (client_goals ++ client_challenges)))
    as (a1 & -> & H1).
  destruct (Hdim (PyStr.join " " coach_expertise)) as (a2 & -> & H2).
  cbn [bind].
  destruct a1 as [v1|]; [|now eexists].
  destruct a2 as [v2|]; [|now eexists].
  destruct (is_nil v1 || is_nil v2); [now eexists|].
  apply cosine_same_length.
  now rewrite (H1 v1 eq_refl), (H2 v2 eq_refl).
Qed.

(** Two vectors of different dimensions make [np.dot] raise. *)
Lemma dot_ragged (v1 v2 : list R) :
  length v1 <> length v2 -> dot v1 v2 = Raise ValueError.
Proof.
  revert v2. induction v1 as [|x r1 IH]; intros [|y r2] Hlen;
    try reflexivity; simpl in *.
  - contradiction.
  - rewrite IH by congruence. reflexivity.
Qed.

Lemma cosine_ragged (v1 v2 : list R) :
  v1 <> [] -> v2 <> [] -> length v1 <> length v2 ->
  cosine_similarity v1 v2 = Raise ValueError.
Proof.
  intros H1 H2 Hlen. unfold cosine_similarity.
  destruct v1; [contradiction|]. destruct v2; [contradiction|].
  cbn [is_nil orb]. now rewrite dot_ragged.
Qed.

(** A provider whose two answers have different dimensions; one whose
    call raises an exception the handler does not name; one whose answer
    has no data. *)
Definition ragged_provider : EmbeddingProvider := {|
  openai_client :=
    Some (fun text => if String.eqb text "relocation"
                      then Embedding [1; 0] else Embedding [1; 0; 0])
|}.

Definition unreachable_provider : EmbeddingProvider := {|
  openai_client := Some (fun _ => EmbedRaises ConnectionError)
|}.

Definition empty_answer_provider : EmbeddingProvider := {|
  openai_client := Some (fun _ => EmbedNoData)
|}.

(** C6. [calculate_goal_expertise_score] does raise past its caller:
    when the embedding call raises an exception other than [OpenAIError]
    and [asyncio.TimeoutError] (here [ConnectionError]) that exception
    leaves the scorer instead of the keyword fallback being taken; an
    answer with an empty [data] list gives [IndexError]; and two
    embeddings of different dimensions give the [ValueError] of
    [np.dot]. *)
Theorem goal_score_raises_past_caller :
  calculate_goal_expertise_score unreachable_provider ["relocation"] []
    ["taxes"] = Raise ConnectionError
  /\ calculate_goal_expertise_score empty_answer_provider ["relocation"] []
       ["taxes"] = Raise IndexError
  /\ calculate_goal_expertise_score ragged_provider ["relocation"] []
       ["taxes"] = Raise ValueError.
Proof.
  repeat split; reflexivity.
Qed.

(** X9. Whenever both embedding calls return and either embedding is
    missing (no provider configured, an [OpenAIError], a timeout),
    [calculate_goal_expertise_score] returns the word-level Jaccard
    similarity of the lower-cased, whitespace-split client text (goals
    then challenges) and coach text (expertise), a value in [0,1]; and it
    returns 0.0, without calling the provider, when the client side
    (goals and challenges) or the coach side is empty. *)
Theorem goal_score_degrades_to_keywords (self : EmbeddingProvider)
    (client_goals client_challenges coach_expertise : list string)
    (client_embedding coach_embedding : option (list R)) :
  let client_text := PyStr.join " " (client_goals ++ client_challenges) in
  let coach_text := PyStr.join " " coach_expertise in
  (get_text_embedding self client_text = Ok client_embedding ->
   get_text_embedding self coach_text = Ok coach_embedding ->
   client_embedding = None \/ coach_embedding = None ->
     calculate_goal_expertise_score self client_goals client_challenges
       coach_expertise
     = Ok (jaccard (list_to_set (PyStr.split (PyStr.lower client_text)))
                   (list_to_set (PyStr.split (PyStr.lower coach_text)))))
  /\ 0 <= jaccard (list_to_set (PyStr.split (PyStr.lower client_text)))
                  (list_to_set (PyStr.split (PyStr.lower coach_text))) <= 1
  /\ ((client_goals ++ client_challenges)%list = [] \/ coach_expertise = [] ->
        calculate_goal_expertise_score self client_goals client_challenges
          coach_expertise = Ok 0).
Proof.
  cbv zeta. split; [|split].
  - apply goal_score_without_embedding.
  - apply jaccard_range.
  - apply goal_score_empty_side.
Qed.

(** With no provider configured, words shared up to case and spacing. *)
Lemma goal_score_degrades_to_keywords_witness :
  calculate_goal_expertise_score {| openai_client := None |}
    ["Career  change"] ["visa"] ["career"; "VISA"; "housing"] = Ok (2 / 4).
Proof.
  destruct (goal_score_degrades_to_keywords {| openai_client := None |}
              ["Career  change"] ["visa"] ["career"; "VISA"; "housing"]
              None None)
    as [Hfail _].
  rewrite Hfail by (reflexivity || now left).
  f_equal.
  rewrite (jaccard_eval _ _ 2 3) by (vm_compute; reflexivity).
  simpl. lra.
Defined.

(* ===================================================================== *)
(** ** The weighted match score *)
(* ===================================================================== *)

Lemma availability_score_values (tz : string) (availability : json) :
  calculate_availability_score tz availability
  = if truthy availability then 1 else 1 / 2.
Proof.
  unfold calculate_availability_score. now destruct (truthy availability).
Qed.

Lemma availability_score_range (tz : string) (availability : json) :
  0 <= calculate_availability_score tz availability <= 1.
Proof.
  rewrite availability_score_values. destruct (truthy availability); lra.
Qed.

Lemma weighted_total_formula (l c g b a : R) :
  weighted_total l c g b a
  = 100 * (25 / 100 * l + 20 / 100 * c + 30 / 100 * g + 15 / 100 * b
           + 10 / 100 * a).
Proof. unfold weighted_total. lra. Qed.

Lemma weights_sum_to_one : 25 / 100 + 20 / 100 + 30 / 100 + 15 / 100 + 10 / 100 = 1.
Proof. lra. Qed.

(** Components in [0,1] give a total in [0,100]. *)
Lemma weighted_total_range (l c g b a : R) :
  0 <= l <= 1 -> 0 <= c <= 1 -> 0 <= g <= 1 -> 0 <= b <= 1 -> 0 <= a <= 1 ->
  0 <= weighted_total l c g b a <= 100.
Proof. unfold weighted_total. lra. Qed.

Lemma match_score_weighted (self : EmbeddingProvider)
    (client_data : ClientData) (coach_data : CoachData) (g b : R) :
  calculate_goal_expertise_score self (cd_goals client_data)
    (cd_challenges client_data) (co_expertise coach_data) = Ok g ->
  calculate_budget_score (cd_budget_max client_data)
    (co_hourly_rate coach_data) = Ok b ->
  calculate_match_score self client_data coach_data
  = Ok (Rmin (weighted_total
                (calculate_language_score (cd_languages client_data)
                   (co_languages coach_data))
                (calculate_country_score (cd_countries client_data)
                   (co_countries coach_data))
                g b
                (calculate_availability_score (cd_timezone client_data)
                   (co_availability coach_data))) 100).
Proof.
  intros Hg Hb. unfold calculate_match_score.
  rewrite Hg. simpl. rewrite Hb. reflexivity.
Qed.

(** C2. [calculate_match_score] returns exactly
    100 x (0.25 language + 0.20 country + 0.30 semantic + 0.15 budget
    + 0.10 availability), clamped above at 100.0, of the five component
    scores of the pair; with the component scores of scenario A
    (0.5, 1.0, 1.0, 1.0, 0.5) that is 82.5. *)
Theorem match_score_is_clamped_weighted_sum (self : EmbeddingProvider)
    (client_data : ClientData) (coach_data : CoachData) (g b : R) :
  calculate_goal_expertise_score self (cd_goals client_data)
    (cd_challenges client_data) (co_expertise coach_data) = Ok g ->
  calculate_budget_score (cd_budget_max client_data)
    (co_hourly_rate coach_data) = Ok b ->
  let l := calculate_language_score (cd_languages client_data)
             (co_languages coach_data) in
  let c := calculate_country_score (cd_countries client_data)
             (co_countries coach_data) in
  let a := calculate_availability_score (cd_timezone client_data)
             (co_availability coach_data) in
  calculate_match_score self client_data coach_data
  = Ok (Rmin (100 * (25 / 100 * l + 20 / 100 * c + 30 / 100 * g
                     + 15 / 100 * b + 10 / 100 * a)) 100)
  /\ (l = 1 / 2 -> c = 1 -> g = 1 -> b = 1 -> a = 1 / 2 ->
      calculate_match_score self client_data coach_data = Ok (825 / 10)).
Proof.
  intros Hg Hb l c a.
  rewrite (match_score_weighted self client_data coach_data g b Hg Hb).
  fold l c a. rewrite weighted_total_formula. split; [reflexivity|].
  intros -> -> -> -> ->. f_equal.
  rewrite Rmin_left by lra. lra.
Qed.

(** Scenario A of the specification. *)
Definition scenario_a_client : ClientData := {|
  cd_languages := ["English"; "Spanish"];
  cd_countries := ["Spain"];
  cd_goals := ["Career transition"];
  cd_challenges := ["housing"];
  cd_industry := JStr "Technology";
  cd_coaching_style := JStr "directive";
  cd_budget_min := JInt 50;
  cd_budget_max := 150;
  cd_timeline_urgency := JInt 3;
  cd_previous_experience := JBool false;
  cd_family_status := JStr "single";
  cd_timezone := "UTC"
|}.

Definition scenario_a_coach : CoachData := {|
  co_languages := ["Spanish"];
  co_countries := ["Spain"];
  co_expertise := ["housing"; "career"; "TRANSITION"];
  co_hourly_rate := 100;
  co_rating := 45 / 10;
  co_total_sessions := 12;
  co_is_verified := Some true;
  co_availability := JDict []
|}.

Lemma scenario_a_language :
  calculate_language_score ["English"; "Spanish"] ["Spanish"] = 1 / 2.
Proof.
  rewrite language_score_nonempty by discriminate.
  rewrite (jaccard_eval _ _ 1 1) by (vm_compute; reflexivity).
  simpl. lra.
Qed.

Lemma scenario_a_country : calculate_country_score ["Spain"] ["Spain"] = 1.
Proof. now apply language_score_identical. Qed.

Lemma scenario_a_goal :
  calculate_goal_expertise_score {| openai_client := None |}
    ["Career transition"] ["housing"] ["housing"; "career"; "TRANSITION"] = Ok 1.
Proof.
  unfold calculate_goal_expertise_score. simpl. f_equal.
  unfold keyword_overlap.
  rewrite (jaccard_eval _ _ 3 2) by (vm_compute; reflexivity).
  simpl. lra.
Qed.

Lemma match_score_is_clamped_weighted_sum_witness :
  calculate_match_score {| openai_client := None |}
    scenario_a_client scenario_a_coach = Ok (825 / 10).
Proof.
  refine (proj2 (match_score_is_clamped_weighted_sum {| openai_client := None |}
                   scenario_a_client scenario_a_coach 1 1 _ _) _ _ _ _ _).
  - exact scenario_a_goal.
  - apply budget_score_within. simpl. lra.
  - exact scenario_a_language.
  - exact scenario_a_country.
  - reflexivity.
  - reflexivity.
  - unfold scenario_a_client, scenario_a_coach. simpl.
    rewrite availability_score_values. reflexivity.
Defined.

(** *** Negative cosine similarity *)

(** A provider whose two answers point in opposite directions. *)
Definition opposed_provider : EmbeddingProvider := {|
  openai_client :=
    Some (fun text => if String.eqb text "relocation"
                      then Embedding [1; 0] else Embedding [-1; 0])
|}.

Definition opposed_client : ClientData := {|
  cd_languages := ["English"];
  cd_countries := ["Spain"];
  cd_goals := ["relocation"];
  cd_challenges := [];
  cd_industry := JStr "Technology";
  cd_coaching_style := JStr "directive";
  cd_budget_min := JInt 50;
  cd_budget_max := 100;
  cd_timeline_urgency := JInt 3;
  cd_previous_experience := JBool false;
  cd_family_status := JStr "single";
  cd_timezone := "UTC"
|}.

Definition opposed_coach : CoachData := {|
  co_languages := ["French"];
  co_countries := ["Japan"];
  co_expertise := ["taxes"];
  co_hourly_rate := 200;
  co_rating := 4;
  co_total_sessions := 3;
  co_is_verified := Some true;
  co_availability := JDict []
|}.

Lemma norm_unit_first (x : R) : x * x = 1 -> norm [x; 0] = 1.
Proof.
  intros Hx. unfold norm. simpl.
  replace (x * x + (0 * 0 + 0)) with 1 by lra. apply sqrt_1.
Qed.

Lemma cosine_opposed : cosine_similarity [1; 0] [-1; 0] = Ok (-1).
Proof.
  unfold cosine_similarity. simpl.
  rewrite (norm_unit_first 1), (norm_unit_first (-1)) by lra.
  destruct (Req_dec_T 1 0); [lra|]. f_equal. lra.
Qed.

Lemma disjoint_language_score :
  calculate_language_score ["English"] ["French"] = 0
  /\ calculate_country_score ["Spain"] ["Japan"] = 0.
Proof.
  split.
  - rewrite language_score_nonempty by discriminate.
    rewrite (jaccard_eval _ _ 0 1) by (vm_compute; reflexivity).
    simpl. lra.
  - change (calculate_country_score ["Spain"] ["Japan"])
      with (calculate_language_score ["Spain"] ["Japan"]).
    rewrite language_score_nonempty by discriminate.
    rewrite (jaccard_eval _ _ 0 1) by (vm_compute; reflexivity).
    simpl. lra.
Qed.

(** C1. The match score is not confined to [0,100]: when the provider
    returns opposed embeddings the cosine term is -1, nothing clamps it
    from below, and the score of a pair with no other overlap is -25. *)
Theorem match_score_negative_on_opposed_embeddings :
  calculate_match_score opposed_provider opposed_client opposed_coach
  = Ok (-25)
  /\ ~ (0 <= -25 <= 100).
Proof.
  split; [|lra].
  unfold calculate_match_score, opposed_client, opposed_coach. simpl.
  destruct disjoint_language_score as [-> ->].
  unfold calculate_goal_expertise_score. simpl.
  rewrite cosine_opposed. simpl.
  rewrite (budget_score_over 100 200) by lra. simpl.
  destruct (Rle_dec (200 - 100) (2 / 10 * 100)); [lra|].
  f_equal. unfold weighted_total, calculate_availability_score. simpl.
  rewrite Rmin_left by lra. lra.
Qed.

(** Without a cosine term every component is in [0,1] and so is the score
    in [0,100]: the keyword fallback keeps the claimed range. *)
Lemma match_score_range_without_provider
    (client_data : ClientData) (coach_data : CoachData) :
  0 < cd_budget_max client_data ->
  exists s, calculate_match_score {| openai_client := None |}
              client_data coach_data = Ok s /\ 0 <= s <= 100.
Proof.
  intros Hb.
  destruct (budget_score_positive_budget (cd_budget_max client_data)
              (co_hourly_rate coach_data) Hb) as (b & Hbs & Hbr).
  pose proof (goal_score_unconfigured
                (cd_goals client_data) (cd_challenges client_data)
                (co_expertise coach_data)) as Hg.
  rewrite (match_score_weighted _ _ _ _ _ Hg Hbs).
  eexists. split; [reflexivity|].
  pose proof (weighted_total_range _ _ _ _ _
                (language_score_range (cd_languages client_data)
                   (co_languages coach_data))
                (language_score_range (cd_countries client_data)
                   (co_countries coach_data))
                (keyword_overlap_range
                   (PyStr.join " " (cd_goals client_data
                                    ++ cd_challenges client_data))
                   (PyStr.join " " (co_expertise coach_data))) Hbr
                (availability_score_range (cd_timezone client_data)
                   (co_availability coach_data))) as Hrange.
  change (calculate_country_score (cd_countries client_data)
            (co_countries coach_data))
    with (calculate_language_score (cd_countries client_data)
            (co_countries coach_data)).
  rewrite Rmin_left by lra. exact Hrange.
Qed.

(* ===================================================================== *)
(** ** The scorers on entries of the annotated types *)
(* ===================================================================== *)

Module UntypedFacts.

Lemma strings_map (l : list string) : Untyped.strings (map JStr l) = Some l.
Proof.
  induction l as [|s l IH]; [reflexivity|]. simpl. now rewrite IH.
Qed.

Lemma strings_inv (l : list json) (items : list string) :
  Untyped.strings l = Some items -> l = map JStr items.
Proof.
  revert items. induction l as [|v l IH]; intros items; simpl.
  - now intros [= <-].
  - destruct v; try discriminate.
    destruct (Untyped.strings l) as [rest|]; [|discriminate].
    intros [= <-]. simpl. now rewrite (IH rest eq_refl).
Qed.

Lemma strings_app (l1 l2 : list json) (i1 i2 : list string) :
  Untyped.strings l1 = Some i1 -> Untyped.strings l2 = Some i2 ->
  Untyped.strings (l1 ++ l2) = Some (i1 ++ i2)%list.
Proof.
  intros H1 H2. apply strings_inv in H1, H2. subst.
  rewrite <- map_app. apply strings_map.
Qed.

Lemma truthy_strings (l : list string) :
  truthy (JList (map JStr l)) = negb (is_nil l).
Proof. now destruct l. Qed.

(** On a list of strings the scorers are the scorers of the lists. *)
Lemma language_score_typed (l coach_languages : list string) :
  Untyped.calculate_language_score (JList (map JStr l)) coach_languages
  = Ok (calculate_language_score l coach_languages).
Proof.
  unfold Untyped.calculate_language_score, calculate_language_score.
  rewrite truthy_strings, negb_involutive.
  destruct (is_nil l || is_nil coach_languages); [reflexivity|].
  unfold Untyped.lowered. now rewrite strings_map.
Qed.

Lemma country_score_typed (l coach_countries : list string) :
  Untyped.calculate_country_score (JList (map JStr l)) coach_countries
  = Ok (calculate_country_score l coach_countries).
Proof. apply language_score_typed. Qed.

Lemma goal_score_typed (self : EmbeddingProvider)
    (goals challenges coach_expertise : list string) :
  Untyped.calculate_goal_expertise_score self (JList (map JStr goals))
    (JList (map JStr challenges)) coach_expertise
  = calculate_goal_expertise_score self goals challenges coach_expertise.
Proof.
  unfold Untyped.calculate_goal_expertise_score, calculate_goal_expertise_score.
  rewrite !truthy_strings, !negb_involutive.
  destruct ((is_nil goals && is_nil challenges) || is_nil coach_expertise);
    [reflexivity|].
  unfold Untyped.client_text.
  now rewrite <- map_app, strings_map.
Qed.

Lemma budget_score_typed (v : json) (budget_max coach_rate : R) :
  as_number v = Ok budget_max ->
  Untyped.calculate_budget_score v coach_rate
  = calculate_budget_score budget_max coach_rate.
Proof.
  intros Hv. unfold Untyped.calculate_budget_score, calculate_budget_score.
  rewrite Hv. now destruct (Rle_dec coach_rate 0).
Qed.

(** A dictionary whose entries have the annotated types is scored as
    [calculate_match_score] scores its typed reading. *)
Lemma match_score_typed (self : EmbeddingProvider)
    (client_data : NormalizedClient) (typed_data : ClientData)
    (coach_data : CoachData) :
  Untyped.typed client_data = Some typed_data ->
  Untyped.calculate_match_score self client_data coach_data
  = calculate_match_score self typed_data coach_data.
Proof.
  unfold Untyped.typed.
  destruct (nc_languages client_data) as [| | | | |languages|] eqn:Hl;
    try discriminate.
  destruct (nc_countries client_data) as [| | | | |countries|] eqn:Hc;
    try discriminate.
  destruct (nc_goals client_data) as [| | | | |goals|] eqn:Hg;
    try discriminate.
  destruct (nc_challenges client_data) as [| | | | |challenges|] eqn:Hch;
    try discriminate.
  destruct (as_number (nc_budget_max client_data)) as [budget_max|] eqn:Hb;
    [|discriminate].
  destruct (Untyped.strings languages) as [ls|] eqn:Hls; [|discriminate].
  destruct (Untyped.strings countries) as [cs|] eqn:Hcs; [|discriminate].
  destruct (Untyped.strings goals) as [gs|] eqn:Hgs; [|discriminate].
  destruct (Untyped.strings challenges) as [chs|] eqn:Hchs; [|discriminate].
  intros [= <-].
  apply strings_inv in Hls, Hcs, Hgs, Hchs. subst.
  unfold Untyped.calculate_match_score, calculate_match_score.
  rewrite Hl, Hc, Hg, Hch. cbn [cd_languages cd_countries cd_goals
    cd_challenges cd_budget_max cd_timezone].
  rewrite language_score_typed, country_score_typed, goal_score_typed.
  cbn [bind].
  destruct (calculate_goal_expertise_score self gs chs
              (co_expertise coach_data)) as [g|e]; [|reflexivity].
  cbn [bind]. now rewrite (budget_score_typed _ budget_max).
Qed.

End UntypedFacts.

(* ===================================================================== *)
(** ** Ranking *)
(* ===================================================================== *)

(** [x] ranks at least as high as [y]: a higher match score, or the same
    score and a rating at least as high. *)
Definition outranks (x y : MatchEntry) : Prop :=
  m_match_score y < m_match_score x
  \/ (m_match_score x = m_match_score y /\ m_rating y <= m_rating x).

(** Descending by (match_score, rating). *)
Definition ranked (l : list MatchEntry) : Prop := StronglySorted outranks l.

Lemma key_ltb_false (x y : MatchEntry) :
  key_ltb (sort_key x) (sort_key y) = false <-> outranks x y.
Proof.
  unfold key_ltb, outranks, sort_key. simpl.
  destruct (Rlt_dec (m_match_score x) (m_match_score y)) as [Hlt|Hnlt].
  { split; [discriminate|]. intros [H|[H _]]; lra. }
  destruct (Req_dec_T (m_match_score x) (m_match_score y)) as [Heq|Hne].
  - destruct (Rlt_dec (m_rating x) (m_rating y)) as [Hr|Hr].
    + split; [discriminate|]. intros [H|[_ H]]; lra.
    + split; [|reflexivity]. intros _. right. split; [exact Heq|lra].
  - split; [|reflexivity]. intros _. left. lra.
Qed.

Lemma key_ltb_true (x y : MatchEntry) :
  key_ltb (sort_key x) (sort_key y) = true -> outranks y x.
Proof.
  unfold key_ltb, outranks, sort_key. simpl.
  destruct (Rlt_dec (m_match_score x) (m_match_score y)) as [Hlt|Hnlt].
  { intros _. now left. }
  destruct (Req_dec_T (m_match_score x) (m_match_score y)) as [Heq|Hne];
    [|discriminate].
  destruct (Rlt_dec (m_rating x) (m_rating y)) as [Hr|Hr]; [|discriminate].
  intros _. right. split; [now symmetry|lra].
Qed.

Lemma outranks_trans (x y z : MatchEntry) :
  outranks x y -> outranks y z -> outranks x z.
Proof. unfold outranks. intros [H1|[H1 H1']] [H2|[H2 H2']]; lra. Qed.

Lemma insert_desc_elements (x y : MatchEntry) (l : list MatchEntry) :
  In y (insert_desc x l) -> y = x \/ In y l.
Proof.
  induction l as [|z r IH]; simpl.
  - intros [H|[]]. now left.
  - destruct (key_ltb (sort_key x) (sort_key z)); simpl.
    + intros [H|H]; [right; now left|]. destruct (IH H); auto.
    + intros [H|H]; auto.
Qed.

Lemma insert_desc_ranked (x : MatchEntry) (l : list MatchEntry) :
  ranked l -> ranked (insert_desc x l).
Proof.
  unfold ranked. induction l as [|z r IH]; simpl; intros Hs.
  - constructor; constructor.
  - apply StronglySorted_inv in Hs as [Hr Hz].
    destruct (key_ltb (sort_key x) (sort_key z)) eqn:Hk.
    + constructor; [now apply IH|].
      apply List.Forall_forall. intros y Hy.
      apply insert_desc_elements in Hy as [->|Hy].
      * now apply key_ltb_true.
      * rewrite List.Forall_forall in Hz. now apply Hz.
    + apply key_ltb_false in Hk.
      constructor; [now constructor|].
      constructor; [exact Hk|].
      rewrite List.Forall_forall in Hz |- *. intros y Hy.
      apply outranks_trans with z; [exact Hk|now apply Hz].
Qed.

Lemma sort_desc_ranked (l : list MatchEntry) : ranked (sort_desc l).
Proof.
  induction l as [|x r IH]; simpl; [constructor|].
  now apply insert_desc_ranked.
Qed.

Lemma insert_desc_perm (x : MatchEntry) (l : list MatchEntry) :
  Permutation (x :: l) (insert_desc x l).
Proof.
  induction l as [|z r IH]; simpl; [reflexivity|].
  destruct (key_ltb (sort_key x) (sort_key z)); [|reflexivity].
  rewrite perm_swap. now constructor.
Qed.

(** Sorting keeps every scored entry. *)
Lemma sort_desc_perm (l : list MatchEntry) : Permutation l (sort_desc l).
Proof.
  induction l as [|x r IH]; simpl; [constructor|].
  rewrite <- insert_desc_perm. now constructor.
Qed.

Lemma firstn_subset {A : Type} (n : nat) (l : list A) (y : A) :
  In y (firstn n l) -> In y l.
Proof.
  revert n. induction l as [|x r IH]; intros n.
  - now rewrite firstn_nil.
  - destruct n as [|n]; simpl; [tauto|]. intros [H|H]; [now left|].
    right. now apply (IH n).
Qed.

Lemma ranked_firstn (n : nat) (l : list MatchEntry) :
  ranked l -> ranked (firstn n l).
Proof.
  unfold ranked. revert n. induction l as [|x r IH]; intros n Hs.
  - rewrite firstn_nil. constructor.
  - destruct n as [|n]; simpl; [constructor|].
    apply StronglySorted_inv in Hs as [Hr Hx].
    constructor; [now apply IH|].
    rewrite List.Forall_forall in Hx |- *. intros y Hy.
    apply Hx. now apply (firstn_subset n r y).
Qed.

Lemma py_take_nonneg {A : Type} (limit : Z) (l : list A) :
  (0 <= limit)%Z -> py_take limit l = firstn (Z.to_nat limit) l.
Proof.
  intros H. unfold py_take.
  destruct (Z.leb_spec 0 limit); [reflexivity|lia].
Qed.

Lemma py_take_length {A : Type} (limit : Z) (l : list A) :
  (0 <= limit)%Z -> (Z.of_nat (length (py_take limit l)) <= limit)%Z.
Proof.
  intros H. rewrite py_take_nonneg by exact H.
  pose proof (firstn_le_length (Z.to_nat limit) l). 
  rewrite length_firstn. lia.
Qed.

(** Everything the slice leaves out ranks no higher than what it keeps. *)
Lemma ranked_split (n : nat) (l : list MatchEntry) (x y : MatchEntry) :
  ranked l -> In x (firstn n l) -> In y (skipn n l) -> outranks x y.
Proof.
  unfold ranked. revert n. induction l as [|z r IH]; intros n Hs.
  - rewrite firstn_nil. contradiction.
  - apply StronglySorted_inv in Hs as [Hr Hz].
    destruct n as [|n]; simpl; [contradiction|].
    intros [<-|Hx] Hy.
    + rewrite List.Forall_forall in Hz. apply Hz.
      rewrite <- (firstn_skipn n r). apply in_or_app. now right.
    + now apply (IH n).
Qed.

Lemma py_take_ranked (limit : Z) (l : list MatchEntry) :
  (0 <= limit)%Z ->
  py_take limit (sort_desc l) = firstn (Z.to_nat limit) (sort_desc l)
  /\ ranked (py_take limit (sort_desc l))
  /\ length (py_take limit (sort_desc l)) = Nat.min (Z.to_nat limit) (length l)
  /\ Permutation l (py_take limit (sort_desc l)
                    ++ skipn (Z.to_nat limit) (sort_desc l))
  /\ forall x y, In x (py_take limit (sort_desc l)) ->
                 In y (skipn (Z.to_nat limit) (sort_desc l)) -> outranks x y.
Proof.
  intros Hl. rewrite py_take_nonneg by exact Hl.
  split; [reflexivity|]. split; [apply ranked_firstn, sort_desc_ranked|].
  split; [|split].
  - rewrite length_firstn.
    now rewrite <- (Permutation_length (sort_desc_perm l)).
  - rewrite firstn_skipn. apply sort_desc_perm.
  - intros x y. apply ranked_split, sort_desc_ranked.
Qed.

(** The scoring pass: one entry for every coach that did not time out, in
    the order of the coaches, with the rounded score of the pair. *)
Definition scored_as (self : MatchingService) (client_data : NormalizedClient)
    (coach : CoachProfile) (m : MatchEntry) : Prop :=
  exists score,
    Untyped.calculate_match_score (embeddings self) client_data
      (normalize_coach_data coach) = Ok score
    /\ m = match_entry coach (py_round2 score) (py_round2 score).

Lemma score_coaches_entries (self : MatchingService)
    (client_data : NormalizedClient) (coaches : list CoachProfile)
    (scored : list MatchEntry) :
  score_coaches self client_data coaches = Ok scored ->
  Forall2 (scored_as self client_data)
    (List.filter (fun coach => negb (scoring_timed_out self coach)) coaches)
    scored.
Proof.
  revert scored. induction coaches as [|coach rest IH]; intros scored; simpl.
  - intros [= <-]. constructor.
  - destruct (scoring_timed_out self coach); simpl; [apply IH|].
    destruct (Untyped.calculate_match_score _ _ _) as [score|e] eqn:Hs;
      simpl; [|discriminate].
    destruct (score_coaches self client_data rest) as [ms|e]; simpl;
      [|discriminate].
    intros [= <-]. constructor; [|now apply IH].
    now exists score.
Qed.

(** The ranking path, in full. *)
Lemma rank_matches_result (self : MatchingService) (client : ClientProfile)
    (limit : Z) (client_data : NormalizedClient)
    (coaches : list CoachProfile) (scored : list MatchEntry) :
  normalize_client_data client = Ok client_data ->
  get_active_coaches self 100 = Ok coaches ->
  score_coaches self client_data coaches = Ok scored ->
  rank_matches self client limit = Ok (py_take limit (sort_desc scored)).
Proof.
  intros Hn Hq Hs. unfold rank_matches. rewrite Hn. cbn [bind].
  rewrite Hq. cbn [bind].
  destruct coaches as [|coach rest]; cbn [is_nil].
  - simpl in Hs. injection Hs as <-. unfold py_take. cbn [sort_desc fold_right].
    destruct (0 <=? limit)%Z; now rewrite firstn_nil.
  - now rewrite Hs.
Qed.

Lemma rank_matches_raises (self : MatchingService) (client : ClientProfile)
    (limit : Z) (e : exn) :
  rank_matches self client limit = Raise e
  <-> normalize_client_data client = Raise e
      \/ (exists client_data, normalize_client_data client = Ok client_data
            /\ (get_active_coaches self 100 = Raise e
                \/ exists coaches,
                     get_active_coaches self 100 = Ok coaches
                     /\ score_coaches self client_data coaches = Raise e)).
Proof.
  unfold rank_matches.
  destruct (normalize_client_data client) as [cd|e1]; cbn [bind].
  - destruct (get_active_coaches self 100) as [cs|e2]; cbn [bind].
    + destruct cs as [|coach rest]; cbn [is_nil].
      * split; [discriminate|].
        intros [H|(cd' & _ & [H|(cs & [= <-] & H)])]; discriminate.
      * destruct (score_coaches self cd (coach :: rest)) as [ms|e3] eqn:Hs;
          cbn [bind].
        -- split; [discriminate|].
           intros [H|(cd' & [= <-] & [H|(cs & [= <-] & H)])];
             try discriminate. congruence.
        -- split.
           ++ intros [= <-]. right. exists cd. split; [reflexivity|].
              right. now exists (coach :: rest).
           ++ intros [H|(cd' & [= <-] & [H|(cs & [= <-] & H)])];
                try discriminate. congruence.
    + split.
      * intros [= <-]. right. exists cd. split; [reflexivity|now left].
      * intros [H|(cd' & _ & [H|(cs & H & _)])]; try discriminate.
        now injection H as <-.
  - split.
    + intros [= <-]. now left.
    + intros [H|(cd' & H & _)]; [now injection H as <-|discriminate].
Qed.

Lemma find_matches_cases (self : MatchingService) (client : ClientProfile)
    (limit : Z) :
  (exists ms, rank_matches self client limit = Ok ms
              /\ find_matches self client limit = Ok ms)
  \/ (exists e, rank_matches self client limit = Raise e
                /\ find_matches self client limit
                   = get_fallback_matches self limit).
Proof.
  unfold find_matches.
  destruct (rank_matches self client limit) as [ms|e]; simpl.
  - left. now exists ms.
  - right. now exists e.
Qed.

Lemma fallback_matches_cases (self : MatchingService) (limit : Z) :
  (exists coaches, get_active_coaches self limit = Ok coaches
     /\ get_fallback_matches self limit
        = Ok (map (fun coach => match_entry coach 0 0) coaches))
  \/ (exists e, get_active_coaches self limit = Raise e
        /\ get_fallback_matches self limit = Raise e).
Proof.
  unfold get_fallback_matches.
  destruct (get_active_coaches self limit) as [cs|e]; simpl.
  - left. now exists cs.
  - right. now exists e.
Qed.

(* ===================================================================== *)
(** ** The repository's query *)
(* ===================================================================== *)

(** The rating an entry shows for a coach. *)
Definition shown_rating (coach : CoachProfile) : R := float_or (rating coach) 0.

(** The order the database returns: nobody comes before a coach it ranks
    strictly below. *)
Definition database_order (l : list CoachProfile) : Prop :=
  StronglySorted (fun a b => rating_above (rating b) (rating a) = false) l.

Lemma rating_above_trans (a b c : option R) :
  rating_above b a = false -> rating_above c b = false ->
  rating_above c a = false.
Proof.
  unfold rating_above.
  destruct a as [x|], b as [y|], c as [z|]; try reflexivity; try discriminate.
  destruct (Rlt_dec x y), (Rlt_dec y z), (Rlt_dec x z);
    try reflexivity; try discriminate; lra.
Qed.

Lemma rating_above_asym (a b : option R) :
  rating_above a b = true -> rating_above b a = false.
Proof.
  unfold rating_above.
  destruct a as [x|], b as [y|]; try reflexivity; try discriminate.
  destruct (Rlt_dec y x), (Rlt_dec x y); try reflexivity; try discriminate; lra.
Qed.

Lemma insert_by_rating_elements (x y : CoachProfile) (l : list CoachProfile) :
  In y (insert_by_rating x l) <-> y = x \/ In y l.
Proof.
  induction l as [|z r IH]; simpl.
  - split; [intros [H|[]]; now left|intros [H|[]]; now left].
  - destruct (rating_above (rating z) (rating x)); simpl; rewrite ?IH;
      intuition congruence.
Qed.

Lemma insert_by_rating_order (x : CoachProfile) (l : list CoachProfile) :
  database_order l -> database_order (insert_by_rating x l).
Proof.
  unfold database_order. induction l as [|z r IH]; simpl; intros Hs.
  - constructor; constructor.
  - apply StronglySorted_inv in Hs as [Hr Hz].
    destruct (rating_above (rating z) (rating x)) eqn:Hk.
    + constructor; [now apply IH|].
      apply List.Forall_forall. intros y Hy.
      apply insert_by_rating_elements in Hy as [->|Hy].
      * now apply rating_above_asym.
      * rewrite List.Forall_forall in Hz. now apply Hz.
    + constructor; [now constructor|].
      constructor; [exact Hk|].
      rewrite List.Forall_forall in Hz |- *. intros y Hy.
      apply rating_above_trans with (rating z); [exact Hk|now apply Hz].
Qed.

Lemma order_by_rating_order (l : list CoachProfile) :
  database_order (order_by_rating l).
Proof.
  induction l as [|x r IH]; simpl; [constructor|].
  now apply insert_by_rating_order.
Qed.

Lemma order_by_rating_elements (l : list CoachProfile) (y : CoachProfile) :
  In y (order_by_rating l) <-> In y l.
Proof.
  induction l as [|x r IH]; simpl; [tauto|].
  rewrite insert_by_rating_elements, IH. intuition congruence.
Qed.

Lemma database_order_firstn (n : nat) (l : list CoachProfile) :
  database_order l -> database_order (firstn n l).
Proof.
  unfold database_order. revert n. induction l as [|x r IH]; intros n Hs.
  - rewrite firstn_nil. constructor.
  - destruct n as [|n]; simpl; [constructor|].
    apply StronglySorted_inv in Hs as [Hr Hx].
    constructor; [now apply IH|].
    rewrite List.Forall_forall in Hx |- *. intros y Hy.
    apply Hx. now apply (firstn_subset n r y).
Qed.

(** What the query returns: at most [limit] coaches, each verified and
    of an active user, in the database's order. *)
Lemma query_active_coaches_result (rows : list CoachRow) (limit : Z)
    (coaches : list CoachProfile) :
  query_active_coaches rows 0 limit = Ok coaches ->
  (Z.of_nat (length coaches) <= limit)%Z
  /\ database_order coaches
  /\ forall coach, In coach coaches ->
       exists row, In row rows /\ row_coach row = coach
                   /\ row_selected row = true.
Proof.
  unfold query_active_coaches.
  destruct (Z.ltb_spec limit 0) as [Hneg|Hpos]; [discriminate|].
  cbn [orb Z.ltb Z.compare]. intros [= <-].
  change (Z.to_nat 0) with 0%nat. rewrite drop_0.
  split; [|split].
  - rewrite length_firstn. lia.
  - apply database_order_firstn, order_by_rating_order.
  - intros coach Hin. apply firstn_subset in Hin.
    apply (proj1 (order_by_rating_elements _ _)) in Hin.
    apply List.in_map_iff in Hin as (row & <- & Hrow).
    exists row. apply list_elem_of_In, list_elem_of_filter in Hrow as [Hsel Hrow].
    split; [now apply list_elem_of_In|]. now split.
Qed.

(** Coaches that all have a rating come out highest rating first. *)
Lemma rated_database_order (coaches : list CoachProfile) :
  database_order coaches ->
  Forall (fun coach => rating coach <> None) coaches ->
  StronglySorted (fun a b => shown_rating b <= shown_rating a) coaches.
Proof.
  unfold database_order. induction 1 as [|c r Hr IH Hc]; intros Hall.
  - constructor.
  - apply Forall_cons in Hall as [Hrated Hall].
    constructor; [now apply IH|].
    rewrite List.Forall_forall in Hc |- *. intros y Hy.
    specialize (Hc y Hy).
    rewrite Forall_forall in Hall.
    assert (Hy' : rating y <> None).
    { apply Hall. now apply list_elem_of_In. }
    unfold shown_rating, float_or, rating_above in *.
    destruct (rating c) as [x|]; [|contradiction].
    destruct (rating y) as [z|]; [|contradiction].
    destruct (Rlt_dec x z); [discriminate|].
    destruct (Req_dec_T x 0), (Req_dec_T z 0); lra.
Qed.

Lemma fallback_entries_ranked (coaches : list CoachProfile) :
  StronglySorted (fun a b => shown_rating b <= shown_rating a) coaches ->
  ranked (map (fun coach => match_entry coach 0 0) coaches).
Proof.
  unfold ranked. induction 1 as [|c r Hr IH Hc]; simpl; constructor.
  - exact IH.
  - rewrite List.Forall_forall in Hc |- *. intros y Hy.
    apply List.in_map_iff in Hy as (c' & <- & Hc').
    right. simpl. split; [reflexivity|]. now apply Hc.
Qed.

(** X8. For every service, client and limit the request schema admits
    (1..50):
    - when the scoring pass completes, [find_matches] returns the first
      [limit] entries of the descending sort by (match_score, rating) of
      the scored candidates, one for each coach of the candidates query
      whose scoring did not time out, with the rounded score of the pair;
      so the result is in descending order, has [min limit n] entries for
      [n] scored candidates, and every candidate left out ranks no higher
      than every one returned;
    - when the ranking path raises, [find_matches] returns the answer of
      the fallback query as it comes, with scores 0, unsorted: at most
      [limit] coaches in the database's order, which is descending in the
      ratings shown when every one of them has a rating;
    - [find_matches] raises only what the fallback query raises, and with
      no active coach it returns the empty list. *)
Theorem find_matches_ranked_and_truncated (self : MatchingService)
    (client : ClientProfile) (limit : Z) :
  (1 <= limit <= 50)%Z ->
  (forall client_data coaches scored,
     normalize_client_data client = Ok client_data ->
     get_active_coaches self 100 = Ok coaches ->
     score_coaches self client_data coaches = Ok scored ->
     let ms := firstn (Z.to_nat limit) (sort_desc scored) in
     let left_out := skipn (Z.to_nat limit) (sort_desc scored) in
     find_matches self client limit = Ok ms
     /\ Forall2 (scored_as self client_data)
          (List.filter (fun coach => negb (scoring_timed_out self coach))
             coaches) scored
     /\ Permutation scored (ms ++ left_out)
     /\ ranked ms
     /\ length ms = Nat.min (Z.to_nat limit) (length scored)
     /\ forall x y, In x ms -> In y left_out -> outranks x y)
  /\ (forall e coaches,
        rank_matches self client limit = Raise e ->
        get_active_coaches self limit = Ok coaches ->
        find_matches self client limit
        = Ok (map (fun coach => match_entry coach 0 0) coaches)
        /\ forall rows, get_active_coaches self limit
                        = query_active_coaches rows 0 limit ->
             (Z.of_nat (length coaches) <= limit)%Z
             /\ database_order coaches
             /\ (Forall (fun coach => rating coach <> None) coaches ->
                 ranked (map (fun coach => match_entry coach 0 0) coaches)))
  /\ (forall e, find_matches self client limit = Raise e ->
        get_active_coaches self limit = Raise e)
  /\ ((forall n, get_active_coaches self n = Ok []) ->
        find_matches self client limit = Ok []).
Proof.
  intros Hlimit. split; [|split; [|split]].
  - intros client_data coaches scored Hn Hq Hs. cbv zeta.
    destruct (py_take_ranked limit scored ltac:(lia))
      as (Htake & Hranked & Hlen & Hperm & Hout).
    rewrite Htake in *.
    split; [|split; [|split; [|split; [|split]]]]; try assumption.
    + unfold find_matches.
      rewrite (rank_matches_result self client limit _ _ _ Hn Hq Hs).
      cbn [try_except]. now rewrite Htake.
    + now apply score_coaches_entries.
  - intros e coaches Hrank Hq. split.
    + unfold find_matches. rewrite Hrank. cbn [try_except].
      unfold get_fallback_matches. now rewrite Hq.
    + intros rows Hrows. rewrite Hrows in Hq.
      destruct (query_active_coaches_result rows limit coaches Hq)
        as (Hlen & Horder & _).
      split; [exact Hlen|]. split; [exact Horder|].
      intros Hrated. apply fallback_entries_ranked.
      now apply rated_database_order.
  - intros e He.
    destruct (find_matches_cases self client limit)
      as [(ms' & _ & Hfind)|(e' & _ & Hfind)];
      rewrite Hfind in He; [discriminate|].
    destruct (fallback_matches_cases self limit)
      as [(cs & _ & Hfb)|(e'' & Hq & Hfb)];
      rewrite Hfb in He; [discriminate|].
    now injection He as <-.
  - intros Hnone.
    destruct (find_matches_cases self client limit)
      as [(ms' & Hrank & Hfind)|(e & _ & Hfind)]; rewrite Hfind.
    + f_equal. revert Hrank. unfold rank_matches.
      destruct (normalize_client_data client) as [cd|e]; simpl; [|discriminate].
      rewrite Hnone. simpl. now intros [= <-].
    + unfold get_fallback_matches. now rewrite Hnone.
Qed.

Local Close Scope R_scope.

(* ===================================================================== *)
(** ** Serialisation and hashing: sanity checks *)
(* ===================================================================== *)

Module DumpsExamples.
Import JsonDumps.

Example dumps_sorts_keys :
  dumps (JDict [("b", JList [JInt 1; JStr "x"; JBool true; JNull;
                             JDict [("z", JInt 1); ("a", JList [])]]);
                ("a", JDict [])])
  = "{" ++ quote ++ "a" ++ quote ++ ": {}, " ++ quote ++ "b" ++ quote
    ++ ": [1, " ++ quote ++ "x" ++ quote ++ ", true, null, {" ++ quote ++ "a"
    ++ quote ++ ": [], " ++ quote ++ "z" ++ quote ++ ": 1}]}".
Proof. vm_compute. reflexivity. Qed.

Example dumps_escapes :
  dumps (JStr (String (ascii_of_nat 34) (String (ascii_of_nat 92)
                 (String (ascii_of_nat 200) (String (ascii_of_nat 10) "a")))))
  = quote ++ "\" ++ quote ++ "\\\u00c8\na" ++ quote.
Proof. vm_compute. reflexivity. Qed.

Example dumps_negative : dumps (JList [JInt (-12); JInt 0]) = "[-12, 0]".
Proof. vm_compute. reflexivity. Qed.

(** The test suite of RFC 1321. *)
Example md5_empty : MD5.hexdigest [] = "d41d8cd98f00b204e9800998ecf8427e".
Proof. vm_compute. reflexivity. Qed.

Example md5_abc :
  MD5.hexdigest (utf8_encode "abc") = "900150983cd24fb0d6963f7d28e17f72".
Proof. vm_compute. reflexivity. Qed.

Example md5_message_digest :
  MD5.hexdigest (utf8_encode "message digest")
  = "f96b697d7cb7938d525a2f31aaf161d0".
Proof. vm_compute. reflexivity. Qed.

Example md5_two_blocks :
  MD5.hexdigest
    (utf8_encode
       "12345678901234567890123456789012345678901234567890123456789012345678901234567890")
  = "57edf4a22be3c955ac49da2e2107b67a".
Proof. vm_compute. reflexivity. Qed.

Example uuid_str_small :
  uuid_str 255 = "00000000-0000-0000-0000-0000000000ff".
Proof. vm_compute. reflexivity. Qed.

Example uuid_str_groups :
  uuid_str 24197857203266734864793317670504947440
  = "12345678-9abc-def0-1234-56789abcdef0".
Proof. vm_compute. reflexivity. Qed.

End DumpsExamples.

(* ===================================================================== *)
(** ** The order of dictionary keys *)
(* ===================================================================== *)

Module KeyOrder.

Definition lt (a b : string) : Prop := String.ltb a b = true.

Lemma ltb_compare (a b : string) : String.ltb a b = true <-> String.compare a b = Lt.
Proof. unfold String.ltb. destruct (String.compare a b); split; congruence. Qed.

Lemma ascii_compare_eq (x y : ascii) : Ascii.compare x y = Eq -> x = y.
Proof.
  unfold Ascii.compare. intros H. apply N.compare_eq in H.
  rewrite <- (ascii_N_embedding x), <- (ascii_N_embedding y). now f_equal.
Qed.

Lemma compare_trans (a b c : string) :
  String.compare a b = Lt -> String.compare b c = Lt -> String.compare a c = Lt.
Proof.
  revert b c. induction a as [|x a IH]; intros [|y b] [|z c]; simpl;
    try congruence.
  unfold Ascii.compare.
  destruct (N.compare_spec (N_of_ascii x) (N_of_ascii y)) as [Hxy|Hxy|Hxy];
    destruct (N.compare_spec (N_of_ascii y) (N_of_ascii z)) as [Hyz|Hyz|Hyz];
    destruct (N.compare_spec (N_of_ascii x) (N_of_ascii z)) as [Hxz|Hxz|Hxz];
    try congruence; try lia.
  apply IH.
Qed.

Lemma lt_trans (a b c : string) : lt a b -> lt b c -> lt a c.
Proof. unfold lt. rewrite !ltb_compare. apply compare_trans. Qed.

Lemma lt_asym (a b : string) : lt a b -> String.ltb b a = false.
Proof.
  unfold lt. rewrite ltb_compare. intros H. unfold String.ltb.
  rewrite String.compare_antisym, H. reflexivity.
Qed.

Lemma lt_total (a b : string) :
  String.ltb a b = false -> String.ltb b a = false -> a = b.
Proof.
  unfold String.ltb. rewrite (String.compare_antisym b a).
  destruct (String.compare a b) eqn:H; simpl; try discriminate.
  intros _ _. now apply String.compare_eq_iff.
Qed.

(** [b <= a < c] gives [b < c]. *)
Lemma le_lt_trans (a b c : string) :
  String.ltb a b = false -> lt a c -> lt b c.
Proof.
  intros Hab Hac. destruct (String.ltb b a) eqn:Hba.
  - now apply lt_trans with a.
  - now rewrite <- (lt_total a b Hab Hba).
Qed.

End KeyOrder.

(* ===================================================================== *)
(** ** Sorting the items of a dict *)
(* ===================================================================== *)

Module SortFacts.
Import JsonDumps KeyOrder.

Lemma insert_insert {A : Type} (x y : string * A) (l : list (string * A)) :
  fst x <> fst y ->
  insert_by_key x (insert_by_key y l) = insert_by_key y (insert_by_key x l).
Proof.
  intros Hne. induction l as [|z r IH]; simpl.
  - destruct (String.ltb (fst y) (fst x)) eqn:Hyx;
      destruct (String.ltb (fst x) (fst y)) eqn:Hxy; try reflexivity.
    + apply lt_asym in Hyx. congruence.
    + exfalso. apply Hne. now apply lt_total.
  - destruct (String.ltb (fst z) (fst y)) eqn:Hzy;
      destruct (String.ltb (fst z) (fst x)) eqn:Hzx; simpl;
      rewrite ?Hzy, ?Hzx.
    + now rewrite IH.
    + (* x <= z < y *)
      now rewrite (le_lt_trans _ _ _ Hzx Hzy).
    + (* y <= z < x *)
      now rewrite (le_lt_trans _ _ _ Hzy Hzx).
    + destruct (String.ltb (fst y) (fst x)) eqn:Hyx;
        destruct (String.ltb (fst x) (fst y)) eqn:Hxy; simpl;
        rewrite ?Hzy, ?Hzx; try reflexivity.
      * apply lt_asym in Hyx. congruence.
      * exfalso. apply Hne. now apply lt_total.
Qed.

Lemma sort_by_key_perm {A : Type} (l1 l2 : list (string * A)) :
  Permutation l1 l2 -> List.NoDup (map fst l1) ->
  sort_by_key l1 = sort_by_key l2.
Proof.
  induction 1 as [|x l1 l2 Hperm IH|x y l|l1 l2 l3 H12 IH12 H23 IH23];
    intros Hnodup.
  - reflexivity.
  - simpl. f_equal. apply IH. now inversion Hnodup.
  - simpl. apply insert_insert.
    simpl in Hnodup. inversion Hnodup as [|? ? Hnotin _]; subst.
    intros Heq. apply Hnotin. left. now symmetry.
  - rewrite IH12 by exact Hnodup. apply IH23.
    eapply Permutation_NoDup; [|exact Hnodup].
    now apply Permutation_map.
Qed.

(** The text of a dict does not depend on the order of its items. *)
Lemma dumps_dict_perm (d1 d2 : pydict) :
  Permutation d1 d2 -> List.NoDup (map fst d1) ->
  dumps (JDict d1) = dumps (JDict d2).
Proof.
  intros Hperm Hnodup. simpl. do 4 f_equal.
  apply sort_by_key_perm.
  - now apply Permutation_map.
  - now rewrite map_map.
Qed.

(** Nor on which of two values with one text stands under a key. *)
Lemma dumps_dict_value (before after : pydict) (k : string) (v v' : json) :
  dumps v = dumps v' ->
  dumps (JDict (before ++ (k, v) :: after))
  = dumps (JDict (before ++ (k, v') :: after)).
Proof.
  intros Hv. simpl. do 5 f_equal.
  rewrite !map_app. simpl. now rewrite Hv.
Qed.

End SortFacts.

(* ===================================================================== *)
(** ** The digest takes finitely many values *)
(* ===================================================================== *)

Module DigestFacts.

Local Open Scope Z_scope.

(** More arguments than values: two arguments share a value. *)
Lemma bounded_search (m : nat) (f : nat -> Z) (v : Z) :
  (exists i, (i <= m)%nat /\ f i = v) \/ (forall i, (i <= m)%nat -> f i <> v).
Proof.
  induction m as [|m IH].
  - destruct (Z.eq_dec (f 0%nat) v) as [Heq|Hne].
    + left. exists 0%nat. split; [lia|exact Heq].
    + right. intros i Hi. now replace i with 0%nat by lia.
  - destruct IH as [(i & Hi & Heq)|Hnone].
    + left. exists i. split; [lia|exact Heq].
    + destruct (Z.eq_dec (f (S m)) v) as [Heq|Hne].
      * left. exists (S m). split; [lia|exact Heq].
      * right. intros i Hi.
        destruct (Nat.eq_dec i (S m)) as [->|Hlt]; [exact Hne|].
        apply Hnone. lia.
Qed.

Lemma pigeonhole (n : nat) (f : nat -> Z) :
  (forall i, (i <= n)%nat -> 0 <= f i < Z.of_nat n) ->
  exists i j, (i < j <= n)%nat /\ f i = f j.
Proof.
  revert f. induction n as [|n IH]; intros f Hrange.
  - specialize (Hrange 0%nat (Nat.le_refl 0)). lia.
  - destruct (bounded_search n f (f (S n))) as [(i & Hi & Heq)|Hfresh].
    + exists i, (S n). split; [lia|exact Heq].
    + set (v := f (S n)) in *.
      set (g := fun i => if f i <? v then f i else f i - 1).
      assert (Hv : 0 <= v < Z.of_nat (S n)) by (apply Hrange; lia).
      destruct (IH g) as (i & j & Hij & Hg).
      * intros i Hi. unfold g.
        pose proof (Hrange i ltac:(lia)) as Hfi.
        pose proof (Hfresh i Hi) as Hne.
        destruct (Z.ltb_spec (f i) v); lia.
      * exists i, j. split; [lia|].
        unfold g in Hg.
        pose proof (Hfresh i ltac:(lia)) as Hi.
        pose proof (Hfresh j ltac:(lia)) as Hj.
        destruct (Z.ltb_spec (f i) v); destruct (Z.ltb_spec (f j) v); lia.
Qed.

Definition word (x : Z) : Prop := 0 <= x < 2 ^ 32.

Definition words (st : MD5.state) : Prop :=
  let '(a, b, c, d) := st in word a /\ word b /\ word c /\ word d.

Lemma add32_word (x y : Z) : word (MD5.add32 x y).
Proof. unfold word, MD5.add32, MD5.w32. apply Z.mod_pos_bound. lia. Qed.

Lemma process_block_words (st : MD5.state) (M : list Z) :
  words (MD5.process_block st M).
Proof.
  unfold MD5.process_block. destruct st as [[[a0 b0] c0] d0].
  destruct (fold_left (MD5.step M) (seq 0 64) (a0, b0, c0, d0))
    as [[[a b] c] d].
  simpl. repeat split; apply add32_word.
Qed.

Lemma fold_blocks_words (bs : list (list Z)) (st : MD5.state) :
  words st -> words (fold_left MD5.process_block bs st).
Proof.
  revert st. induction bs as [|b bs IH]; intros st Hst; simpl; [exact Hst|].
  apply IH, process_block_words.
Qed.

Lemma digest_words (msg : list Z) : words (MD5.digest msg).
Proof.
  unfold MD5.digest. apply fold_blocks_words.
  unfold words, MD5.init, word. lia.
Qed.

(** The digest as one number below [2^128]. *)
Definition digest_number (st : MD5.state) : Z :=
  let '(a, b, c, d) := st in a + 2 ^ 32 * (b + 2 ^ 32 * (c + 2 ^ 32 * d)).

Lemma digest_number_range (st : MD5.state) :
  words st -> 0 <= digest_number st < 2 ^ 128.
Proof.
  destruct st as [[[a b] c] d]. unfold words, word, digest_number.
  intros (Ha & Hb & Hc & Hd). lia.
Qed.

Lemma digest_number_inj (s t : MD5.state) :
  words s -> words t -> digest_number s = digest_number t -> s = t.
Proof.
  destruct s as [[[a b] c] d], t as [[[a' b'] c'] d'].
  unfold words, word, digest_number.
  intros (Ha & Hb & Hc & Hd) (Ha' & Hb' & Hc' & Hd') Heq.
  assert (a = a') by lia. assert (b = b') by lia.
  assert (c = c') by lia. assert (d = d') by lia.
  congruence.
Qed.

(** Among [2^128 + 1] messages two have the same digest. *)
Lemma digest_collision (family : nat -> list Z) :
  exists i j, (i < j <= Z.to_nat (2 ^ 128))%nat
              /\ MD5.hexdigest (family i) = MD5.hexdigest (family j).
Proof.
  set (n := Z.to_nat (2 ^ 128)).
  assert (Hn : Z.of_nat n = 2 ^ 128) by (unfold n; apply Z2Nat.id; lia).
  destruct (pigeonhole n (fun i => digest_number (MD5.digest (family i))))
    as (i & j & Hij & Heq).
  { intros i _. rewrite Hn. apply digest_number_range, digest_words. }
  exists i, j. split; [exact Hij|].
  apply digest_number_inj in Heq; try apply digest_words.
  unfold MD5.hexdigest. now rewrite Heq.
Qed.

End DigestFacts.

(* ===================================================================== *)
(** ** Strings: append, length, prefix *)
(* ===================================================================== *)

Section StringFacts.

Implicit Types s t u : string.

Lemma append_nil t : EmptyString ++ t = t.
Proof. reflexivity. Qed.

Lemma append_cons (c : ascii) s t : String c s ++ t = String c (s ++ t).
Proof. reflexivity. Qed.

Lemma append_assoc s t u : (s ++ t) ++ u = s ++ (t ++ u).
Proof.
  induction s as [|c s IH]; [reflexivity|].
  rewrite !append_cons. now f_equal.
Qed.

Lemma append_length s t :
  String.length (s ++ t) = (String.length s + String.length t)%nat.
Proof.
  induction s as [|c s IH]; [reflexivity|].
  rewrite append_cons. simpl. now f_equal.
Qed.

(** Two concatenations with first parts of one length agree part by part. *)
Lemma append_inj s s' t t' :
  String.length s = String.length s' -> s ++ t = s' ++ t' -> s = s' /\ t = t'.
Proof.
  revert s'. induction s as [|c s IH]; intros [|c' s'] Hlen Heq;
    try discriminate; rewrite ?append_cons, ?append_nil in Heq.
  - now split.
  - injection Heq as -> Heq. injection Hlen as Hlen.
    destruct (IH s' Hlen Heq) as [-> ->]. now split.
Qed.

Lemma prefix_append s t : String.prefix s (s ++ t) = true.
Proof.
  induction s as [|c s IH]; [now destruct t|].
  rewrite append_cons. simpl. now destruct (ascii_dec c c).
Qed.

(** A prefix test splits a string. *)
Lemma prefix_split s k :
  String.prefix s k = true -> exists t, k = s ++ t.
Proof.
  revert k. induction s as [|c s IH]; intros k.
  - intros _. now exists k.
  - destruct k as [|c' k]; simpl; [discriminate|].
    destruct (ascii_dec c c') as [<-|]; [|discriminate].
    intros H. destruct (IH k H) as [t ->]. exists t.
    now rewrite append_cons.
Qed.

Lemma prefix_nonempty s : s <> EmptyString -> String.prefix s EmptyString = false.
Proof. now destruct s. Qed.

End StringFacts.

(* ===================================================================== *)
(** ** Hexadecimal digits and the text of a UUID *)
(* ===================================================================== *)

Module HexFacts.
Import JsonDumps.

(** The value of a hexadecimal digit. *)
Definition hex_value (c : ascii) : Z :=
  let n := Z.of_nat (nat_of_ascii c) in
  if (n <? 58)%Z then (n - 48)%Z else (n - 87)%Z.

Lemma small_cases (n : Z) :
  (0 <= n < 16)%Z ->
  n = 0%Z \/ n = 1%Z \/ n = 2%Z \/ n = 3%Z \/ n = 4%Z \/ n = 5%Z \/ n = 6%Z
  \/ n = 7%Z \/ n = 8%Z \/ n = 9%Z \/ n = 10%Z \/ n = 11%Z \/ n = 12%Z
  \/ n = 13%Z \/ n = 14%Z \/ n = 15%Z.
Proof. lia. Qed.

Ltac each_digit H :=
  apply small_cases in H;
  repeat (destruct H as [->|H]; [reflexivity|]); subst; reflexivity.

Lemma hex_value_digit (n : Z) : (0 <= n < 16)%Z -> hex_value (hex_digit n) = n.
Proof. intros H. each_digit H. Qed.

(** A character that stands for itself in a glob pattern. *)
Definition plain_char (c : ascii) : bool :=
  negb (Ascii.eqb c "*" || Ascii.eqb c "?" || Ascii.eqb c "[" || Ascii.eqb c "\").

Fixpoint plain (s : string) : bool :=
  match s with
  | EmptyString => true
  | String c r => plain_char c && plain r
  end.

Lemma plain_append (s t : string) : plain (s ++ t) = plain s && plain t.
Proof.
  induction s as [|c s IH]; [reflexivity|].
  rewrite append_cons. simpl. now rewrite IH, andb_assoc.
Qed.

Lemma hex_digit_plain (n : Z) : (0 <= n < 16)%Z -> plain_char (hex_digit n) = true.
Proof. intros H. each_digit H. Qed.

Lemma mod16_range (n : Z) : (0 <= n mod 16 < 16)%Z.
Proof. apply Z.mod_pos_bound. lia. Qed.

Lemma hex_digits_length (k : nat) (n : Z) : String.length (hex_digits k n) = k.
Proof.
  revert n. induction k as [|k IH]; intros n; simpl; [reflexivity|].
  rewrite append_length, IH. simpl. lia.
Qed.

Lemma hex_digits_plain (k : nat) (n : Z) : plain (hex_digits k n) = true.
Proof.
  revert n. induction k as [|k IH]; intros n; simpl; [reflexivity|].
  rewrite plain_append, IH. simpl.
  now rewrite hex_digit_plain by apply mod16_range.
Qed.

(** The digits determine the number modulo [16^k]. *)
Lemma hex_digits_inj (k : nat) (n m : Z) :
  hex_digits k n = hex_digits k m ->
  (n mod 16 ^ Z.of_nat k = m mod 16 ^ Z.of_nat k)%Z.
Proof.
  revert n m. induction k as [|k IH]; intros n m Heq.
  - simpl. now rewrite !Z.mod_1_r.
  - simpl in Heq.
    apply append_inj in Heq as [Hhigh Hlow];
      [|now rewrite !hex_digits_length].
    injection Hlow as Hlow.
    apply (f_equal hex_value) in Hlow.
    rewrite !hex_value_digit in Hlow by apply mod16_range.
    apply IH in Hhigh.
    rewrite Nat2Z.inj_succ, Z.pow_succ_r by lia.
    rewrite !(Z.rem_mul_r _ 16) by lia.
    now rewrite Hlow, Hhigh.
Qed.

(** The grouping 8-4-4-4-12 of [uuid_str]. *)
Definition dashed (hex : string) : string :=
  substring 0 8 hex ++ "-" ++ substring 8 4 hex ++ "-" ++ substring 12 4 hex
  ++ "-" ++ substring 16 4 hex ++ "-" ++ substring 20 12 hex.

Lemma uuid_str_dashed (u : UUID) : uuid_str u = dashed (hex_digits 32 u).
Proof. reflexivity. Qed.

(** A string of 32 characters, spelled out. *)
Ltac spell_out s H :=
  repeat (destruct s as [|? s]; [discriminate H|]; simpl in H;
          apply Nat.succ_inj in H);
  destruct s; [|discriminate H].

Lemma dashed_length (s : string) :
  String.length s = 32%nat -> String.length (dashed s) = 36%nat.
Proof. intros H. spell_out s H. reflexivity. Qed.

Lemma dashed_plain (s : string) :
  String.length s = 32%nat -> plain s = true -> plain (dashed s) = true.
Proof.
  intros H Hp. spell_out s H. unfold dashed. simpl in *.
  repeat (apply andb_true_iff in Hp as [? Hp]).
  repeat (apply andb_true_iff; split); auto.
Qed.

Lemma dashed_inj (s t : string) :
  String.length s = 32%nat -> String.length t = 32%nat ->
  dashed s = dashed t -> s = t.
Proof.
  intros Hs Ht Heq. spell_out s Hs. spell_out t Ht.
  cbv [dashed substring String.append] in Heq. congruence.
Qed.

Lemma uuid_str_length (u : UUID) : String.length (uuid_str u) = 36%nat.
Proof. rewrite uuid_str_dashed. apply dashed_length, hex_digits_length. Qed.

Lemma uuid_str_plain (u : UUID) : plain (uuid_str u) = true.
Proof.
  rewrite uuid_str_dashed.
  apply dashed_plain; [apply hex_digits_length|apply hex_digits_plain].
Qed.

Lemma uuid_str_inj (u v : UUID) :
  uuid_valid u -> uuid_valid v -> uuid_str u = uuid_str v -> u = v.
Proof.
  unfold uuid_valid. intros Hu Hv Heq. rewrite !uuid_str_dashed in Heq.
  apply dashed_inj in Heq; try apply hex_digits_length.
  apply hex_digits_inj in Heq.
  change (16 ^ Z.of_nat 32)%Z with (2 ^ 128)%Z in Heq.
  now rewrite !Z.mod_small in Heq by assumption.
Qed.

End HexFacts.

(* ===================================================================== *)
(** ** Glob patterns made of plain characters and a final star *)
(* ===================================================================== *)

Module GlobFacts.
Import HexFacts Redis.

Fixpoint literals (s : string) : list token :=
  match s with
  | EmptyString => []
  | String c r => TLit c :: literals r
  end.

Lemma tokens_plain (lit rest : string) :
  plain lit = true ->
  tokens_from None (lit ++ rest) = (literals lit ++ tokens_from None rest)%list.
Proof.
  induction lit as [|c lit IH]; [reflexivity|].
  rewrite append_cons. simpl. intros Hp.
  apply andb_true_iff in Hp as [Hc Hp].
  unfold plain_char in Hc. apply negb_true_iff in Hc.
  apply orb_false_iff in Hc as [Hc Hbackslash].
  apply orb_false_iff in Hc as [Hc Hbracket].
  apply orb_false_iff in Hc as [Hstar Hquestion].
  rewrite Hstar, Hquestion, Hbracket, Hbackslash.
  now rewrite IH.
Qed.

Lemma star_matches_all (s : string) : match_tokens [TStar] s = true.
Proof.
  induction s as [|c s IH]; [reflexivity|].
  simpl in *. exact IH.
Qed.

Lemma literals_then_star (lit s : string) :
  match_tokens (literals lit ++ [TStar]) s = String.prefix lit s.
Proof.
  revert s. induction lit as [|c lit IH]; intros s.
  - rewrite star_matches_all. now destruct s.
  - destruct s as [|c' s]; [reflexivity|].
    cbn [literals app match_tokens String.prefix]. rewrite IH.
    destruct (ascii_dec c c') as [<-|Hne].
    + now rewrite Ascii.eqb_refl.
    + apply Ascii.eqb_neq in Hne. now rewrite Hne.
Qed.

(** A plain, non-empty text followed by a star selects by prefix. *)
Lemma glob_prefix (lit key : string) :
  plain lit = true -> lit <> EmptyString ->
  glob_match (lit ++ "*") key = String.prefix lit key.
Proof.
  intros Hp Hne. unfold glob_match.
  destruct key as [|c key].
  - destruct lit as [|c lit]; [contradiction|reflexivity].
  - cbn [PyStr.is_empty]. unfold tokens.
    rewrite tokens_plain by exact Hp.
    apply literals_then_star.
Qed.

(** [KEYS] with such a pattern lists the keys with that prefix. *)
Lemma selects_prefix (lit key : string) :
  plain lit = true -> lit <> EmptyString ->
  selects (lit ++ "*") key = String.prefix lit key.
Proof.
  intros Hp Hne. unfold selects.
  destruct lit as [|c lit]; [contradiction|].
  rewrite append_cons.
  replace (String.eqb (String c (lit ++ "*")) "*") with false.
  - rewrite <- append_cons. now apply glob_prefix.
  - symmetry. apply String.eqb_neq. intros [= -> H].
    destruct lit; discriminate.
Qed.

Example glob_question : glob_match "h?llo" "hello" = true.
Proof. reflexivity. Qed.

Example glob_star : glob_match "h*llo" "heeeello" = true.
Proof. reflexivity. Qed.

Example glob_star_empty : glob_match "h*llo" "hllo" = true.
Proof. reflexivity. Qed.

Example glob_class : glob_match "h[ae]llo" "hillo" = false.
Proof. reflexivity. Qed.

Example glob_negated_class : glob_match "h[^e]llo" "hallo" = true.
Proof. reflexivity. Qed.

Example glob_range : glob_match "h[a-b]llo" "hbllo" = true.
Proof. reflexivity. Qed.

Example glob_escape : glob_match "h\*llo" "h*llo" = true
                      /\ glob_match "h\*llo" "hello" = false.
Proof. split; reflexivity. Qed.

Example glob_all_matches : glob_match "match:*" "match:7:abc" = true
                           /\ glob_match "match:*" "session:7" = false.
Proof. split; reflexivity. Qed.

End GlobFacts.

(* ===================================================================== *)
(** ** Invalidation by client *)
(* ===================================================================== *)

Module CacheFacts.
Import HexFacts GlobFacts.

(** The prefix of every key of one client. *)
Definition client_prefix (client_id : string) : string :=
  "match:" ++ client_id ++ ":".

Lemma client_pattern (client_id : string) :
  "match:" ++ client_id ++ ":*" = client_prefix client_id ++ "*".
Proof.
  unfold client_prefix. now rewrite !append_assoc.
Qed.

Lemma client_prefix_plain (u : UUID) : plain (client_prefix (uuid_str u)) = true.
Proof.
  unfold client_prefix. rewrite !plain_append, uuid_str_plain. reflexivity.
Qed.

Lemma cache_key_prefixed (u : UUID) (quiz : pydict) :
  generate_cache_key u quiz
  = client_prefix (uuid_str u)
    ++ MD5.hexdigest (utf8_encode (JsonDumps.dumps (JDict quiz))).
Proof.
  unfold generate_cache_key, client_prefix. cbv zeta.
  now rewrite !append_assoc.
Qed.

Lemma own_key_has_prefix (u : UUID) (quiz : pydict) :
  String.prefix (client_prefix (uuid_str u)) (generate_cache_key u quiz) = true.
Proof. rewrite cache_key_prefixed. apply prefix_append. Qed.

Lemma other_key_lacks_prefix (u v : UUID) (quiz : pydict) :
  uuid_valid u -> uuid_valid v -> v <> u ->
  String.prefix (client_prefix (uuid_str u)) (generate_cache_key v quiz) = false.
Proof.
  intros Hu Hv Hne.
  destruct (String.prefix _ _) eqn:Hp; [|reflexivity]. exfalso.
  apply prefix_split in Hp as [t Ht].
  rewrite cache_key_prefixed in Ht. unfold client_prefix in Ht.
  rewrite !append_assoc in Ht.
  apply append_inj in Ht as [_ Ht]; [|reflexivity].
  apply append_inj in Ht as [Ht _]; [|now rewrite !uuid_str_length].
  apply Hne. now apply uuid_str_inj.
Qed.

Section Store.

Variable db : Redis.store.

Lemma keys_spec (pattern k : string) :
  k ∈ Redis.keys db pattern
  <-> is_Some (db !! k) /\ Redis.selects pattern k = true.
Proof.
  unfold Redis.keys, Redis.store in *.
  rewrite list_elem_of_filter, elem_of_elements, elem_of_dom. tauto.
Qed.

Lemma delete_all_lookup (ks : list string) (k : string) :
  Redis.delete_all db ks !! k = if decide (k ∈ ks) then None else db !! k.
Proof.
  unfold Redis.delete_all, Redis.store in *.
  induction ks as [|x ks IH]; simpl.
  - destruct (decide (k ∈ [])) as [Hin|_]; [|reflexivity].
    now apply not_elem_of_nil in Hin.
  - destruct (decide (x = k)) as [->|Hne].
    + rewrite lookup_delete_eq.
      destruct (decide (k ∈ k :: ks)) as [_|Hnot]; [reflexivity|].
      exfalso. apply Hnot. now left.
    + rewrite lookup_delete_ne by exact Hne. rewrite IH.
      destruct (decide (k ∈ ks)) as [Hin|Hnin];
        destruct (decide (k ∈ x :: ks)) as [Hin'|Hnin']; try reflexivity.
      * exfalso. apply Hnin'. now right.
      * exfalso. apply elem_of_cons in Hin' as [->|Hin']; congruence.
Qed.

(** [DEL] of [KEYS pattern]: the matching keys go, the others stay. *)
Lemma delete_keys_lookup (pattern k : string) :
  Redis.delete_all db (Redis.keys db pattern) !! k
  = if Redis.selects pattern k then None else db !! k.
Proof.
  rewrite delete_all_lookup.
  destruct (decide (k ∈ Redis.keys db pattern)) as [Hin|Hnin].
  - apply keys_spec in Hin as [_ ->]. reflexivity.
  - destruct (Redis.selects pattern k) eqn:Hm; [|reflexivity].
    destruct (db !! k) as [e|] eqn:Hk; [|reflexivity].
    exfalso. apply Hnin. apply keys_spec. split; [|exact Hm].
    exists e. exact Hk.
Qed.

End Store.

Lemma connected_client (cache_service : CacheService) (db : Redis.store) :
  connected cache_service = Some db ->
  exists client, usable_client cache_service = Some client
                 /\ server_up client = true /\ keyspace client = db.
Proof.
  unfold connected.
  destruct (usable_client cache_service) as [client|]; [|discriminate].
  destruct (server_up client) eqn:Hup; [|discriminate].
  intros [= <-]. now exists client.
Qed.

Lemma connected_with_keyspace (cache_service : CacheService) (db : Redis.store) :
  is_available cache_service = true ->
  connected (with_keyspace cache_service db) = Some db.
Proof.
  intros Ha. unfold connected, usable_client, with_keyspace.
  cbn [is_available redis_client]. now rewrite Ha.
Qed.

Lemma usable_available (cache_service : CacheService) (client : RedisClient) :
  usable_client cache_service = Some client ->
  is_available cache_service = true.
Proof.
  unfold usable_client. now destruct (is_available cache_service).
Qed.

(** What [cache_delete_pattern] leaves in a connected store. *)
Lemma delete_pattern_lookup (cache_service : CacheService) (db : Redis.store)
    (pattern : string) :
  connected cache_service = Some db ->
  exists db',
    connected (snd (cache_delete_pattern cache_service pattern)) = Some db'
    /\ forall k, db' !! k = if Redis.selects pattern k then None else db !! k.
Proof.
  intros Hc.
  destruct (connected_client cache_service db Hc) as (client & Hu & Hup & <-).
  unfold cache_delete_pattern. rewrite Hu, Hup. cbv zeta.
  destruct (is_nil (Redis.keys (keyspace client) pattern)) eqn:Hnil.
  - exists (keyspace client). split; [exact Hc|]. intros k.
    rewrite <- (delete_keys_lookup (keyspace client) pattern k).
    apply is_nil_true in Hnil. now rewrite Hnil.
  - exists (Redis.delete_all (keyspace client)
              (Redis.keys (keyspace client) pattern)). split.
    + cbn [snd]. apply connected_with_keyspace.
      now apply (usable_available cache_service client).
    + apply delete_keys_lookup.
Qed.

(** With no usable client, or a server that does not answer, nothing is
    removed. *)
Lemma delete_pattern_unconnected (cache_service : CacheService)
    (pattern : string) :
  connected cache_service = None ->
  cache_delete_pattern cache_service pattern = (0%Z, cache_service).
Proof.
  unfold connected, cache_delete_pattern.
  destruct (usable_client cache_service) as [client|]; [|reflexivity].
  now destruct (server_up client).
Qed.

End CacheFacts.

(** C9. For every client identifier [c] and every connected cache,
    [invalidate_client_match_cache] with the pattern "match:<c>:*" removes
    exactly the keys that begin with "match:<c>:" and leaves every other
    key with its entry; every key [generate_cache_key c quiz] matches the
    pattern and so is removed, and no key derived for another client
    does, so those are kept. *)
Theorem client_invalidation_is_exact (cache_service : CacheService)
    (db : Redis.store) (c : UUID) :
  uuid_valid c ->
  connected cache_service = Some db ->
  exists db',
    connected (snd (invalidate_client_match_cache cache_service (uuid_str c)))
    = Some db'
    /\ (forall k,
          db' !! k
          = if String.prefix ("match:" ++ uuid_str c ++ ":") k then None
            else db !! k)
    /\ (forall quiz,
          Redis.glob_match ("match:" ++ uuid_str c ++ ":*")
            (generate_cache_key c quiz) = true
          /\ db' !! generate_cache_key c quiz = None)
    /\ (forall c' quiz, uuid_valid c' -> c' <> c ->
          db' !! generate_cache_key c' quiz = db !! generate_cache_key c' quiz).
Proof.
  intros Hvalid Hc. unfold invalidate_client_match_cache. cbv zeta.
  rewrite CacheFacts.client_pattern.
  destruct (CacheFacts.delete_pattern_lookup cache_service db
              (CacheFacts.client_prefix (uuid_str c) ++ "*") Hc)
    as (db' & Hc' & Hlookup).
  assert (Hprefix : forall k,
             db' !! k
             = if String.prefix (CacheFacts.client_prefix (uuid_str c)) k
               then None else db !! k).
  { intros k. rewrite Hlookup, GlobFacts.selects_prefix;
      [reflexivity|apply CacheFacts.client_prefix_plain|discriminate]. }
  exists db'. split; [exact Hc'|]. split; [exact Hprefix|]. split.
  - intros quiz. split.
    + rewrite GlobFacts.glob_prefix;
        [apply CacheFacts.own_key_has_prefix
        |apply CacheFacts.client_prefix_plain|discriminate].
    + now rewrite Hprefix, CacheFacts.own_key_has_prefix.
  - intros c' quiz Hvalid' Hne.
    now rewrite Hprefix, CacheFacts.other_key_lacks_prefix.
Qed.

(** Two clients with one cached answer each: invalidating the first
    removes its entry and keeps the other's. *)
Definition sample_entry : Redis.entry := {|
  Redis.entry_value := {| cached_matches := []; cached_total := 0;
                          cached_generated_at := "2025-01-01T00:00:00" |};
  Redis.entry_ttl := 86400
|}.

Definition sample_quiz : pydict := [("industry", JStr "Technology")].

Lemma client_invalidation_is_exact_witness :
  let db : Redis.store :=
    <[generate_cache_key 256%Z sample_quiz := sample_entry]>
      (<[generate_cache_key 255%Z sample_quiz := sample_entry]> ∅) in
  exists db',
    connected
      (snd (invalidate_client_match_cache
              {| redis_client := Some {| keyspace := db; server_up := true |};
                 is_available := true |}
              (uuid_str 255%Z))) = Some db'
    /\ db' !! generate_cache_key 255%Z sample_quiz = None
    /\ db' !! generate_cache_key 256%Z sample_quiz = Some sample_entry.
Proof.
  intros db.
  assert (H255 : uuid_valid 255%Z) by (unfold uuid_valid; lia).
  assert (H256 : uuid_valid 256%Z) by (unfold uuid_valid; lia).
  destruct (client_invalidation_is_exact
              {| redis_client := Some {| keyspace := db; server_up := true |};
                 is_available := true |} db 255%Z
              H255 eq_refl) as (db' & Hc & _ & Hown & Hother).
  exists db'. split; [exact Hc|]. split; [apply Hown|].
  rewrite (Hother 256%Z sample_quiz H256) by lia.
  unfold db, Redis.store. apply lookup_insert_eq.
Defined.

(* ===================================================================== *)
(** ** The JSON text determines the content *)
(* ===================================================================== *)

Module TextFacts.
Import JsonDumps.

(** *** Strings *)

Lemma append_cancel (a x y : string) : a ++ x = a ++ y -> x = y.
Proof. intros H. now apply append_inj in H. Qed.

(** Two ways of cutting one string: one first part begins the other. *)
Lemma append_split (a b x y : string) :
  a ++ x = b ++ y ->
  (exists t, b = a ++ t /\ x = t ++ y) \/ (exists t, a = b ++ t /\ y = t ++ x).
Proof.
  revert b. induction a as [|c a IH]; intros b H.
  - left. exists b. now split.
  - destruct b as [|c' b].
    + right. exists (String c a). now split.
    + rewrite !append_cons in H. injection H as <- H.
      destruct (IH b H) as [(t & -> & ->)|(t & -> & ->)].
      * left. now exists t.
      * right. now exists t.
Qed.

(** Every character. *)
Definition all_ascii : list ascii := map ascii_of_nat (seq 0 256).

Lemma all_ascii_complete (c : ascii) : In c all_ascii.
Proof.
  unfold all_ascii. apply List.in_map_iff. exists (nat_of_ascii c). split.
  - apply ascii_nat_embedding.
  - apply in_seq. pose proof (nat_ascii_bounded c). lia.
Qed.

Lemma for_all_ascii (p : ascii -> bool) :
  forallb p all_ascii = true -> forall c, p c = true.
Proof.
  intros H c. rewrite List.forallb_forall in H. apply H, all_ascii_complete.
Qed.

(** *** String literals

    The escapes form a prefix code, and none begins with the quote. *)
Lemma escape_char_prefix_free (c c' : ascii) :
  String.prefix (escape_char c) (escape_char c') = true -> c = c'.
Proof.
  revert c c'.
  assert (H : forallb (fun c => forallb (fun c' =>
               implb (String.prefix (escape_char c) (escape_char c'))
                     (Ascii.eqb c c')) all_ascii) all_ascii = true)
    by (vm_compute; reflexivity).
  intros c c' Hp.
  pose proof (for_all_ascii _ (for_all_ascii _ H c) c') as Hcc.
  cbv beta in Hcc. rewrite Hp in Hcc. now apply Ascii.eqb_eq.
Qed.

Definition quote_char : ascii := ascii_of_nat 34.

Lemma escape_char_start (c : ascii) :
  exists h t, escape_char c = String h t /\ h <> quote_char.
Proof.
  assert (H : forallb (fun c => match escape_char c with
                                | String h _ => negb (Ascii.eqb h quote_char)
                                | EmptyString => false
                                end) all_ascii = true)
    by (vm_compute; reflexivity).
  pose proof (for_all_ascii _ H c) as Hc. cbv beta in Hc.
  destruct (escape_char c) as [|h t]; [discriminate|].
  exists h, t. split; [reflexivity|].
  apply negb_true_iff, Ascii.eqb_neq in Hc. exact Hc.
Qed.

Lemma escape_char_readable (c c' : ascii) (x x' : string) :
  escape_char c ++ x = escape_char c' ++ x' -> c = c' /\ x = x'.
Proof.
  intros H.
  assert (Hc : c = c').
  { destruct (append_split _ _ _ _ H) as [(t & Ht & _)|(t & Ht & _)].
    - apply escape_char_prefix_free. rewrite Ht. apply prefix_append.
    - symmetry. apply escape_char_prefix_free. rewrite Ht. apply prefix_append. }
  subst c'. split; [reflexivity|]. now apply append_cancel in H.
Qed.

Lemma escape_readable (s s' r r' : string) :
  escape s ++ quote ++ r = escape s' ++ quote ++ r' -> s = s' /\ r = r'.
Proof.
  revert s'. induction s as [|c s IH]; intros [|c' s'] H.
  - split; [reflexivity|]. cbn [escape] in H. rewrite !append_nil in H.
    now apply append_cancel in H.
  - exfalso. cbn [escape] in H. rewrite append_nil, append_assoc in H.
    destruct (escape_char_start c') as (h & t & Hh & Hne).
    rewrite Hh in H. unfold quote in H. rewrite !append_cons in H.
    injection H as H _. now apply Hne.
  - exfalso. cbn [escape] in H. rewrite append_nil, append_assoc in H.
    destruct (escape_char_start c) as (h & t & Hh & Hne).
    rewrite Hh in H. unfold quote in H. rewrite !append_cons in H.
    injection H as H _. now apply Hne.
  - cbn [escape] in H. rewrite !append_assoc in H.
    apply escape_char_readable in H as [<- H].
    destruct (IH s' H) as [<- <-]. now split.
Qed.

Lemma encode_str_readable (s s' r r' : string) :
  encode_str s ++ r = encode_str s' ++ r' -> s = s' /\ r = r'.
Proof.
  unfold encode_str. rewrite !append_assoc. intros H.
  apply append_cancel in H. now apply escape_readable.
Qed.

(** *** Digits *)

Import PyFloat.

(** A text that does not go on with a digit. *)
Definition nondigit_start (t : string) : bool :=
  match t with
  | EmptyString => true
  | String c _ => negb (is_digit c)
  end.

(** A run of digits ends where the digits end. *)
Lemma digits_lex (a a' t t' : string) :
  all_digits a = true -> all_digits a' = true ->
  nondigit_start t = true -> nondigit_start t' = true ->
  a ++ t = a' ++ t' -> a = a' /\ t = t'.
Proof.
  revert a'. induction a as [|c a IH]; intros [|c' a'] Ha Ha' Ht Ht' H;
    rewrite ?append_nil, ?append_cons in H.
  - now split.
  - exfalso. subst t. cbn in Ht, Ha'.
    apply andb_true_iff in Ha' as [Hc _]. now rewrite Hc in Ht.
  - exfalso. subst t'. cbn in Ht', Ha.
    apply andb_true_iff in Ha as [Hc _]. now rewrite Hc in Ht'.
  - injection H as <- H. cbn in Ha, Ha'.
    apply andb_true_iff in Ha as [_ Ha]. apply andb_true_iff in Ha' as [_ Ha'].
    destruct (IH a' Ha Ha' Ht Ht' H) as [<- <-]. now split.
Qed.

Lemma all_digits_app (a b : string) :
  all_digits (a ++ b) = all_digits a && all_digits b.
Proof.
  induction a as [|c a IH]; [reflexivity|].
  rewrite append_cons. cbn [all_digits]. now rewrite IH, andb_assoc.
Qed.

Lemma zeros_digits (n : nat) : all_digits (zeros n) = true.
Proof. induction n as [|n IH]; [reflexivity|exact IH]. Qed.

Lemma zeros_length (n : nat) : String.length (zeros n) = n.
Proof. induction n as [|n IH]; simpl; [reflexivity|now rewrite IH]. Qed.

(** *** Integers *)

Lemma uint_digits (d : Decimal.uint) :
  all_digits (NilEmpty.string_of_uint d) = true.
Proof. induction d; simpl; trivial. Qed.

Lemma uint_text (d : Decimal.uint) :
  all_digits (NilZero.string_of_uint d) = true
  /\ NilZero.string_of_uint d <> EmptyString.
Proof.
  destruct d; simpl; (split; [apply uint_digits || reflexivity|discriminate]).
Qed.

Definition sign_text (negative : bool) : string :=
  if negative then "-" else EmptyString.

(** [str(n)] is a sign and a run of digits. *)
Lemma str_of_int_shape (n : Z) :
  exists digits,
    str_of_int n = sign_text (n <? 0)%Z ++ digits
    /\ all_digits digits = true /\ digits <> EmptyString.
Proof.
  unfold str_of_int. destruct n as [|p|p]; cbn [Z.to_int NilZero.string_of_int].
  - now exists "0".
  - exists (NilZero.string_of_uint (Pos.to_uint p)).
    split; [reflexivity|apply uint_text].
  - exists (NilZero.string_of_uint (Pos.to_uint p)).
    split; [reflexivity|apply uint_text].
Qed.

Lemma str_of_int_inj (n n' : Z) : str_of_int n = str_of_int n' -> n = n'.
Proof.
  unfold str_of_int. intros H.
  assert (Hok : forall z, Z.to_int z <> Decimal.Pos Decimal.Nil
                          /\ Z.to_int z <> Decimal.Neg Decimal.Nil).
  { intros [|p|p]; cbn [Z.to_int]; split; try discriminate;
      intros [= Hp]; now apply DecimalPos.Unsigned.to_uint_nonnil in Hp. }
  apply (f_equal NilZero.int_of_string) in H.
  rewrite !NilZero.isi in H by apply Hok.
  injection H as H. now apply DecimalZ.to_int_inj.
Qed.

(** *** Floats *)

Lemma substring_split (s : string) (p : nat) :
  (p <= String.length s)%nat ->
  substring 0 p s ++ substring p (String.length s - p) s = s.
Proof.
  revert p. induction s as [|c s IH]; intros [|p] Hp; simpl in *;
    try reflexivity; try lia.
  - f_equal. rewrite <- (IH 0%nat) at 3 by lia.
    rewrite Nat.sub_0_r. now destruct s.
  - rewrite append_cons. f_equal. apply IH. lia.
Qed.

Lemma substring_length (s : string) (p : nat) :
  (p <= String.length s)%nat -> String.length (substring 0 p s) = p.
Proof.
  revert p. induction s as [|c s IH]; intros [|p] Hp; simpl in *;
    try reflexivity; try lia.
  f_equal. apply IH. lia.
Qed.

Lemma substring_digits (s : string) (a b : nat) :
  all_digits s = true -> all_digits (substring a b s) = true.
Proof.
  revert a b. induction s as [|c s IH]; intros a b Hs.
  - now destruct a, b.
  - cbn [all_digits] in Hs. apply andb_true_iff in Hs as [Hc Hs].
    destruct a as [|a]; [destruct b as [|b]|]; simpl.
    + reflexivity.
    + rewrite Hc. now apply IH.
    + now apply IH.
Qed.

Definition first_nonzero (s : string) : bool :=
  match s with
  | EmptyString => false
  | String c _ => negb (Ascii.eqb c "0")
  end.

Definition last_nonzero (s : string) : bool :=
  match s with
  | EmptyString => false
  | String c r => negb (Ascii.eqb (last_char c r) "0")
  end.

Lemma last_char_app (c : ascii) (a b : string) (c' : ascii) :
  last_char c (a ++ String c' b) = last_char c' b.
Proof.
  revert c. induction a as [|x a IH]; intros c; [reflexivity|].
  rewrite append_cons. cbn [last_char]. apply IH.
Qed.

Lemma last_nonzero_app (a b : string) :
  b <> EmptyString -> last_nonzero (a ++ b) = last_nonzero b.
Proof.
  intros Hb. destruct b as [|c' b]; [contradiction|].
  destruct a as [|c a]; [reflexivity|].
  rewrite append_cons. cbn [last_nonzero]. now rewrite last_char_app.
Qed.

Lemma last_nonzero_zeros (n : nat) : last_nonzero (zeros n) = false.
Proof.
  destruct n as [|n]; [reflexivity|]. cbn [zeros last_nonzero].
  induction n as [|n IH]; [reflexivity|exact IH].
Qed.

(** Zeros in front of a text that begins with another digit. *)
Lemma zeros_lead (z z' : nat) (d d' : string) :
  first_nonzero d = true -> first_nonzero d' = true ->
  zeros z ++ d = zeros z' ++ d' -> z = z' /\ d = d'.
Proof.
  intros Hd Hd'. revert z'. induction z as [|z IH]; intros [|z'] H;
    cbn [zeros] in H; rewrite ?append_nil, ?append_cons in H.
  - now split.
  - exfalso. subst d. cbn in Hd. discriminate.
  - exfalso. subst d'. cbn in Hd'. discriminate.
  - injection H as H. destruct (IH z' H) as [<- <-]. now split.
Qed.

Lemma zeros_prefix (t y : string) (k : nat) :
  t ++ y = zeros k -> t = zeros (String.length t).
Proof.
  revert k. induction t as [|c t IH]; intros [|k] H;
    rewrite ?append_cons in H; cbn [zeros] in H; try discriminate;
    [reflexivity|reflexivity|].
  injection H as -> H. cbn [String.length zeros]. f_equal. now apply (IH k).
Qed.

(** Zeros behind a text that ends with another digit. *)
Lemma zeros_trail (k k' : nat) (d d' : string) :
  last_nonzero d = true -> last_nonzero d' = true ->
  d ++ zeros k = d' ++ zeros k' -> d = d' /\ k = k'.
Proof.
  intros Hd Hd' H.
  assert (Hsame : forall a b j j', last_nonzero b = true ->
                    forall t, b = a ++ t -> zeros j = t ++ zeros j' ->
                    t = EmptyString).
  { intros a b j j' Hb t -> Ht.
    destruct t as [|c t]; [reflexivity|]. exfalso.
    symmetry in Ht. apply zeros_prefix in Ht.
    rewrite last_nonzero_app in Hb by discriminate.
    rewrite Ht in Hb. now rewrite last_nonzero_zeros in Hb. }
  destruct (append_split _ _ _ _ H) as [(t & Ht & Hz)|(t & Ht & Hz)].
  - pose proof (Hsame d d' k k' Hd' t Ht Hz) as ->.
    rewrite append_nil in Hz. split.
    + rewrite Ht. clear. induction d; [reflexivity|now rewrite append_cons, <- IHd].
    + apply (f_equal String.length) in Hz. now rewrite !zeros_length in Hz.
  - pose proof (Hsame d' d k' k Hd t Ht Hz) as ->.
    rewrite append_nil in Hz. split.
    + rewrite Ht. clear. induction d'; [reflexivity|now rewrite append_cons, IHd'].
    + apply (f_equal String.length) in Hz. now rewrite !zeros_length in Hz.
Qed.

(** *** Numbers *)

(** What may follow a value inside a JSON text. *)
Definition delimited (r : string) : bool :=
  match r with
  | EmptyString => true
  | String c _ => Ascii.eqb c "," || Ascii.eqb c "]" || Ascii.eqb c "}"
  end.

Lemma delimited_inv (r : string) :
  delimited r = true ->
  r = EmptyString
  \/ exists c t, r = String c t /\ (c = "," \/ c = "]" \/ c = "}")%char.
Proof.
  destruct r as [|c t]; [now left|]. cbn [delimited]. intros H. right.
  exists c, t. split; [reflexivity|].
  apply orb_true_iff in H as [H|H]; [apply orb_true_iff in H as [H|H]|];
    apply Ascii.eqb_eq in H; auto.
Qed.

Ltac delim H :=
  apply delimited_inv in H as [-> | (? & ? & -> & [-> | [-> | ->]])].

Definition frac_text (fr : option string) : string :=
  match fr with
  | Some d => "." ++ d
  | None => EmptyString
  end.

Definition exp_text (x : option (bool * string)) : string :=
  match x with
  | Some (s, d) => "e" ++ (if s : bool then "-" else "+") ++ d
  | None => EmptyString
  end.

(** A number as JSON writes it: sign, digits, and for a float the digits
    after the point and the exponent with its sign. *)
Definition num_text (negative : bool) (i : string) (fr : option string)
    (x : option (bool * string)) : string :=
  sign_text negative ++ i ++ frac_text fr ++ exp_text x.

Definition frac_digits (fr : option string) : bool :=
  match fr with
  | Some d => all_digits d
  | None => true
  end.

Definition exp_digits (x : option (bool * string)) : bool :=
  match x with
  | Some (_, d) => all_digits d
  | None => true
  end.

Lemma delimited_nondigit (r : string) :
  delimited r = true -> nondigit_start r = true.
Proof. intros H. delim H; reflexivity. Qed.

Lemma exp_lex (x x' : option (bool * string)) (r r' : string) :
  exp_digits x = true -> exp_digits x' = true ->
  delimited r = true -> delimited r' = true ->
  exp_text x ++ r = exp_text x' ++ r' -> x = x' /\ r = r'.
Proof.
  intros Hx Hx' Hr Hr' H.
  destruct x as [[s d]|], x' as [[s' d']|]; cbn [exp_text exp_digits] in *.
  - rewrite !append_assoc, !append_cons, !append_nil in H.
    injection H as H.
    assert (Hs : s = s' /\ d ++ r = d' ++ r').
    { destruct s, s'; rewrite !append_cons, !append_nil in H;
        now injection H as H. }
    destruct Hs as [<- Hd].
    apply digits_lex in Hd as [<- <-]; auto using delimited_nondigit.
  - exfalso. rewrite !append_assoc, !append_cons, !append_nil in H.
    delim Hr'; discriminate.
  - exfalso. rewrite !append_assoc, !append_cons, !append_nil in H.
    delim Hr; discriminate.
  - rewrite !append_nil in H. now split.
Qed.

(** What follows the digits before the point: no digit. *)
Lemma exp_nondigit (x : option (bool * string)) (r : string) :
  delimited r = true -> nondigit_start (exp_text x ++ r) = true.
Proof.
  intros Hr. destruct x as [[s d]|]; cbn [exp_text].
  - rewrite !append_assoc, !append_cons. reflexivity.
  - rewrite append_nil. now apply delimited_nondigit.
Qed.

Lemma frac_lex (fr fr' : option string) (x x' : option (bool * string))
    (r r' : string) :
  frac_digits fr = true -> frac_digits fr' = true ->
  delimited r = true -> delimited r' = true ->
  frac_text fr ++ exp_text x ++ r = frac_text fr' ++ exp_text x' ++ r' ->
  fr = fr' /\ exp_text x ++ r = exp_text x' ++ r'.
Proof.
  intros Hf Hf' Hr Hr' H.
  destruct fr as [d|], fr' as [d'|]; cbn [frac_text frac_digits] in *.
  - rewrite !append_assoc, !append_cons, !append_nil in H.
    injection H as H.
    apply digits_lex in H as [<- H]; auto using exp_nondigit.
  - exfalso. rewrite !append_assoc, !append_cons, !append_nil in H.
    destruct x' as [[s' e']|]; cbn [exp_text] in H.
    + rewrite !append_assoc, !append_cons in H. discriminate.
    + rewrite append_nil in H. delim Hr'; discriminate.
  - exfalso. rewrite !append_assoc, !append_cons, !append_nil in H.
    destruct x as [[s e]|]; cbn [exp_text] in H.
    + rewrite !append_assoc, !append_cons in H. discriminate.
    + rewrite append_nil in H. delim Hr; discriminate.
  - rewrite !append_nil in H. now split.
Qed.

Lemma frac_nondigit (fr : option string) (x : option (bool * string))
    (r : string) :
  delimited r = true -> nondigit_start (frac_text fr ++ exp_text x ++ r) = true.
Proof.
  intros Hr. destruct fr as [d|]; cbn [frac_text].
  - rewrite !append_assoc, !append_cons. reflexivity.
  - rewrite append_nil. now apply exp_nondigit.
Qed.

(** A number can be read back in one way. *)
Lemma num_lex (neg neg' : bool) (i i' : string) (fr fr' : option string)
    (x x' : option (bool * string)) (r r' : string) :
  all_digits i = true -> i <> EmptyString ->
  all_digits i' = true -> i' <> EmptyString ->
  frac_digits fr = true -> frac_digits fr' = true ->
  exp_digits x = true -> exp_digits x' = true ->
  delimited r = true -> delimited r' = true ->
  num_text neg i fr x ++ r = num_text neg' i' fr' x' ++ r' ->
  neg = neg' /\ i = i' /\ fr = fr' /\ x = x' /\ r = r'.
Proof.
  intros Hi Hin Hi' Hin' Hf Hf' Hx Hx' Hr Hr' H.
  unfold num_text in H. rewrite !append_assoc in H.
  assert (Hs : neg = neg'
               /\ i ++ frac_text fr ++ exp_text x ++ r
                  = i' ++ frac_text fr' ++ exp_text x' ++ r').
  { destruct neg, neg'; cbn [sign_text] in H;
      rewrite ?append_cons, ?append_nil in H.
    - now injection H as H.
    - exfalso. destruct i' as [|c i']; [contradiction|].
      rewrite append_cons in H. injection H as <- _. discriminate.
    - exfalso. destruct i as [|c i]; [contradiction|].
      rewrite append_cons in H. injection H as -> _. discriminate.
    - now split. }
  destruct Hs as [<- Hrest].
  apply digits_lex in Hrest as [<- Hrest]; auto using frac_nondigit.
  apply frac_lex in Hrest as [<- Hrest]; auto.
  apply exp_lex in Hrest as [<- <-]; auto.
Qed.

(** *** The text of a float *)

Lemma append_empty (a b : string) :
  a ++ b = EmptyString -> a = EmptyString /\ b = EmptyString.
Proof. destruct a; [now rewrite append_nil|discriminate]. Qed.

Lemma append_nil_r (a : string) : a ++ EmptyString = a.
Proof. induction a as [|c a IH]; [reflexivity|now rewrite append_cons, IH]. Qed.

Definition exponent_parts (e : Z) : bool * string :=
  ((e <? 0)%Z,
   (if (Z.abs e <? 10)%Z then "0" else "") ++ str_of_int (Z.abs e)).

(** The parts of [repr(x)]: the digits before the point, those after it,
    and the exponent. *)
Definition float_parts (f : pyfloat)
  : string * option string * option (bool * string) :=
  let digits := f_digits f in
  let n := Z.of_nat (String.length digits) in
  let decpt := f_decpt f in
  if ((-4 <? decpt) && (decpt <=? 16))%Z then
    if (decpt <=? 0)%Z
    then ("0", Some (zeros (Z.to_nat (- decpt)) ++ digits), None)
    else if (n <=? decpt)%Z
    then (digits ++ zeros (Z.to_nat (decpt - n)), Some "0", None)
    else (substring 0 (Z.to_nat decpt) digits,
          Some (substring (Z.to_nat decpt) (Z.to_nat (n - decpt)) digits),
          None)
  else (substring 0 1 digits,
        (if (1 <? n)%Z then Some (substring 1 (Z.to_nat (n - 1)) digits)
         else None),
        Some (exponent_parts (decpt - 1))).

Lemma float_repr_text (f : pyfloat) :
  float_repr f
  = num_text (f_negative f) (fst (fst (float_parts f)))
      (snd (fst (float_parts f))) (snd (float_parts f)).
Proof.
  unfold float_repr, float_parts, num_text, exponent_parts, sign_text.
  cbv zeta.
  destruct ((-4 <? f_decpt f) && (f_decpt f <=? 16))%Z.
  - destruct (f_decpt f <=? 0)%Z;
      [|destruct (Z.of_nat (String.length (f_digits f)) <=? f_decpt f)%Z];
      cbn [fst snd frac_text exp_text];
      rewrite ?append_nil_r, ?append_assoc, ?append_cons, ?append_nil;
      reflexivity.
  - destruct (1 <? Z.of_nat (String.length (f_digits f)))%Z;
      cbn [fst snd frac_text exp_text];
      rewrite ?append_nil_r, ?append_assoc, ?append_cons, ?append_nil;
      reflexivity.
Qed.

Lemma wf_inv (f : pyfloat) :
  wf f = true ->
  f_digits f <> EmptyString /\ all_digits (f_digits f) = true
  /\ ((f_digits f = "0" /\ f_decpt f = 1%Z)
      \/ (first_nonzero (f_digits f) = true
          /\ last_nonzero (f_digits f) = true)).
Proof.
  unfold wf. destruct (f_digits f) as [|c r] eqn:Hd; [discriminate|].
  intros H. apply andb_true_iff in H as [Hall H].
  split; [discriminate|]. split; [exact Hall|].
  destruct (String.eqb (String c r) "0") eqn:Hz.
  - left. apply String.eqb_eq in Hz. split; [exact Hz|lia].
  - right. apply andb_true_iff in H as [H1 H2]. now split.
Qed.

Import ZArith.

Lemma exponent_digits (e : Z) : all_digits (snd (exponent_parts e)) = true.
Proof.
  unfold exponent_parts. cbn [snd].
  destruct (str_of_int_shape (Z.abs e)) as (d & -> & Hd & _).
  replace (Z.abs e <? 0)%Z with false by lia. cbn [sign_text].
  rewrite append_nil, all_digits_app, Hd. now destruct (Z.abs e <? 10)%Z.
Qed.

Definition int_of_text (s : string) : option Z :=
  option_map Z.of_int (NilZero.int_of_string s).

Lemma int_of_text_str (n : Z) : int_of_text (str_of_int n) = Some n.
Proof.
  unfold int_of_text, str_of_int.
  rewrite NilZero.isi.
  - cbn [option_map]. now rewrite DecimalZ.of_to.
  - destruct n as [|q|q]; cbn [Z.to_int]; try discriminate;
      intros [= Hq]; now apply DecimalPos.Unsigned.to_uint_nonnil in Hq.
  - destruct n as [|q|q]; cbn [Z.to_int]; try discriminate;
      intros [= Hq]; now apply DecimalPos.Unsigned.to_uint_nonnil in Hq.
Qed.

Lemma padded_exponent (a b : Z) :
  (0 <= a < 10)%Z -> (10 <= b)%Z -> "0" ++ str_of_int a <> str_of_int b.
Proof.
  intros Ha Hb H. apply (f_equal int_of_text) in H.
  rewrite int_of_text_str in H.
  assert (Hcases : In a [0; 1; 2; 3; 4; 5; 6; 7; 8; 9]%Z) by (cbn; lia).
  cbn [In] in Hcases.
  repeat (destruct Hcases as [<-|Hcases];
          [vm_compute in H; injection H as <-; lia|]).
  exact Hcases.
Qed.

Lemma exponent_parts_inj (e e' : Z) :
  exponent_parts e = exponent_parts e' -> e = e'.
Proof.
  unfold exponent_parts. intros [= Hs H].
  assert (Habs : Z.abs e = Z.abs e').
  { destruct (Z.abs e <? 10)%Z eqn:Ha, (Z.abs e' <? 10)%Z eqn:Ha'.
    - apply append_cancel in H. now apply str_of_int_inj.
    - exfalso. apply (padded_exponent (Z.abs e) (Z.abs e')); [lia|lia|].
      now rewrite append_nil in H.
    - exfalso. apply (padded_exponent (Z.abs e') (Z.abs e)); [lia|lia|].
      now rewrite append_nil in H.
    - rewrite !append_nil in H. now apply str_of_int_inj. }
  destruct (e <? 0)%Z eqn:He, (e' <? 0)%Z eqn:He'; try discriminate; lia.
Qed.

Lemma digits_length (d : string) :
  d <> EmptyString -> (1 <= String.length d)%nat.
Proof. destruct d; [contradiction|simpl; lia]. Qed.

Lemma float_parts_wf (f : pyfloat) :
  wf f = true ->
  all_digits (fst (fst (float_parts f))) = true
  /\ fst (fst (float_parts f)) <> EmptyString
  /\ frac_digits (snd (fst (float_parts f))) = true
  /\ exp_digits (snd (float_parts f)) = true.
Proof.
  intros Hwf. destruct (wf_inv f Hwf) as (Hne & Hall & _).
  pose proof (digits_length _ Hne) as Hlen.
  unfold float_parts. cbv zeta.
  destruct ((-4 <? f_decpt f) && (f_decpt f <=? 16))%Z.
  - destruct (f_decpt f <=? 0)%Z eqn:H0;
      [|destruct (Z.of_nat (String.length (f_digits f)) <=? f_decpt f)%Z
          eqn:Hn];
      cbn [fst snd frac_digits exp_digits].
    + repeat split; try discriminate.
      now rewrite all_digits_app, zeros_digits, Hall.
    + repeat split.
      * now rewrite all_digits_app, zeros_digits, Hall.
      * intros H. now apply append_empty in H as [H _].
    + repeat split.
      * now apply substring_digits.
      * intros H. apply (f_equal String.length) in H.
        rewrite substring_length in H by lia. simpl in H. lia.
      * now apply substring_digits.
  - cbn [fst snd]. repeat split.
    + now apply substring_digits.
    + intros H. apply (f_equal String.length) in H.
      rewrite substring_length in H by lia. discriminate.
    + destruct (1 <? _)%Z; cbn [frac_digits]; [|reflexivity].
      now apply substring_digits.
    + unfold exp_digits.
      pose proof (exponent_digits (f_decpt f - 1)) as He.
      now destruct (exponent_parts _).
Qed.

Lemma zero_prefix_only (d t : string) :
  d <> EmptyString -> "0" = d ++ t -> d = "0".
Proof.
  intros Hd H. destruct d as [|c d]; [contradiction|].
  rewrite append_cons in H. injection H as <- H. symmetry in H.
  now apply append_empty in H as [-> _].
Qed.

Lemma first_nonzero_app (d t : string) :
  first_nonzero d = true -> d ++ t <> "0".
Proof.
  destruct d as [|c d]; [discriminate|]. rewrite append_cons.
  cbn [first_nonzero]. intros Hc [= -> _]. discriminate.
Qed.

Lemma zeros_before_nonzero (z : nat) (d : string) :
  first_nonzero d = true -> zeros z ++ d <> "0".
Proof.
  intros Hd H. destruct z as [|z]; cbn [zeros] in H.
  - rewrite append_nil in H. subst d. discriminate.
  - rewrite append_cons in H. injection H as H.
    apply append_empty in H as [_ ->]. discriminate.
Qed.

Lemma substring_first (d : string) (q : nat) :
  first_nonzero d = true -> (1 <= q)%nat -> substring 0 q d <> "0".
Proof.
  destruct d as [|c d]; [discriminate|]. destruct q as [|q]; [lia|].
  cbn [first_nonzero substring]. intros Hc _ [= -> _]. discriminate.
Qed.

Lemma substring_last (d : string) (q : nat) :
  last_nonzero d = true -> (q <= String.length d)%nat ->
  substring q (String.length d - q) d <> "0".
Proof.
  intros Hd Hq H. pose proof (substring_split d q Hq) as Hs.
  rewrite H in Hs. rewrite <- Hs in Hd.
  rewrite last_nonzero_app in Hd by discriminate. discriminate.
Qed.

Lemma substring_single (d : string) :
  String.length d = 1%nat -> substring 0 1 d = d.
Proof. destruct d as [|c [|c' d]]; try discriminate. reflexivity. Qed.

Ltac parts H HI HF HX :=
  pose proof (f_equal (fun t : string * option string * option (bool * string)
                       => fst (fst t)) H) as HI;
  pose proof (f_equal (fun t : string * option string * option (bool * string)
                       => snd (fst t)) H) as HF;
  pose proof (f_equal (fun t : string * option string * option (bool * string)
                       => snd t) H) as HX;
  cbn [fst snd] in HI, HF, HX; clear H.

(** The parts determine the digits and the place of the point. *)
Lemma float_parts_inj (f f' : pyfloat) :
  wf f = true -> wf f' = true -> float_parts f = float_parts f' ->
  f_digits f = f_digits f' /\ f_decpt f = f_decpt f'.
Proof.
  intros Hwf Hwf'.
  destruct (wf_inv f Hwf) as (Hne & Hall & Hcase).
  destruct (wf_inv f' Hwf') as (Hne' & Hall' & Hcase').
  pose proof (digits_length _ Hne) as Hlen.
  pose proof (digits_length _ Hne') as Hlen'.
  destruct f as [s D p], f' as [s' D' p'].
  cbn [f_digits f_decpt] in *. clear Hwf Hwf'.
  unfold float_parts. cbn [f_digits f_decpt]. cbv zeta.
  destruct ((-4 <? p) && (p <=? 16))%Z eqn:Hfix,
           ((-4 <? p') && (p' <=? 16))%Z eqn:Hfix'.
  - (* both with the point in place *)
    destruct (p <=? 0)%Z eqn:H0;
      [|destruct (Z.of_nat (String.length D) <=? p)%Z eqn:Hn];
      (destruct (p' <=? 0)%Z eqn:H0';
       [|destruct (Z.of_nat (String.length D') <=? p')%Z eqn:Hn']);
      intros H; parts H HI HF HX.
    + destruct Hcase as [[_ ->]|[Hf Hl]]; [discriminate|].
      destruct Hcase' as [[_ ->]|[Hf' Hl']]; [discriminate|].
      injection HF as HF.
      destruct (zeros_lead _ _ _ _ Hf Hf' HF) as [Hz ->]. split; [reflexivity|lia].
    + exfalso. destruct Hcase as [[_ ->]|[Hf Hl]]; [discriminate|].
      injection HF as HF. exact (zeros_before_nonzero _ _ Hf HF).
    + exfalso. destruct Hcase' as [[-> _]|[Hf' Hl']]; [cbn [String.length] in Hn'; apply Z.leb_gt in H0', Hn'; clear -H0' Hn'; lia|].
      symmetry in HI. apply (substring_first _ _ Hf') in HI; [exact HI|lia].
    + exfalso. destruct Hcase' as [[_ ->]|[Hf' Hl']]; [discriminate|].
      injection HF as HF. symmetry in HF.
      exact (zeros_before_nonzero _ _ Hf' HF).
    + destruct Hcase as [[-> ->]|[Hf Hl]], Hcase' as [[-> ->]|[Hf' Hl']].
      * now split.
      * exfalso. cbn in HI. apply zero_prefix_only in HI; [|exact Hne'].
        subst D'. discriminate.
      * exfalso. cbn in HI. symmetry in HI.
        apply zero_prefix_only in HI; [|exact Hne]. subst D. discriminate.
      * destruct (zeros_trail _ _ _ _ Hl Hl' HI) as [-> Hk].
        split; [reflexivity|lia].
    + exfalso. destruct Hcase' as [[-> _]|[Hf' Hl']]; [cbn [String.length] in Hn'; apply Z.leb_gt in H0', Hn'; clear -H0' Hn'; lia|].
      injection HF as HF. symmetry in HF.
      replace (Z.to_nat (Z.of_nat (String.length D') - p'))
        with (String.length D' - Z.to_nat p')%nat in HF by lia.
      apply (substring_last _ _ Hl') in HF; [exact HF|lia].
    + exfalso. destruct Hcase as [[-> _]|[Hf Hl]]; [cbn [String.length] in Hn; apply Z.leb_gt in H0, Hn; clear -H0 Hn; lia|].
      apply (substring_first _ _ Hf) in HI; [exact HI|lia].
    + exfalso. destruct Hcase as [[-> _]|[Hf Hl]]; [cbn [String.length] in Hn; apply Z.leb_gt in H0, Hn; clear -H0 Hn; lia|].
      injection HF as HF.
      replace (Z.to_nat (Z.of_nat (String.length D) - p))
        with (String.length D - Z.to_nat p)%nat in HF by lia.
      apply (substring_last _ _ Hl) in HF; [exact HF|lia].
    + injection HF as HF.
      replace (Z.to_nat (Z.of_nat (String.length D) - p))
        with (String.length D - Z.to_nat p)%nat in HF by lia.
      replace (Z.to_nat (Z.of_nat (String.length D') - p'))
        with (String.length D' - Z.to_nat p')%nat in HF by lia.
      pose proof (substring_split D (Z.to_nat p) ltac:(lia)) as Hs.
      pose proof (substring_split D' (Z.to_nat p') ltac:(lia)) as Hs'.
      pose proof (substring_length D (Z.to_nat p) ltac:(lia)) as Hq.
      pose proof (substring_length D' (Z.to_nat p') ltac:(lia)) as Hq'.
      rewrite HI, HF, Hs' in Hs. rewrite HI, Hq' in Hq.
      split; [now symmetry|lia].
  - intros H. parts H HI HF HX. destruct (p <=? 0)%Z;
      [|destruct (Z.of_nat (String.length D) <=? p)%Z]; discriminate.
  - intros H. parts H HI HF HX. destruct (p' <=? 0)%Z;
      [|destruct (Z.of_nat (String.length D') <=? p')%Z]; discriminate.
  - (* both with an exponent *)
    intros H. parts H HI HF HX.
    assert (He : exponent_parts (p - 1) = exponent_parts (p' - 1))
      by congruence.
    apply exponent_parts_inj in He. split; [|lia].
    pose proof (substring_split D 1 Hlen) as Hs.
    pose proof (substring_split D' 1 Hlen') as Hs'.
    destruct (1 <? Z.of_nat (String.length D))%Z eqn:H1,
             (1 <? Z.of_nat (String.length D'))%Z eqn:H1'; try discriminate.
    + injection HF as HF.
      replace (Z.to_nat (Z.of_nat (String.length D) - 1))
        with (String.length D - 1)%nat in HF by lia.
      replace (Z.to_nat (Z.of_nat (String.length D') - 1))
        with (String.length D' - 1)%nat in HF by lia.
      now rewrite HI, HF, Hs' in Hs.
    + rewrite !substring_single in HI by lia. exact HI.
Qed.

(** [repr] of a float, with what follows it, can be read back in one way. *)
Lemma float_repr_readable (f f' : pyfloat) (r r' : string) :
  wf f = true -> wf f' = true -> delimited r = true -> delimited r' = true ->
  float_repr f ++ r = float_repr f' ++ r' -> f = f' /\ r = r'.
Proof.
  intros Hwf Hwf' Hr Hr' H. rewrite !float_repr_text in H.
  destruct (float_parts_wf f Hwf) as (Hi & Hin & Hfr & Hx).
  destruct (float_parts_wf f' Hwf') as (Hi' & Hin' & Hfr' & Hx').
  apply num_lex in H as (Hs & HI & HF & HX & Hrest); auto.
  split; [|exact Hrest].
  destruct (float_parts_inj f f' Hwf Hwf') as [Hd Hp].
  { destruct (float_parts f) as [[i fr] x], (float_parts f') as [[i' fr'] x'].
    cbn [fst snd] in *. congruence. }
  destruct f as [s D p], f' as [s' D' p'].
  cbn [f_negative f_digits f_decpt] in *. congruence.
Qed.

(** An int is not written like a float, and can be read back in one way. *)
Lemma int_float_distinct (n : Z) (f : pyfloat) (r r' : string) :
  wf f = true -> delimited r = true -> delimited r' = true ->
  str_of_int n ++ r <> float_repr f ++ r'.
Proof.
  intros Hwf Hr Hr' H. rewrite float_repr_text in H.
  destruct (float_parts_wf f Hwf) as (Hi & Hin & Hfr & Hx).
  destruct (str_of_int_shape n) as (d & Hd & Hall & Hne).
  replace (str_of_int n) with (num_text (n <? 0)%Z d None None) in H.
  - apply num_lex in H as (_ & _ & HF & HX & _); auto.
    unfold float_parts in HF, HX. cbv zeta in HF, HX.
    destruct ((-4 <? f_decpt f) && (f_decpt f <=? 16))%Z.
    + destruct (f_decpt f <=? 0)%Z;
        [|destruct (Z.of_nat (String.length (f_digits f)) <=? f_decpt f)%Z];
        discriminate.
    + discriminate.
  - unfold num_text. cbn [frac_text exp_text].
    now rewrite Hd, !append_nil_r.
Qed.

Lemma str_of_int_readable (n n' : Z) (r r' : string) :
  delimited r = true -> delimited r' = true ->
  str_of_int n ++ r = str_of_int n' ++ r' -> n = n' /\ r = r'.
Proof.
  intros Hr Hr' H.
  destruct (str_of_int_shape n) as (d & Hd & Hall & Hne).
  destruct (str_of_int_shape n') as (d' & Hd' & Hall' & Hne').
  assert (Ht : forall m e, str_of_int m = sign_text (m <? 0)%Z ++ e ->
                 str_of_int m = num_text (m <? 0)%Z e None None).
  { intros m e ->. unfold num_text. cbn [frac_text exp_text].
    now rewrite !append_nil_r. }
  pose proof H as H0.
  rewrite (Ht n d Hd), (Ht n' d' Hd') in H.
  apply num_lex in H as (Hs & <- & _ & _ & <-); auto.
  split; [|reflexivity]. apply str_of_int_inj. now rewrite Hd, Hd', Hs.
Qed.

(** *** Sorting the items *)

Lemma insert_by_key_map {A B : Type} (g : A -> B) (x : string * A)
    (l : list (string * A)) :
  insert_by_key (fst x, g (snd x)) (map (fun kv => (fst kv, g (snd kv))) l)
  = map (fun kv => (fst kv, g (snd kv))) (insert_by_key x l).
Proof.
  induction l as [|y l IH]; [reflexivity|].
  cbn [map insert_by_key fst]. destruct (String.ltb (fst y) (fst x)).
  - cbn [map]. now rewrite IH.
  - reflexivity.
Qed.

(** The order of the items depends on the keys alone. *)
Lemma sort_by_key_map {A B : Type} (g : A -> B) (l : list (string * A)) :
  sort_by_key (map (fun kv => (fst kv, g (snd kv))) l)
  = map (fun kv => (fst kv, g (snd kv))) (sort_by_key l).
Proof.
  induction l as [|x l IH]; [reflexivity|].
  cbn [map sort_by_key fold_right]. fold (sort_by_key l).
  fold (sort_by_key (map (fun kv => (fst kv, g (snd kv))) l)).
  now rewrite IH, insert_by_key_map.
Qed.

Lemma insert_by_key_Forall {A : Type} (Q : string * A -> Prop)
    (x : string * A) (l : list (string * A)) :
  Q x -> Forall Q l -> Forall Q (insert_by_key x l).
Proof.
  intros Hx. induction 1 as [|y l Hy Hl IH]; cbn [insert_by_key].
  - now repeat constructor.
  - destruct (String.ltb (fst y) (fst x)); now repeat constructor.
Qed.

Lemma sort_by_key_Forall {A : Type} (Q : string * A -> Prop)
    (l : list (string * A)) :
  Forall Q l -> Forall Q (sort_by_key l).
Proof.
  induction 1 as [|x l Hx Hl IH]; [constructor|].
  cbn [sort_by_key fold_right]. now apply insert_by_key_Forall.
Qed.

Fixpoint key_sorted {A : Type} (l : list (string * A)) : Prop :=
  match l with
  | [] => True
  | x :: r =>
      match r with
      | [] => True
      | y :: _ => String.ltb (fst y) (fst x) = false
      end /\ key_sorted r
  end.

Lemma insert_by_key_sorted {A : Type} (x : string * A)
    (l : list (string * A)) :
  key_sorted l -> key_sorted (insert_by_key x l).
Proof.
  induction l as [|y l IH]; intros Hl.
  - now cbn.
  - cbn [insert_by_key]. destruct (String.ltb (fst y) (fst x)) eqn:Hyx.
    + destruct Hl as [Hhd Htl]. specialize (IH Htl). split; [|exact IH].
      destruct l as [|z l]; cbn [insert_by_key].
      * now apply KeyOrder.lt_asym.
      * destruct (String.ltb (fst z) (fst x)); [exact Hhd|].
        now apply KeyOrder.lt_asym.
    + split; [exact Hyx|exact Hl].
Qed.

Lemma sort_by_key_sorted {A : Type} (l : list (string * A)) :
  key_sorted (sort_by_key l).
Proof.
  induction l as [|x l IH]; [exact I|].
  cbn [sort_by_key fold_right]. now apply insert_by_key_sorted.
Qed.

Lemma sorted_sort_by_key {A : Type} (l : list (string * A)) :
  key_sorted l -> sort_by_key l = l.
Proof.
  induction l as [|x l IH]; [reflexivity|]. intros [Hhd Htl].
  cbn [sort_by_key fold_right]. fold (sort_by_key l). rewrite (IH Htl).
  destruct l as [|y l]; [reflexivity|]. cbn [insert_by_key].
  now rewrite Hhd.
Qed.

Lemma sort_by_key_idempotent {A : Type} (l : list (string * A)) :
  sort_by_key (sort_by_key l) = sort_by_key l.
Proof. apply sorted_sort_by_key, sort_by_key_sorted. Qed.

(** *** Values *)

(** The content of a value: the value with the items of every dict in key
    order. *)
Fixpoint canon (v : json) : json :=
  match v with
  | JList l => JList (map canon l)
  | JDict d => JDict (sort_by_key (map (fun kv => (fst kv, canon (snd kv))) d))
  | _ => v
  end.

(** Every float in the value carries its shortest digits. *)
Fixpoint floats_wf (v : json) : bool :=
  match v with
  | JFloat f => wf f
  | JList l => forallb floats_wf l
  | JDict d => forallb (fun kv => floats_wf (snd kv)) d
  | _ => true
  end.

Lemma json_nested_ind (P : json -> Prop) :
  P JNull -> (forall b, P (JBool b)) -> (forall n, P (JInt n)) ->
  (forall f, P (JFloat f)) -> (forall s, P (JStr s)) ->
  (forall l, Forall P l -> P (JList l)) ->
  (forall d, Forall (fun kv => P (snd kv)) d -> P (JDict d)) ->
  forall v, P v.
Proof.
  intros Hnull Hbool Hint Hfloat Hstr Hlist Hdict.
  fix IH 1. intros [|b|n|f|s|l|d]; try solve [clear IH; auto].
  - apply Hlist. induction l as [|x l IHl]; constructor; [apply IH|exact IHl].
  - apply Hdict.
    induction d as [|[k x] d IHd]; constructor; [apply IH|exact IHd].
Qed.

(** What a text begins with tells the kind of value. *)
Definition head_char (c : ascii) : option nat :=
  if Ascii.eqb c "n" then Some 0%nat
  else if Ascii.eqb c "t" then Some 1%nat
  else if Ascii.eqb c "f" then Some 2%nat
  else if Ascii.eqb c "-" || is_digit c then Some 3%nat
  else if Ascii.eqb c quote_char then Some 4%nat
  else if Ascii.eqb c "[" then Some 5%nat
  else if Ascii.eqb c "{" then Some 6%nat
  else None.

Definition head_class (s : string) : option nat :=
  match s with
  | EmptyString => None
  | String c _ => head_char c
  end.

Definition tag (v : json) : nat :=
  match v with
  | JNull => 0
  | JBool true => 1
  | JBool false => 2
  | JInt _ | JFloat _ => 3
  | JStr _ => 4
  | JList _ => 5
  | JDict _ => 6
  end.

Lemma head_digit (c : ascii) : is_digit c = true -> head_char c = Some 3%nat.
Proof.
  assert (H : forallb (fun c => implb (is_digit c)
                         match head_char c with
                         | Some 3%nat => true
                         | _ => false
                         end) all_ascii = true)
    by (vm_compute; reflexivity).
  pose proof (for_all_ascii _ H c) as Hc. cbv beta in Hc.
  intros Hd. rewrite Hd in Hc. cbn [implb] in Hc.
  destruct (head_char c) as [[|[|[|[|k]]]]|]; try discriminate. reflexivity.
Qed.

Lemma head_not_delimited (s : string) (k : nat) :
  head_class s = Some k -> delimited s = false.
Proof.
  assert (H : forallb (fun c => implb
                         match head_char c with Some _ => true | None => false end
                         (negb (delimited (String c EmptyString))))
                all_ascii = true)
    by (vm_compute; reflexivity).
  destruct s as [|c s]; [discriminate|]. cbn [head_class]. intros Hk.
  pose proof (for_all_ascii _ H c) as Hc. cbv beta in Hc.
  rewrite Hk in Hc. cbn [implb] in Hc. apply negb_true_iff in Hc. exact Hc.
Qed.

Lemma head_num (neg : bool) (i t : string) :
  all_digits i = true -> i <> EmptyString ->
  head_class (sign_text neg ++ i ++ t) = Some 3%nat.
Proof.
  intros Hi Hne. destruct neg; cbn [sign_text].
  - rewrite append_cons. reflexivity.
  - rewrite append_nil. destruct i as [|c i]; [contradiction|].
    rewrite append_cons. cbn [head_class]. apply head_digit.
    cbn [all_digits] in Hi. now apply andb_true_iff in Hi as [Hc _].
Qed.

Lemma head_class_dumps (v : json) (r : string) :
  floats_wf v = true -> head_class (dumps v ++ r) = Some (tag v).
Proof.
  intros Hwf. destruct v as [|b|n|f|s|l|d]; cbn [dumps tag].
  - reflexivity.
  - now destruct b.
  - destruct (str_of_int_shape n) as (i & -> & Hi & Hne).
    rewrite append_assoc. now apply head_num.
  - cbn [floats_wf] in Hwf. rewrite float_repr_text. unfold num_text.
    destruct (float_parts_wf f Hwf) as (Hi & Hne & _).
    rewrite !append_assoc. now apply head_num.
  - unfold encode_str, quote. rewrite !append_assoc, append_cons. reflexivity.
  - rewrite !append_assoc, append_cons. reflexivity.
  - rewrite !append_assoc, append_cons. reflexivity.
Qed.

(** *** Sequences of values or items *)

Section Sequences.

Context {A : Type} (g : A -> string) (E : A -> A -> Prop) (ok : A -> Prop).

Hypothesis g_head : forall x t, ok x -> delimited (g x ++ t) = false.

Definition readable (x : A) : Prop :=
  forall x' r r',
    ok x' -> delimited r = true -> delimited r' = true ->
    g x ++ r = g x' ++ r' -> E x x' /\ r = r'.

(** What follows the first of the texts. *)
Definition rest_text (l : list A) (t : string) : string :=
  match l with
  | [] => t
  | _ :: _ => ", " ++ PyStr.join ", " (map g l) ++ t
  end.

Lemma join_cons (x : A) (l : list A) (t : string) :
  PyStr.join ", " (map g (x :: l)) ++ t = g x ++ rest_text l t.
Proof.
  destruct l as [|y l]; cbn [map PyStr.join rest_text]; [reflexivity|].
  now rewrite !append_assoc.
Qed.

Lemma rest_delimited (c : ascii) (l : list A) (r : string) :
  delimited (String c EmptyString) = true ->
  delimited (rest_text l (String c r)) = true.
Proof.
  intros Hc. destruct l as [|y l]; cbn [rest_text]; [exact Hc|].
  rewrite append_cons. reflexivity.
Qed.

Lemma seq_readable (c : ascii) (l : list A) :
  delimited (String c EmptyString) = true -> c <> ","%char ->
  Forall readable l ->
  forall l' r r',
    Forall ok l -> Forall ok l' ->
    PyStr.join ", " (map g l) ++ String c r
    = PyStr.join ", " (map g l') ++ String c r' ->
    Forall2 E l l' /\ r = r'.
Proof.
  intros Hc Hcomma. induction 1 as [|x l Hx Hl IH]; intros l' r r' Hok Hok' H.
  - destruct l' as [|x' l'].
    + cbn [map PyStr.join] in H. rewrite !append_nil in H.
      injection H as H. now split.
    + exfalso. rewrite join_cons in H. cbn [map PyStr.join] in H.
      rewrite append_nil in H. inversion Hok' as [|? ? Hx' _]; subst.
      pose proof (g_head x' (rest_text l' (String c r')) Hx') as Hh.
      rewrite <- H in Hh. cbn [delimited] in Hh, Hc. congruence.
  - destruct l' as [|x' l'].
    + exfalso. rewrite join_cons in H. cbn [map PyStr.join] in H.
      rewrite append_nil in H. inversion Hok as [|? ? Hx0 _]; subst.
      pose proof (g_head x (rest_text l (String c r)) Hx0) as Hh.
      rewrite H in Hh. cbn [delimited] in Hh, Hc. congruence.
    + rewrite !join_cons in H.
      inversion Hok as [|? ? Hx0 Hok0]; subst.
      inversion Hok' as [|? ? Hx0' Hok0']; subst.
      destruct (Hx x' _ _ Hx0' (rest_delimited c l r Hc)
                  (rest_delimited c l' r' Hc) H) as [HE Hrest].
      destruct l as [|y l], l' as [|y' l']; cbn [rest_text] in Hrest.
      * injection Hrest as Hrest. split; [|exact Hrest].
        constructor; [exact HE|constructor].
      * exfalso. rewrite append_cons in Hrest. injection Hrest as Hrest _.
        now apply Hcomma.
      * exfalso. rewrite append_cons in Hrest. injection Hrest as Hrest _.
        now apply Hcomma.
      * apply append_cancel in Hrest.
        destruct (IH _ _ _ Hok0 Hok0' Hrest) as [HF Hr].
        split; [|exact Hr]. now constructor.
Qed.

End Sequences.

Lemma Forall_mp {A : Type} (Q R : A -> Prop) (l : list A) :
  Forall (fun x => Q x -> R x) l -> Forall Q l -> Forall R l.
Proof.
  induction 1 as [|x l Hx Hl IH]; intros HQ; [constructor|].
  inversion HQ; subst. constructor; auto.
Qed.

Lemma Forall2_map_eq {A B : Type} (g : A -> B) (l l' : list A) :
  Forall2 (fun x x' => g x = g x') l l' -> map g l = map g l'.
Proof. induction 1; cbn [map]; congruence. Qed.

Lemma forallb_Forall {A : Type} (q : A -> bool) (l : list A) :
  forallb q l = true -> Forall (fun x => q x = true) l.
Proof.
  induction l as [|x l IH]; cbn [forallb]; intros H; [constructor|].
  apply andb_true_iff in H as [Hx Hl]. constructor; auto.
Qed.

Lemma dumps_dict_text (d : pydict) :
  dumps (JDict d)
  = "{" ++ PyStr.join ", "
             (map (fun kv => render_item (fst kv, dumps (snd kv)))
                (sort_by_key d))
        ++ "}".
Proof.
  cbn [dumps]. now rewrite (sort_by_key_map dumps), map_map.
Qed.

(** A JSON text, with what follows the value, can be read back in one way:
    it determines the content of the value. *)
Lemma dumps_readable (v : json) :
  floats_wf v = true ->
  forall v' r r',
    floats_wf v' = true -> delimited r = true -> delimited r' = true ->
    dumps v ++ r = dumps v' ++ r' -> canon v = canon v' /\ r = r'.
Proof.
  induction v as [|b|n|f|s|l IH|d IH] using json_nested_ind;
    intros Hwf v' r r' Hwf' Hr Hr' H;
    (assert (Htag : Some (tag v') = Some (tag v'))  by reflexivity);
    pose proof (f_equal head_class H) as Hhead;
    rewrite (head_class_dumps _ r Hwf), (head_class_dumps _ r' Hwf') in Hhead;
    clear Htag;
    destruct v' as [|b'|n'|f'|s'|l'|d']; cbn [tag] in Hhead;
    try discriminate; try (destruct b'; discriminate);
    try (destruct b; discriminate).
  - cbn [dumps] in H. apply append_cancel in H. now split.
  - destruct b, b'; try discriminate; cbn [dumps] in H;
      apply append_cancel in H; now split.
  - cbn [dumps] in H.
    apply str_of_int_readable in H as [<- <-]; auto.
  - exfalso. cbn [dumps] in H.
    now apply (int_float_distinct n f' r r').
  - exfalso. cbn [dumps] in H. symmetry in H.
    now apply (int_float_distinct n' f r' r).
  - cbn [dumps] in H.
    apply float_repr_readable in H as [<- <-]; auto.
  - cbn [dumps] in H. apply encode_str_readable in H as [<- <-]. now split.
  - cbn [dumps] in H. rewrite !append_assoc, !append_cons, !append_nil in H.
    injection H as H. cbn [floats_wf] in Hwf, Hwf'.
    apply forallb_Forall in Hwf, Hwf'.
    apply (seq_readable dumps (fun x x' => canon x = canon x')
             (fun x => floats_wf x = true)) in H as [HF Hrest]; auto.
    + split; [|exact Hrest]. cbn [canon]. f_equal.
      now apply Forall2_map_eq.
    + intros x t Hx. apply (head_not_delimited _ (tag x)).
      now apply head_class_dumps.
    + apply (Forall_mp (fun x => floats_wf x = true)); [|exact Hwf].
      eapply List.Forall_impl; [|exact IH]. cbv beta.
      intros x Hx Hxwf x' t t' Hx' Ht Ht' Heq. now apply (Hx Hxwf).
  - rewrite !dumps_dict_text in H.
    rewrite !append_assoc, !append_cons, !append_nil in H.
    injection H as H. cbn [floats_wf] in Hwf, Hwf'.
    apply forallb_Forall in Hwf, Hwf'.
    apply (seq_readable (fun kv => render_item (fst kv, dumps (snd kv)))
             (fun x x' => fst x = fst x' /\ canon (snd x) = canon (snd x'))
             (fun x => floats_wf (snd x) = true)) in H as [HF Hrest];
      auto using sort_by_key_Forall.
    + split; [|exact Hrest]. cbn [canon]. f_equal.
      rewrite !(sort_by_key_map canon).
      apply Forall2_map_eq. eapply List.Forall2_impl; [|exact HF].
      intros x x' [Hk Hv]. cbv beta. now rewrite Hk, Hv.
    + apply sort_by_key_Forall.
      apply (Forall_mp (fun x => floats_wf (snd x) = true)); [|exact Hwf].
      eapply List.Forall_impl; [|exact IH]. cbv beta.
      intros x Hx Hxwf x' t t' Hx' Ht Ht' Heq.
      unfold render_item in Heq. cbn [fst snd] in Heq.
      rewrite !append_assoc in Heq.
      apply encode_str_readable in Heq as [Hk Heq].
      apply append_cancel in Heq.
      destruct (Hx Hxwf _ _ _ Hx' Ht Ht' Heq) as [Hv Ht0]. auto.
Qed.

Lemma Forall_map_ext {A B : Type} (g h : A -> B) (l : list A) :
  Forall (fun x => g x = h x) l -> map g l = map h l.
Proof. induction 1; cbn [map]; congruence. Qed.

(** The text of a value is the text of its content. *)
Lemma dumps_canon (v : json) : dumps (canon v) = dumps v.
Proof.
  induction v as [|b|n|f|s|l IH|d IH] using json_nested_ind;
    try reflexivity.
  - cbn [canon dumps]. rewrite map_map.
    now rewrite (Forall_map_ext _ _ _ IH).
  - cbn [canon]. rewrite !dumps_dict_text.
    rewrite sort_by_key_idempotent, (sort_by_key_map canon), map_map.
    cbn [fst snd]. do 3 f_equal. apply Forall_map_ext.
    apply sort_by_key_Forall. eapply List.Forall_impl; [|exact IH].
    cbv beta. intros x Hx. cbn [fst snd]. now rewrite Hx.
Qed.

(** Two values have the same text exactly when they have the same
    content. *)
Lemma dumps_eq_iff (v v' : json) :
  floats_wf v = true -> floats_wf v' = true ->
  dumps v = dumps v' <-> canon v = canon v'.
Proof.
  intros Hwf Hwf'. split.
  - intros H.
    apply (dumps_readable v Hwf v' EmptyString EmptyString Hwf'); auto.
    now rewrite !append_nil_r.
  - intros H. now rewrite <- (dumps_canon v), H, dumps_canon.
Qed.

Lemma insert_by_key_permutation {A : Type} (x : string * A)
    (l : list (string * A)) :
  Permutation (insert_by_key x l) (x :: l).
Proof.
  induction l as [|y l IH]; [reflexivity|]. cbn [insert_by_key].
  destruct (String.ltb (fst y) (fst x)); [|reflexivity].
  rewrite IH. apply perm_swap.
Qed.

Lemma sort_by_key_permutation {A : Type} (l : list (string * A)) :
  Permutation (sort_by_key l) l.
Proof.
  induction l as [|x l IH]; [reflexivity|]. cbn [sort_by_key fold_right].
  fold (sort_by_key l). rewrite insert_by_key_permutation. now constructor.
Qed.

(** The content of a dict is its set of items, each value by its content:
    the order in which the keys were entered does not count, everything
    else does. *)
Lemma canon_dict_iff (d d' : pydict) :
  List.NoDup (map fst d) ->
  canon (JDict d) = canon (JDict d')
  <-> Permutation (map (fun kv => (fst kv, canon (snd kv))) d)
        (map (fun kv => (fst kv, canon (snd kv))) d').
Proof.
  intros Hnodup. cbn [canon]. split.
  - intros [= H].
    rewrite <- (sort_by_key_permutation (map _ d)), H.
    apply sort_by_key_permutation.
  - intros H. f_equal. apply SortFacts.sort_by_key_perm; [exact H|].
    now rewrite map_map.
Qed.

(** *** The bytes of a text *)

Lemma utf8_encode_inj (s s' : string) :
  utf8_encode s = utf8_encode s' -> s = s'.
Proof.
  revert s'. induction s as [|c s IH]; intros [|c' s'] H;
    cbn [utf8_encode] in H; cbv zeta in H.
  - reflexivity.
  - destruct (Z.of_nat (nat_of_ascii c') <? 128)%Z; discriminate.
  - destruct (Z.of_nat (nat_of_ascii c) <? 128)%Z; discriminate.
  - assert (Hc : c = c' /\ utf8_encode s = utf8_encode s').
    { pose proof (nat_ascii_bounded c) as Hb.
      pose proof (nat_ascii_bounded c') as Hb'.
      assert (Hn : Z.of_nat (nat_of_ascii c) = Z.of_nat (nat_of_ascii c')
                   -> c = c').
      { intros Hn. apply Nat2Z.inj in Hn.
        rewrite <- (ascii_nat_embedding c), Hn. apply ascii_nat_embedding. }
      destruct (Z.of_nat (nat_of_ascii c) <? 128)%Z eqn:Hlt,
               (Z.of_nat (nat_of_ascii c') <? 128)%Z eqn:Hlt';
        apply Z.ltb_lt in Hlt || apply Z.ltb_ge in Hlt;
        apply Z.ltb_lt in Hlt' || apply Z.ltb_ge in Hlt'.
      - injection H as Hh Ht. split; [now apply Hn|exact Ht].
      - exfalso. injection H as Hh _.
        pose proof (Z.div_pos (Z.of_nat (nat_of_ascii c')) 64). lia.
      - exfalso. injection H as Hh _.
        pose proof (Z.div_pos (Z.of_nat (nat_of_ascii c)) 64). lia.
      - injection H as Hq Hm Ht. split; [|exact Ht]. apply Hn.
        rewrite (Z.div_mod (Z.of_nat (nat_of_ascii c)) 64) by lia.
        rewrite (Z.div_mod (Z.of_nat (nat_of_ascii c')) 64) by lia.
        lia. }
    destruct Hc as [<- Hs]. f_equal. now apply IH.
Qed.

End TextFacts.

(* ===================================================================== *)
(** ** The cache key *)
(* ===================================================================== *)

Module CacheKeyFacts.
Import JsonDumps HexFacts CacheFacts TextFacts.

(** The text that is hashed, and the hash part of a key. *)
Definition quiz_text (quiz : pydict) : string := dumps (JDict quiz).

Definition quiz_hash (quiz : pydict) : string :=
  MD5.hexdigest (utf8_encode (quiz_text quiz)).

(** The content of a payload: its answers, whatever the order in which the
    keys were entered, at every level. *)
Definition quiz_content (quiz : pydict) : json := canon (JDict quiz).

Lemma key_parts (c : UUID) (quiz : pydict) :
  generate_cache_key c quiz = "match:" ++ uuid_str c ++ ":" ++ quiz_hash quiz.
Proof. reflexivity. Qed.

Lemma hex_word_length (w : Z) : String.length (MD5.hex_word w) = 8%nat.
Proof.
  unfold MD5.hex_word, MD5.hex_byte.
  cbv [MD5.le_bytes map String.concat].
  rewrite !append_length, !hex_digits_length. reflexivity.
Qed.

Lemma quiz_hash_length (quiz : pydict) : String.length (quiz_hash quiz) = 32%nat.
Proof.
  unfold quiz_hash, MD5.hexdigest.
  destruct (MD5.digest _) as [[[a b] c] d].
  rewrite !append_length, !hex_word_length. reflexivity.
Qed.

(** The text, and its bytes, are those of the content. *)
Lemma quiz_text_iff (q q' : pydict) :
  floats_wf (JDict q) = true -> floats_wf (JDict q') = true ->
  quiz_text q = quiz_text q' <-> quiz_content q = quiz_content q'.
Proof. intros Hq Hq'. now apply dumps_eq_iff. Qed.

Lemma quiz_bytes_iff (q q' : pydict) :
  floats_wf (JDict q) = true -> floats_wf (JDict q') = true ->
  utf8_encode (quiz_text q) = utf8_encode (quiz_text q')
  <-> quiz_content q = quiz_content q'.
Proof.
  intros Hq Hq'. rewrite <- (quiz_text_iff q q' Hq Hq'). split.
  - apply utf8_encode_inj.
  - now intros ->.
Qed.

Lemma key_same_content (c : UUID) (q q' : pydict) :
  quiz_content q = quiz_content q' ->
  generate_cache_key c q = generate_cache_key c q'.
Proof.
  unfold quiz_content. intros H. rewrite !key_parts.
  unfold quiz_hash, quiz_text.
  now rewrite <- (dumps_canon (JDict q)), <- (dumps_canon (JDict q')), H.
Qed.

Lemma key_order_independent (c : UUID) (q1 q2 : pydict) :
  List.NoDup (map fst q1) -> Permutation q1 q2 ->
  generate_cache_key c q1 = generate_cache_key c q2.
Proof.
  intros Hnodup Hperm. apply key_same_content.
  apply (canon_dict_iff q1 q2 Hnodup). now apply Permutation_map.
Qed.

(** Two keys agree exactly when client and hash agree. *)
Lemma key_eq_iff (c c' : UUID) (q q' : pydict) :
  uuid_valid c -> uuid_valid c' ->
  generate_cache_key c q = generate_cache_key c' q'
  <-> c = c' /\ quiz_hash q = quiz_hash q'.
Proof.
  intros Hc Hc'. rewrite !key_parts. split.
  - intros Heq.
    apply append_inj in Heq as [_ Heq]; [|reflexivity].
    apply append_inj in Heq as [Hid Heq]; [|now rewrite !uuid_str_length].
    apply append_inj in Heq as [_ Heq]; [|reflexivity].
    split; [now apply uuid_str_inj|exact Heq].
  - now intros [-> ->].
Qed.

Definition float_of_digits (digits : string) (decpt : Z) : pyfloat :=
  {| f_negative := false; f_digits := digits; f_decpt := decpt |}.

(** A payload with all ten factors, for each industry; the budget is 50.0
    to 150.0. *)
Definition quiz_in_industry (industry : string) : pydict := [
  ("target_countries", JList [JStr "Spain"]);
  ("cultural_goals", JList [JStr "Career transition"]);
  ("preferred_languages", JList [JStr "English"; JStr "Spanish"]);
  ("industry", JStr industry);
  ("family_status", JStr "single");
  ("previous_expat_experience", JBool false);
  ("timeline_urgency", JInt 3);
  ("budget_range", JDict [("min", JFloat (float_of_digits "5" 2));
                          ("max", JFloat (float_of_digits "15" 3))]);
  ("coaching_style", JStr "directive");
  ("specific_challenges", JList [JStr "housing"]) ].

(** The same answers entered in another order, also inside the budget. *)
Definition quiz_reordered (industry : string) : pydict := [
  ("specific_challenges", JList [JStr "housing"]);
  ("budget_range", JDict [("max", JFloat (float_of_digits "15" 3));
                          ("min", JFloat (float_of_digits "5" 2))]);
  ("industry", JStr industry);
  ("target_countries", JList [JStr "Spain"]);
  ("cultural_goals", JList [JStr "Career transition"]);
  ("preferred_languages", JList [JStr "English"; JStr "Spanish"]);
  ("family_status", JStr "single");
  ("previous_expat_experience", JBool false);
  ("timeline_urgency", JInt 3);
  ("coaching_style", JStr "directive") ].

Example quiz_text_of_scenario :
  quiz_text (quiz_in_industry "Technology")
  = "{" ++ String.concat ", " [
      quote ++ "budget_range" ++ quote ++ ": {"
        ++ quote ++ "max" ++ quote ++ ": 150.0, "
        ++ quote ++ "min" ++ quote ++ ": 50.0}";
      quote ++ "coaching_style" ++ quote ++ ": " ++ quote ++ "directive" ++ quote;
      quote ++ "cultural_goals" ++ quote ++ ": ["
        ++ quote ++ "Career transition" ++ quote ++ "]";
      quote ++ "family_status" ++ quote ++ ": " ++ quote ++ "single" ++ quote;
      quote ++ "industry" ++ quote ++ ": " ++ quote ++ "Technology" ++ quote;
      quote ++ "preferred_languages" ++ quote ++ ": ["
        ++ quote ++ "English" ++ quote ++ ", " ++ quote ++ "Spanish" ++ quote ++ "]";
      quote ++ "previous_expat_experience" ++ quote ++ ": false";
      quote ++ "specific_challenges" ++ quote ++ ": ["
        ++ quote ++ "housing" ++ quote ++ "]";
      quote ++ "target_countries" ++ quote ++ ": [" ++ quote ++ "Spain" ++ quote ++ "]";
      quote ++ "timeline_urgency" ++ quote ++ ": 3" ] ++ "}".
Proof. vm_compute. reflexivity. Qed.

Lemma quiz_content_in_industry (industry : string) :
  quiz_content (quiz_in_industry industry)
  = JDict [
      ("budget_range", JDict [("max", JFloat (float_of_digits "15" 3));
                              ("min", JFloat (float_of_digits "5" 2))]);
      ("coaching_style", JStr "directive");
      ("cultural_goals", JList [JStr "Career transition"]);
      ("family_status", JStr "single");
      ("industry", JStr industry);
      ("preferred_languages", JList [JStr "English"; JStr "Spanish"]);
      ("previous_expat_experience", JBool false);
      ("specific_challenges", JList [JStr "housing"]);
      ("target_countries", JList [JStr "Spain"]);
      ("timeline_urgency", JInt 3) ].
Proof. reflexivity. Qed.

Lemma quiz_content_reordered (industry : string) :
  quiz_content (quiz_reordered industry)
  = quiz_content (quiz_in_industry industry).
Proof. reflexivity. Qed.

Lemma quiz_industry (industry : string) :
  dict_get "industry" (quiz_in_industry industry) = Some (JStr industry).
Proof. reflexivity. Qed.

Lemma quiz_in_industry_wf (industry : string) :
  floats_wf (JDict (quiz_in_industry industry)) = true.
Proof. reflexivity. Qed.

(** An industry answer of 33 hexadecimal digits, for each number. *)
Definition industry_of (n : Z) : string := hex_digits 33 n.

Lemma industry_of_inj (n m : Z) :
  (0 <= n <= 2 ^ 128)%Z -> (0 <= m <= 2 ^ 128)%Z ->
  industry_of n = industry_of m -> n = m.
Proof.
  intros Hn Hm H. apply hex_digits_inj in H.
  change (16 ^ Z.of_nat 33)%Z with (2 ^ 132)%Z in H.
  assert (Hlt : (2 ^ 128 < 2 ^ 132)%Z) by (apply Z.pow_lt_mono_r; lia).
  now rewrite !Z.mod_small in H by lia.
Qed.

End CacheKeyFacts.

(** C3 (amended). [generate_cache_key c q] is "match:<client_id>:<hash>",
    the hash being the 32-character MD5 hexdigest of the bytes of the
    key-sorted JSON text of the payload.  The text, and its bytes, are
    those of the content: two payloads have the same text exactly when
    they have the same answers, the order of the keys set aside at every
    level, so the same content gives the same key, and a different content
    gives a different text.  Two keys are equal exactly when the clients
    and the two digests are equal; hence two payloads of different content
    get the same key only for the same client and when their two different
    byte strings have the same MD5 digest. *)
Theorem cache_key_is_canonical (c c' : UUID) (q q' : pydict) :
  uuid_valid c -> uuid_valid c' ->
  TextFacts.floats_wf (JDict q) = true ->
  TextFacts.floats_wf (JDict q') = true ->
  generate_cache_key c q
  = "match:" ++ uuid_str c ++ ":"
    ++ MD5.hexdigest (utf8_encode (JsonDumps.dumps (JDict q)))
  /\ String.length (MD5.hexdigest (utf8_encode (JsonDumps.dumps (JDict q))))
     = 32%nat
  /\ (List.NoDup (map fst q) -> Permutation q q' ->
      generate_cache_key c q = generate_cache_key c q')
  /\ (CacheKeyFacts.quiz_content q = CacheKeyFacts.quiz_content q' ->
      generate_cache_key c q = generate_cache_key c q')
  /\ (JsonDumps.dumps (JDict q) = JsonDumps.dumps (JDict q')
      <-> CacheKeyFacts.quiz_content q = CacheKeyFacts.quiz_content q')
  /\ (utf8_encode (JsonDumps.dumps (JDict q))
      = utf8_encode (JsonDumps.dumps (JDict q'))
      <-> CacheKeyFacts.quiz_content q = CacheKeyFacts.quiz_content q')
  /\ (generate_cache_key c q = generate_cache_key c' q'
      <-> c = c'
          /\ MD5.hexdigest (utf8_encode (JsonDumps.dumps (JDict q)))
             = MD5.hexdigest (utf8_encode (JsonDumps.dumps (JDict q'))))
  /\ (CacheKeyFacts.quiz_content q <> CacheKeyFacts.quiz_content q' ->
      generate_cache_key c q = generate_cache_key c' q' ->
      c = c'
      /\ utf8_encode (JsonDumps.dumps (JDict q))
         <> utf8_encode (JsonDumps.dumps (JDict q'))
      /\ MD5.hexdigest (utf8_encode (JsonDumps.dumps (JDict q)))
         = MD5.hexdigest (utf8_encode (JsonDumps.dumps (JDict q')))).
Proof.
  intros Hc Hc' Hq Hq'.
  split; [reflexivity|].
  split; [apply CacheKeyFacts.quiz_hash_length|].
  split; [apply CacheKeyFacts.key_order_independent|].
  split; [apply CacheKeyFacts.key_same_content|].
  split; [now apply CacheKeyFacts.quiz_text_iff|].
  split; [now apply CacheKeyFacts.quiz_bytes_iff|].
  split; [now apply CacheKeyFacts.key_eq_iff|].
  intros Hne Hkey.
  apply (CacheKeyFacts.key_eq_iff c c' q q' Hc Hc') in Hkey as [Hcc Hhash].
  split; [exact Hcc|]. split; [|exact Hhash].
  intros Hbytes. apply Hne.
  now apply (CacheKeyFacts.quiz_bytes_iff q q' Hq Hq').
Qed.

(** The same answers entered in another order, at the top level and inside
    the budget range, lead to the same key; another industry answer gives
    another text. *)
Lemma cache_key_is_canonical_witness :
  generate_cache_key 255%Z (CacheKeyFacts.quiz_in_industry "Technology")
  = generate_cache_key 255%Z (CacheKeyFacts.quiz_reordered "Technology")
  /\ JsonDumps.dumps (JDict (CacheKeyFacts.quiz_in_industry "Technology"))
     <> JsonDumps.dumps (JDict (CacheKeyFacts.quiz_in_industry "Finance")).
Proof.
  assert (Hid : uuid_valid 255%Z) by (unfold uuid_valid; lia).
  split.
  - destruct (cache_key_is_canonical 255%Z 255%Z
                (CacheKeyFacts.quiz_in_industry "Technology")
                (CacheKeyFacts.quiz_reordered "Technology")
                Hid Hid eq_refl eq_refl) as (_ & _ & _ & Hsame & _).
    apply Hsame. reflexivity.
  - destruct (cache_key_is_canonical 255%Z 255%Z
                (CacheKeyFacts.quiz_in_industry "Technology")
                (CacheKeyFacts.quiz_in_industry "Finance")
                Hid Hid eq_refl eq_refl) as (_ & _ & _ & _ & Htext & _).
    intros H. apply Htext in H.
    rewrite !CacheKeyFacts.quiz_content_in_industry in H. discriminate.
Defined.

(** C3, as stated, fails: MD5 has 2^128 values, so among the 2^128 + 1
    payloads that differ only in the industry answer, a string of 33
    hexadecimal digits, two of different content have the same hash,
    hence the same key for the same client. *)
Lemma changed_quiz_same_key :
  exists n m : Z,
    (0 <= n < m)%Z /\ (m <= 2 ^ 128)%Z
    /\ dict_get "industry"
         (CacheKeyFacts.quiz_in_industry (CacheKeyFacts.industry_of n))
       <> dict_get "industry"
            (CacheKeyFacts.quiz_in_industry (CacheKeyFacts.industry_of m))
    /\ CacheKeyFacts.quiz_content
         (CacheKeyFacts.quiz_in_industry (CacheKeyFacts.industry_of n))
       <> CacheKeyFacts.quiz_content
            (CacheKeyFacts.quiz_in_industry (CacheKeyFacts.industry_of m))
    /\ generate_cache_key 255%Z
         (CacheKeyFacts.quiz_in_industry (CacheKeyFacts.industry_of n))
       = generate_cache_key 255%Z
           (CacheKeyFacts.quiz_in_industry (CacheKeyFacts.industry_of m)).
Proof.
  destruct (DigestFacts.digest_collision
              (fun i => utf8_encode
                          (JsonDumps.dumps
                             (JDict (CacheKeyFacts.quiz_in_industry
                                       (CacheKeyFacts.industry_of
                                          (Z.of_nat i)))))))
    as (i & j & Hij & Hhash).
  exists (Z.of_nat i), (Z.of_nat j).
  assert (Hj : (Z.of_nat j <= 2 ^ 128)%Z).
  { rewrite <- (Z2Nat.id (2 ^ 128)) by lia. lia. }
  assert (Hne : CacheKeyFacts.industry_of (Z.of_nat i)
                <> CacheKeyFacts.industry_of (Z.of_nat j)).
  { intros H. apply CacheKeyFacts.industry_of_inj in H; lia. }
  split; [lia|]. split; [exact Hj|]. split; [|split].
  - rewrite !CacheKeyFacts.quiz_industry. congruence.
  - rewrite !CacheKeyFacts.quiz_content_in_industry. congruence.
  - rewrite !CacheKeyFacts.key_parts.
    unfold CacheKeyFacts.quiz_hash, CacheKeyFacts.quiz_text.
    now rewrite Hhash.
Qed.

Local Open Scope R_scope.

(* ===================================================================== *)
(** ** A worked request *)
(* ===================================================================== *)

Lemma float_or_set (r d : R) : r <> 0 -> float_or (Some r) d = r.
Proof. intros H. unfold float_or. now destruct (Req_dec_T r 0). Qed.

(** [round(x, 2)] leaves a number of hundredths unchanged. *)
Lemma py_round2_hundredths (x : R) (z : Z) :
  x * 100 = IZR z -> py_round2 x = IZR z / 100.
Proof.
  intros Hx. unfold py_round2, round_half_even. rewrite Hx, ZfloorZ.
  destruct (Rlt_dec (IZR z - IZR z) (1 / 2)); [reflexivity|lra].
Qed.

(** The quiz payload of scenario A, with a budget ceiling [budget_max]. *)
Definition quiz_with_budget (budget_max : Z) : pydict := [
  ("target_countries", JList [JStr "Spain"]);
  ("cultural_goals", JList [JStr "Career transition"]);
  ("preferred_languages", JList [JStr "English"; JStr "Spanish"]);
  ("industry", JStr "Technology");
  ("family_status", JStr "single");
  ("previous_expat_experience", JBool false);
  ("timeline_urgency", JInt 3);
  ("budget_range", JDict [("min", JInt 0); ("max", JInt budget_max)]);
  ("coaching_style", JStr "directive");
  ("specific_challenges", JList [JStr "housing"]) ].

Definition client_with_budget (budget_max : Z) : ClientProfile := {|
  client_user_id := 255%Z;
  client_timezone := None;
  quiz_data := quiz_with_budget budget_max
|}.

Definition client_user : User := {| user_id := 255%Z; role := "client" |}.

Definition coach_ana : CoachProfile := {|
  coach_id := 1%Z;
  coach_user_id := 17%Z;
  first_name := Some "Ana";
  last_name := None;
  photo_url := None;
  bio := None;
  expertise := Some ["housing"; "career"; "TRANSITION"];
  languages := Some ["Spanish"];
  countries := Some ["Spain"];
  hourly_rate := Some 100;
  currency := Some "EUR";
  availability := None;
  rating := Some (45 / 10);
  total_sessions := Some 12%Z;
  is_verified := Some true
|}.

Definition coach_ben : CoachProfile := {|
  coach_id := 2%Z;
  coach_user_id := 18%Z;
  first_name := Some "Ben";
  last_name := None;
  photo_url := None;
  bio := None;
  expertise := Some ["taxes"];
  languages := Some ["French"];
  countries := Some ["Japan"];
  hourly_rate := Some 200;
  currency := Some "USD";
  availability := None;
  rating := Some (48 / 10);
  total_sessions := Some 3%Z;
  is_verified := Some true
|}.

(** A repository holding Ben (rated 4.8) and Ana (rated 4.5), no embedding
    client, no overrun. *)
Definition two_coach_service : MatchingService := {|
  get_active_coaches :=
    fun n => Ok (firstn (Z.to_nat n) [coach_ben; coach_ana]);
  embeddings := {| openai_client := None |};
  scoring_timed_out := fun _ => false
|}.

(** What [normalize_client_data] makes of that profile. *)
Definition client_data_with_budget (budget_max : Z) : ClientData := {|
  cd_languages := ["English"; "Spanish"];
  cd_countries := ["Spain"];
  cd_goals := ["Career transition"];
  cd_challenges := ["housing"];
  cd_industry := JStr "Technology";
  cd_coaching_style := JStr "directive";
  cd_budget_min := JInt 0;
  cd_budget_max := IZR budget_max;
  cd_timeline_urgency := JInt 3;
  cd_previous_experience := JBool false;
  cd_family_status := JStr "single";
  cd_timezone := "UTC"
|}.

Definition normalized_with_budget (budget_max : Z) : NormalizedClient := {|
  nc_languages := JList [JStr "English"; JStr "Spanish"];
  nc_countries := JList [JStr "Spain"];
  nc_goals := JList [JStr "Career transition"];
  nc_challenges := JList [JStr "housing"];
  nc_industry := JStr "Technology";
  nc_coaching_style := JStr "directive";
  nc_budget_min := JInt 0;
  nc_budget_max := JInt budget_max;
  nc_timeline_urgency := JInt 3;
  nc_previous_experience := JBool false;
  nc_family_status := JStr "single";
  nc_timezone := "UTC"
|}.

Lemma normalize_client_with_budget (budget_max : Z) :
  normalize_client_data (client_with_budget budget_max)
  = Ok (normalized_with_budget budget_max).
Proof. reflexivity. Qed.

(** Its entries have the annotated types. *)
Lemma typed_with_budget (budget_max : Z) :
  Untyped.typed (normalized_with_budget budget_max)
  = Some (client_data_with_budget budget_max).
Proof. reflexivity. Qed.

Lemma match_score_with_budget (budget_max : Z) (coach_data : CoachData) :
  Untyped.calculate_match_score {| openai_client := None |}
    (normalized_with_budget budget_max) coach_data
  = calculate_match_score {| openai_client := None |}
      (client_data_with_budget budget_max) coach_data.
Proof. apply UntypedFacts.match_score_typed, typed_with_budget. Qed.

Lemma normalize_coach_ana : normalize_coach_data coach_ana = scenario_a_coach.
Proof.
  unfold normalize_coach_data, coach_ana. cbn -[float_or].
  now rewrite !float_or_set by lra.
Qed.

Definition ben_data : CoachData := {|
  co_languages := ["French"];
  co_countries := ["Japan"];
  co_expertise := ["taxes"];
  co_hourly_rate := 200;
  co_rating := 48 / 10;
  co_total_sessions := 3;
  co_is_verified := Some true;
  co_availability := JDict []
|}.

Lemma normalize_coach_ben : normalize_coach_data coach_ben = ben_data.
Proof.
  unfold normalize_coach_data, coach_ben. cbn -[float_or].
  now rewrite !float_or_set by lra.
Qed.

Lemma keyword_overlap_none :
  keyword_overlap "Career transition housing" "taxes" = 0.
Proof.
  unfold keyword_overlap.
  rewrite (jaccard_eval _ _ 0 3) by (vm_compute; reflexivity).
  simpl. lra.
Qed.

Lemma score_of_ana :
  calculate_match_score {| openai_client := None |}
    (client_data_with_budget 150) (normalize_coach_data coach_ana)
  = Ok (825 / 10).
Proof.
  rewrite normalize_coach_ana.
  assert (Hb : calculate_budget_score
                 (cd_budget_max (client_data_with_budget 150)) 100 = Ok 1).
  { apply budget_score_within. simpl. lra. }
  rewrite (match_score_weighted _ (client_data_with_budget 150)
             scenario_a_coach 1 1 scenario_a_goal Hb).
  cbn [cd_languages cd_countries cd_timezone co_languages co_countries
       co_availability client_data_with_budget scenario_a_coach].
  rewrite scenario_a_language, scenario_a_country, availability_score_values.
  cbn [truthy]. unfold weighted_total. f_equal. rewrite Rmin_left; lra.
Qed.

Lemma score_of_ben :
  calculate_match_score {| openai_client := None |}
    (client_data_with_budget 150) (normalize_coach_data coach_ben)
  = Ok 5.
Proof.
  rewrite normalize_coach_ben.
  assert (Hg : calculate_goal_expertise_score {| openai_client := None |}
                 (cd_goals (client_data_with_budget 150))
                 (cd_challenges (client_data_with_budget 150))
                 ["taxes"] = Ok 0).
  { rewrite goal_score_unconfigured. f_equal. exact keyword_overlap_none. }
  assert (Hb : calculate_budget_score
                 (cd_budget_max (client_data_with_budget 150)) 200 = Ok 0).
  { simpl. rewrite (budget_score_over 150 200) by lra.
    destruct (Rle_dec (200 - 150) (2 / 10 * 150)); [lra|reflexivity]. }
  rewrite (match_score_weighted _ (client_data_with_budget 150) ben_data 0 0
             Hg Hb).
  cbn [cd_languages cd_countries cd_timezone co_languages co_countries
       co_availability client_data_with_budget ben_data].
  assert (Hl : calculate_language_score ["English"; "Spanish"] ["French"] = 0).
  { rewrite language_score_nonempty by discriminate.
    rewrite (jaccard_eval _ _ 0 2) by (vm_compute; reflexivity).
    simpl. lra. }
  rewrite Hl, (proj2 disjoint_language_score), availability_score_values.
  cbn [truthy]. unfold weighted_total. f_equal. rewrite Rmin_left; lra.
Qed.

Definition ben_entry : MatchEntry := match_entry coach_ben 5 5.
Definition ana_entry : MatchEntry := match_entry coach_ana (825 / 10) (825 / 10).

Lemma score_two_coaches :
  score_coaches two_coach_service (normalized_with_budget 150)
    [coach_ben; coach_ana] = Ok [ben_entry; ana_entry].
Proof.
  cbn [score_coaches two_coach_service scoring_timed_out embeddings].
  rewrite !match_score_with_budget, score_of_ben, score_of_ana.
  cbn [bind].
  rewrite (py_round2_hundredths 5 500) by lra.
  rewrite (py_round2_hundredths (825 / 10) 8250) by lra.
  replace (IZR 500 / 100) with 5 by lra.
  replace (IZR 8250 / 100) with (825 / 10) by lra.
  reflexivity.
Qed.

Lemma sort_two_coaches : sort_desc [ben_entry; ana_entry] = [ana_entry; ben_entry].
Proof.
  unfold sort_desc, fold_right, insert_desc.
  assert (Hk : key_ltb (sort_key ben_entry) (sort_key ana_entry) = true).
  { unfold key_ltb, sort_key. simpl.
    destruct (Rlt_dec 5 (825 / 10)); [reflexivity|lra]. }
  now rewrite Hk.
Qed.

(** The ranked answer: Ana (82.5) before Ben (5.0), although the repository
    lists Ben first. *)
Lemma find_matches_two_coaches :
  find_matches two_coach_service (client_with_budget 150) 10
  = Ok [match_entry coach_ana (825 / 10) (825 / 10);
        match_entry coach_ben 5 5].
Proof.
  unfold find_matches.
  rewrite (rank_matches_result two_coach_service (client_with_budget 150) 10
             (normalized_with_budget 150) [coach_ben; coach_ana]
             [ben_entry; ana_entry] (normalize_client_with_budget 150)
             eq_refl score_two_coaches).
  rewrite sort_two_coaches. reflexivity.
Qed.

(** With a limit of one, only Ana is returned. *)
Lemma find_matches_ranked_and_truncated_witness :
  find_matches two_coach_service (client_with_budget 150) 1 = Ok [ana_entry]
  /\ outranks ana_entry ben_entry.
Proof.
  assert (Hlimit : (1 <= 1 <= 50)%Z) by lia.
  destruct (find_matches_ranked_and_truncated two_coach_service
              (client_with_budget 150) 1 Hlimit) as [Hranking _].
  destruct (Hranking (normalized_with_budget 150) [coach_ben; coach_ana]
              [ben_entry; ana_entry] (normalize_client_with_budget 150)
              eq_refl score_two_coaches)
    as (Hfind & _ & _ & _ & _ & Hout).
  rewrite sort_two_coaches in Hfind, Hout.
  split; [exact Hfind|].
  apply Hout; now left.
Defined.

(** *** A coach without a rating

    The quiz of scenario A as the API stores it, with float budget bounds,
    here both 0.0. *)
Definition float_zero : pyfloat :=
  {| f_negative := false; f_digits := "0"; f_decpt := 1 |}.

Definition quiz_without_budget : pydict := [
  ("target_countries", JList [JStr "Spain"]);
  ("cultural_goals", JList [JStr "Career transition"]);
  ("preferred_languages", JList [JStr "English"; JStr "Spanish"]);
  ("industry", JStr "Technology");
  ("family_status", JStr "single");
  ("previous_expat_experience", JBool false);
  ("timeline_urgency", JInt 3);
  ("budget_range", JDict [("min", JFloat float_zero); ("max", JFloat float_zero)]);
  ("coaching_style", JStr "directive");
  ("specific_challenges", JList [JStr "housing"]) ].

Definition client_without_budget : ClientProfile := {|
  client_user_id := 255%Z;
  client_timezone := None;
  quiz_data := quiz_without_budget
|}.

(** A verified coach whose rating column is NULL. *)
Definition coach_new : CoachProfile := {|
  coach_id := 3%Z;
  coach_user_id := 19%Z;
  first_name := Some "Noa";
  last_name := None;
  photo_url := None;
  bio := None;
  expertise := Some ["housing"];
  languages := Some ["Spanish"];
  countries := Some ["Spain"];
  hourly_rate := Some 80;
  currency := Some "EUR";
  availability := None;
  rating := None;
  total_sessions := Some 0%Z;
  is_verified := Some true
|}.

(** The table holds Ben (rated 4.8) and then the unrated coach; both users
    are active. *)
Definition rated_and_unrated : list CoachRow := [
  {| row_coach := coach_ben; row_user_active := true |};
  {| row_coach := coach_new; row_user_active := true |} ].

Definition database_service : MatchingService :=
  service_over rated_and_unrated {| openai_client := None |} (fun _ => false).

Lemma float_zero_value : float_value float_zero = 0.
Proof.
  unfold float_value, float_zero. cbn [f_negative f_digits f_decpt].
  change (PyFloat.digits_value "0") with 0%Z. apply Rmult_0_l.
Qed.

(** The database lists the unrated coach first. *)
Lemma query_rated_and_unrated (limit : Z) :
  (2 <= limit)%Z ->
  query_active_coaches rated_and_unrated 0 limit = Ok [coach_new; coach_ben].
Proof.
  intros Hl. unfold query_active_coaches.
  destruct (Z.ltb_spec limit 0) as [Hneg|_]; [lia|].
  cbn [orb Z.ltb Z.compare]. f_equal.
  change (Z.to_nat 0) with 0%nat. rewrite drop_0.
  replace (order_by_rating
             (map row_coach
                (filter (fun row => row_selected row = true) rated_and_unrated)))
    with [coach_new; coach_ben] by reflexivity.
  destruct (Z.to_nat limit) as [|[|n]] eqn:Hn; [lia|lia|now destruct n].
Qed.

Lemma rank_matches_without_budget (limit : Z) :
  rank_matches database_service client_without_budget limit
  = Raise ZeroDivisionError.
Proof.
  unfold rank_matches.
  replace (normalize_client_data client_without_budget)
    with (Ok {| nc_languages := JList [JStr "English"; JStr "Spanish"];
                nc_countries := JList [JStr "Spain"];
                nc_goals := JList [JStr "Career transition"];
                nc_challenges := JList [JStr "housing"];
                nc_industry := JStr "Technology";
                nc_coaching_style := JStr "directive";
                nc_budget_min := JFloat float_zero;
                nc_budget_max := JFloat float_zero;
                nc_timeline_urgency := JInt 3;
                nc_previous_experience := JBool false;
                nc_family_status := JStr "single";
                nc_timezone := "UTC" |}) by reflexivity.
  cbn [bind database_service service_over get_active_coaches].
  rewrite query_rated_and_unrated by lia.
  cbn [bind is_nil score_coaches scoring_timed_out embeddings
       database_service service_over].
  set (client := {| nc_languages := _ |}).
  assert (Hscore : Untyped.calculate_match_score {| openai_client := None |}
                     client (normalize_coach_data coach_new)
                   = Raise ZeroDivisionError).
  { unfold Untyped.calculate_match_score, client.
    cbn [nc_languages nc_countries nc_goals nc_challenges nc_budget_max
         co_languages co_countries co_expertise co_hourly_rate
         normalize_coach_data coach_new languages countries expertise
         hourly_rate or_nil].
    change (JList [JStr "English"; JStr "Spanish"])
      with (JList (map JStr ["English"; "Spanish"])).
    change (JList [JStr "Spain"]) with (JList (map JStr ["Spain"])).
    change (JList [JStr "Career transition"])
      with (JList (map JStr ["Career transition"])).
    change (JList [JStr "housing"]) with (JList (map JStr ["housing"])).
    rewrite UntypedFacts.language_score_typed,
      UntypedFacts.country_score_typed, UntypedFacts.goal_score_typed,
      goal_score_unconfigured.
    cbn [bind]. rewrite float_or_set by lra.
    unfold Untyped.calculate_budget_score. cbn [as_number bind].
    rewrite float_zero_value. unfold py_div.
    destruct (Rle_dec 80 0); [lra|].
    destruct (Req_dec_T 0 0); [|lra].
    destruct (Rle_dec 80 0); [lra|reflexivity]. }
  now rewrite Hscore.
Qed.

(** C7. The list [find_matches] returns is not always in descending order
    of (match_score, rating): when the ranking path raises (here the
    scoring of a client whose budget ceiling is 0.0), [find_matches]
    returns the answer of the fallback query as it comes, and the database
    ([ORDER BY rating DESC], NULL first) puts the coach without a rating
    before the rated one; the two entries have equal scores and show the
    ratings 0.0 and 4.8, in that order. *)
Theorem find_matches_fallback_unranked :
  find_matches database_service client_without_budget 10
  = Ok [match_entry coach_new 0 0; match_entry coach_ben 0 0]
  /\ map m_match_score [match_entry coach_new 0 0; match_entry coach_ben 0 0]
     = [0; 0]
  /\ map m_rating [match_entry coach_new 0 0; match_entry coach_ben 0 0]
     = [0; 48 / 10]
  /\ ~ ranked [match_entry coach_new 0 0; match_entry coach_ben 0 0].
Proof.
  split; [|split; [|split]].
  - unfold find_matches. rewrite rank_matches_without_budget.
    cbn [try_except]. unfold get_fallback_matches.
    cbn [database_service service_over get_active_coaches].
    now rewrite query_rated_and_unrated by lia.
  - reflexivity.
  - cbn [map m_rating match_entry coach_new coach_ben rating float_or].
    destruct (Req_dec_T (48 / 10) 0); [lra|reflexivity].
  - intros Hranked. apply StronglySorted_inv in Hranked as [_ Hfirst].
    apply Forall_cons in Hfirst as [Hout _].
    unfold outranks in Hout.
    cbn [m_match_score m_rating match_entry coach_new coach_ben rating
         float_or] in Hout.
    destruct (Req_dec_T (48 / 10) 0); lra.
Qed.

(* ===================================================================== *)
(** ** The fallback provider *)
(* ===================================================================== *)

(** Fallback entries carry no score, and the list is a function of the
    repository's answer alone: no client enters [get_fallback_matches]. *)
Lemma fallback_scores_zero (self : MatchingService) (limit : Z)
    (ms : list MatchEntry) :
  get_fallback_matches self limit = Ok ms ->
  Forall (fun m => m_match_score m = 0 /\ m_confidence_score m = 0) ms.
Proof.
  unfold get_fallback_matches.
  destruct (get_active_coaches self limit) as [cs|e]; simpl; [|discriminate].
  intros [= <-]. apply List.Forall_forall. intros m Hm.
  apply List.in_map_iff in Hm as (c & <- & _). now split.
Qed.

Lemma find_matches_degrades (self : MatchingService) (client : ClientProfile)
    (limit : Z) (e : exn) :
  rank_matches self client limit = Raise e ->
  find_matches self client limit = get_fallback_matches self limit.
Proof. intros H. unfold find_matches. now rewrite H. Qed.

Lemma find_matches_raises (self : MatchingService) (client : ClientProfile)
    (limit : Z) (e : exn) :
  find_matches self client limit = Raise e ->
  get_active_coaches self limit = Raise e.
Proof.
  unfold find_matches.
  destruct (rank_matches self client limit) as [ms|e']; simpl; [discriminate|].
  unfold get_fallback_matches.
  destruct (get_active_coaches self limit) as [cs|e'']; simpl;
    [discriminate|congruence].
Qed.

(** The scorers stop at a raising budget score. *)
Lemma match_score_budget_raises (self : EmbeddingProvider)
    (client_data : ClientData) (coach_data : CoachData) (g : R) (e : exn) :
  calculate_goal_expertise_score self (cd_goals client_data)
    (cd_challenges client_data) (co_expertise coach_data) = Ok g ->
  calculate_budget_score (cd_budget_max client_data)
    (co_hourly_rate coach_data) = Raise e ->
  calculate_match_score self client_data coach_data = Raise e.
Proof.
  intros Hg Hb. unfold calculate_match_score.
  rewrite Hg. simpl. now rewrite Hb.
Qed.

Definition empty_cache : CacheService :=
  {| redis_client := Some {| keyspace := ∅; server_up := true |};
     is_available := true |}.

(** A client whose budget ceiling is zero sends the ranking to the
    fallback. *)
Lemma rank_matches_zero_budget :
  rank_matches two_coach_service (client_with_budget 0) 10
  = Raise ZeroDivisionError.
Proof.
  unfold rank_matches. rewrite normalize_client_with_budget.
  cbn [bind two_coach_service get_active_coaches].
  replace (firstn (Z.to_nat 100) [coach_ben; coach_ana])
    with [coach_ben; coach_ana] by reflexivity.
  cbn [is_nil score_coaches scoring_timed_out embeddings two_coach_service].
  rewrite match_score_with_budget, normalize_coach_ben.
  rewrite (match_score_budget_raises _ (client_data_with_budget 0) ben_data
             (keyword_overlap "Career transition housing" "taxes")
             ZeroDivisionError).
  - reflexivity.
  - now rewrite goal_score_unconfigured.
  - apply budget_score_zero_budget. simpl. lra.
Qed.

Definition fallback_of_two : list MatchEntry :=
  [match_entry coach_ben 0 0; match_entry coach_ana 0 0].

Lemma find_matches_zero_budget :
  find_matches two_coach_service (client_with_budget 0) 10 = Ok fallback_of_two.
Proof.
  rewrite (find_matches_degrades _ _ _ _ rank_matches_zero_budget).
  reflexivity.
Qed.

(** On a miss the handler stores whatever [find_matches] returned, before
    it builds the response. *)
Lemma endpoint_on_miss (matching_service : MatchingService)
    (cache_service : CacheService) (utcnow : string) (request : MatchRequest)
    (current_user : User) (client_profile : ClientProfile)
    (matches : list MatchEntry) :
  role current_user = "client" ->
  validate_quiz_data client_profile = true ->
  (if use_cache request
   then get_match_cache cache_service
          (generate_cache_key (user_id current_user) (quiz_data client_profile))
   else None) = None ->
  find_matches matching_service client_profile (limit request) = Ok matches ->
  get_coach_matches matching_service cache_service utcnow request
    current_user (Some client_profile)
  = match set_match_cache cache_service
            (generate_cache_key (user_id current_user)
               (quiz_data client_profile))
            {| cached_matches := matches;
               cached_total := length matches;
               cached_generated_at := utcnow |} 24 with
    | Ok (_, cache_service') =>
        (match match_response matches (length matches) false utcnow with
         | Some r => Response r
         | None => HTTPException 500 matching_failed
         end,
         cache_service')
    | Raise _ => (HTTPException 500 matching_failed, cache_service)
    end.
Proof.
  intros Hrole Hvalid Hmiss Hfind. unfold get_coach_matches.
  rewrite Hrole, String.eqb_refl, Hvalid. cbn [negb]. cbv zeta.
  now rewrite Hmiss, Hfind.
Qed.

Lemma endpoint_on_hit (matching_service : MatchingService)
    (cache_service : CacheService) (utcnow : string) (request : MatchRequest)
    (current_user : User) (client_profile : ClientProfile)
    (cached : CachedMatches) :
  role current_user = "client" ->
  validate_quiz_data client_profile = true ->
  use_cache request = true ->
  get_match_cache cache_service
    (generate_cache_key (user_id current_user) (quiz_data client_profile))
  = Some cached ->
  get_coach_matches matching_service cache_service utcnow request
    current_user (Some client_profile)
  = (match match_response (cached_matches cached) (cached_total cached) true
             (cached_generated_at cached) with
     | Some r => Response r
     | None => ResponseValidationError
     end,
     cache_service).
Proof.
  intros Hrole Hvalid Huse Hhit. unfold get_coach_matches.
  rewrite Hrole, String.eqb_refl, Hvalid. cbn [negb]. cbv zeta.
  now rewrite Huse, Hhit.
Qed.

(** A service with no usable client, or whose server answers. *)
Definition writes_return (cache_service : CacheService) : Prop :=
  forall client, usable_client cache_service = Some client ->
                 server_up client = true.

(** A time to live [CacheService.set] can store. *)
Definition ttl_accepted (ttl_seconds : Z) : Prop :=
  (0 < ttl_seconds <= timedelta_max_seconds)%Z.

Lemma ttl_accepted_test (ttl_seconds : Z) :
  ttl_accepted ttl_seconds ->
  ((0 <? ttl_seconds) && (ttl_seconds <=? timedelta_max_seconds))%Z = true.
Proof.
  intros [H0 Hmax]. apply andb_true_iff. split; [lia|].
  now apply Z.leb_le.
Qed.

Lemma day_accepted : ttl_accepted (24 * 3600).
Proof. unfold ttl_accepted, timedelta_max_seconds. lia. Qed.

Lemma set_returns (cache_service : CacheService) (key : string)
    (value : CachedMatches) (ttl_hours : Z) :
  writes_return cache_service ->
  ttl_accepted (ttl_hours * 3600) ->
  exists stored cache_service',
    set_match_cache cache_service key value ttl_hours
    = Ok (stored, cache_service').
Proof.
  intros Hw Httl. unfold set_match_cache, cache_set.
  unfold writes_return in Hw.
  destruct (usable_client cache_service) as [client|]; [|now eexists _, _].
  rewrite (Hw client eq_refl), (ttl_accepted_test _ Httl). now eexists _, _.
Qed.

(** The handler of [CacheService.set] turns a server that does not answer
    into an [AttributeError]. *)
Lemma set_raises (cache_service : CacheService) (client : RedisClient)
    (key : string) (value : CachedMatches) (ttl_hours : Z) :
  usable_client cache_service = Some client -> server_up client = false ->
  set_match_cache cache_service key value ttl_hours = Raise AttributeError.
Proof.
  intros Hu Hdown. unfold set_match_cache, cache_set. rewrite Hu, Hdown.
  now rewrite andb_false_r.
Qed.

Lemma set_then_get (cache_service : CacheService) (db : Redis.store)
    (key : string) (value : CachedMatches) (ttl_hours : Z) :
  connected cache_service = Some db ->
  ttl_accepted (ttl_hours * 3600) ->
  exists cache_service',
    set_match_cache cache_service key value ttl_hours = Ok (true, cache_service')
    /\ get_match_cache cache_service' key = Some value.
Proof.
  intros Hc Httl.
  destruct (CacheFacts.connected_client cache_service db Hc)
    as (client & Hu & Hup & <-).
  unfold set_match_cache, cache_set.
  rewrite Hu, Hup, (ttl_accepted_test _ Httl).
  eexists. split; [reflexivity|].
  unfold get_match_cache, cache_get, usable_client, with_keyspace.
  cbn [is_available redis_client server_up keyspace].
  rewrite (CacheFacts.usable_available cache_service client Hu).
  cbn [server_up keyspace]. unfold Redis.store. now rewrite lookup_insert_eq.
Qed.

Definition response_scores (r : handler_result) : option (bool * list R) :=
  match r with
  | Response resp => Some (resp_cached resp, map r_match_score (resp_matches resp))
  | _ => None
  end.

(** C8. The fallback list that [find_matches] substitutes after an error in
    scoring is written to the cache like any other result: for a client
    whose budget ceiling is 0 the ranking raises, the handler answers with
    the zero-scored fallback entries and stores them under the client's key,
    and the next request is served that list from the cache. *)
Theorem fallback_results_are_cached :
  let request := default_request in
  let client := client_with_budget 0 in
  let key := generate_cache_key 255%Z (quiz_data client) in
  let first := get_coach_matches two_coach_service empty_cache "t1" request
                 client_user (Some client) in
  let second := get_coach_matches two_coach_service (snd first) "t2" request
                  client_user (Some client) in
  rank_matches two_coach_service client (limit request)
  = Raise ZeroDivisionError
  /\ get_fallback_matches two_coach_service (limit request) = Ok fallback_of_two
  /\ response_scores (fst first) = Some (false, [0; 0])
  /\ get_match_cache (snd first) key
     = Some {| cached_matches := fallback_of_two;
               cached_total := 2;
               cached_generated_at := "t1" |}
  /\ response_scores (fst second) = Some (true, [0; 0]).
Proof.
  cbv zeta.
  assert (Hvalid : validate_quiz_data (client_with_budget 0) = true)
    by reflexivity.
  assert (Hfirst := endpoint_on_miss two_coach_service empty_cache "t1"
                      default_request client_user (client_with_budget 0)
                      fallback_of_two eq_refl Hvalid eq_refl
                      find_matches_zero_budget).
  change (user_id client_user) with 255%Z in Hfirst.
  destruct (set_then_get empty_cache ∅
              (generate_cache_key 255%Z (quiz_data (client_with_budget 0)))
              {| cached_matches := fallback_of_two;
                 cached_total := length fallback_of_two;
                 cached_generated_at := "t1" |} 24 eq_refl day_accepted)
    as (stored & Hset & Hget).
  rewrite Hset in Hfirst.
  split; [exact rank_matches_zero_budget|].
  split; [reflexivity|].
  split; [now rewrite Hfirst|].
  rewrite Hfirst. cbn [snd].
  split; [exact Hget|].
  rewrite (endpoint_on_hit two_coach_service stored "t2" default_request
             client_user (client_with_budget 0) _ eq_refl Hvalid eq_refl Hget).
  reflexivity.
Qed.

(* ===================================================================== *)
(** ** The validation gate of the endpoint *)
(* ===================================================================== *)

Lemma validate_quiz_data_false (client_profile : ClientProfile) :
  validate_quiz_data client_profile = false
  <-> quiz_data client_profile = []
      \/ exists field, In field required_fields
                       /\ dict_get field (quiz_data client_profile) = None.
Proof.
  unfold validate_quiz_data.
  destruct (is_nil (quiz_data client_profile)) eqn:Hnil.
  { apply is_nil_true in Hnil. split; [now left|reflexivity]. }
  apply is_nil_false in Hnil.
  rewrite <- not_true_iff_false, List.forallb_forall. split.
  - intros Hnot.
    destruct (List.existsb (fun field => negb (dict_has field (quiz_data client_profile)))
                required_fields) eqn:Hex.
    + apply List.existsb_exists in Hex as (field & Hin & Hmissing).
      right. exists field. split; [exact Hin|].
      unfold dict_has in Hmissing.
      now destruct (dict_get field (quiz_data client_profile)).
    + exfalso. apply Hnot. intros field Hin.
      destruct (dict_has field (quiz_data client_profile)) eqn:Hhas;
        [reflexivity|].
      assert (Hex' : List.existsb
                       (fun field => negb (dict_has field (quiz_data client_profile)))
                       required_fields = true).
      { apply List.existsb_exists. exists field. now rewrite Hhas. }
      congruence.
  - intros [Hempty|(field & Hin & Hnone)] Hall; [contradiction|].
    specialize (Hall field Hin). unfold dict_has in Hall.
    now rewrite Hnone in Hall.
Qed.

Lemma endpoint_rejects_incomplete (matching_service : MatchingService)
    (cache_service : CacheService) (utcnow : string) (request : MatchRequest)
    (current_user : User) (client_profile : ClientProfile) :
  role current_user = "client" ->
  validate_quiz_data client_profile = false ->
  get_coach_matches matching_service cache_service utcnow request
    current_user (Some client_profile)
  = (HTTPException 400 incomplete_quiz, cache_service).
Proof.
  intros Hrole Hinvalid. unfold get_coach_matches.
  now rewrite Hrole, String.eqb_refl, Hinvalid.
Qed.

Lemma endpoint_past_validation (matching_service : MatchingService)
    (cache_service : CacheService) (utcnow : string) (request : MatchRequest)
    (current_user : User) (client_profile : ClientProfile) :
  role current_user = "client" ->
  validate_quiz_data client_profile = true ->
  fst (get_coach_matches matching_service cache_service utcnow request
         current_user (Some client_profile))
  <> HTTPException 400 incomplete_quiz.
Proof.
  intros Hrole Hvalid. unfold get_coach_matches.
  rewrite Hrole, String.eqb_refl, Hvalid. cbn [negb]. cbv zeta.
  destruct (if use_cache request then _ else None) as [cached|].
  { cbn [fst]. now destruct (match_response _ _ _ _). }
  destruct (find_matches matching_service client_profile (limit request))
    as [ms|e].
  { destruct (set_match_cache _ _ _ _) as [[stored cache']|e];
      cbn [fst]; [|discriminate].
    now destruct (match_response _ _ _ _). }
  destruct e; cbn [fst]; try discriminate.
  destruct (get_fallback_matches matching_service (limit request));
    [|discriminate].
  now destruct (match_response _ _ _ _).
Qed.

(** A failure of [find_matches] ends the request with status 500 and leaves
    the cache as it was. *)
Lemma endpoint_on_failure (matching_service : MatchingService)
    (cache_service : CacheService) (utcnow : string) (request : MatchRequest)
    (current_user : User) (client_profile : ClientProfile) (e : exn) :
  role current_user = "client" ->
  validate_quiz_data client_profile = true ->
  (if use_cache request
   then get_match_cache cache_service
          (generate_cache_key (user_id current_user) (quiz_data client_profile))
   else None) = None ->
  find_matches matching_service client_profile (limit request) = Raise e ->
  get_coach_matches matching_service cache_service utcnow request
    current_user (Some client_profile)
  = (match e with
     | TimeoutError => Unhandled TimeoutError
     | _ => HTTPException 500 matching_failed
     end,
     cache_service).
Proof.
  intros Hrole Hvalid Hmiss Hfind.
  pose proof (find_matches_raises _ _ _ _ Hfind) as Hquery.
  unfold get_coach_matches.
  rewrite Hrole, String.eqb_refl, Hvalid. cbn [negb]. cbv zeta.
  rewrite Hmiss, Hfind.
  destruct e; try reflexivity.
  unfold get_fallback_matches. rewrite Hquery. reflexivity.
Qed.

Lemma endpoint_failure_status (matching_service : MatchingService)
    (cache_service : CacheService) (utcnow : string) (request : MatchRequest)
    (current_user : User) (client_profile : ClientProfile) (e : exn) :
  role current_user = "client" ->
  validate_quiz_data client_profile = true ->
  (if use_cache request
   then get_match_cache cache_service
          (generate_cache_key (user_id current_user) (quiz_data client_profile))
   else None) = None ->
  find_matches matching_service client_profile (limit request) = Raise e ->
  http_status
    (fst (get_coach_matches matching_service cache_service utcnow request
            current_user (Some client_profile))) = 500%Z
  /\ snd (get_coach_matches matching_service cache_service utcnow request
            current_user (Some client_profile)) = cache_service.
Proof.
  intros Hrole Hvalid Hmiss Hfind.
  rewrite (endpoint_on_failure _ _ _ _ _ _ e Hrole Hvalid Hmiss Hfind).
  now destruct e.
Qed.

(** With the fallback query answering and the cache write returning,
    [find_matches] returns and the request is answered from its result. *)
Lemma endpoint_answers (matching_service : MatchingService)
    (cache_service : CacheService) (utcnow : string) (request : MatchRequest)
    (current_user : User) (client_profile : ClientProfile)
    (coaches : list CoachProfile) :
  role current_user = "client" ->
  validate_quiz_data client_profile = true ->
  (if use_cache request
   then get_match_cache cache_service
          (generate_cache_key (user_id current_user) (quiz_data client_profile))
   else None) = None ->
  writes_return cache_service ->
  get_active_coaches matching_service (limit request) = Ok coaches ->
  exists matches,
    find_matches matching_service client_profile (limit request) = Ok matches
    /\ forall rs, coach_match_results matches = Some rs ->
         fst (get_coach_matches matching_service cache_service utcnow request
                current_user (Some client_profile))
         = Response {| resp_matches := rs;
                       resp_total_matches := length matches;
                       resp_cached := false;
                       resp_generated_at := utcnow |}.
Proof.
  intros Hrole Hvalid Hmiss Hwrites Hquery.
  destruct (find_matches matching_service client_profile (limit request))
    as [ms|e] eqn:Hfind.
  - exists ms. split; [reflexivity|]. intros rs Hrs.
    rewrite (endpoint_on_miss _ _ _ _ _ _ ms Hrole Hvalid Hmiss Hfind).
    destruct (set_returns cache_service
                (generate_cache_key (user_id current_user)
                   (quiz_data client_profile))
                {| cached_matches := ms; cached_total := length ms;
                   cached_generated_at := utcnow |} 24 Hwrites day_accepted)
      as (stored & cache' & ->).
    cbn [fst]. unfold match_response. now rewrite Hrs.
  - apply find_matches_raises in Hfind. congruence.
Qed.

(** A cache write that raises ends the request with the 500 error, the
    ranking notwithstanding. *)
Lemma endpoint_write_failure (matching_service : MatchingService)
    (cache_service : CacheService) (client : RedisClient) (utcnow : string)
    (request : MatchRequest) (current_user : User)
    (client_profile : ClientProfile) (matches : list MatchEntry) :
  role current_user = "client" ->
  validate_quiz_data client_profile = true ->
  usable_client cache_service = Some client -> server_up client = false ->
  find_matches matching_service client_profile (limit request) = Ok matches ->
  get_coach_matches matching_service cache_service utcnow request
    current_user (Some client_profile)
  = (HTTPException 500 matching_failed, cache_service).
Proof.
  intros Hrole Hvalid Hu Hdown Hfind.
  rewrite (endpoint_on_miss _ _ _ _ _ _ matches Hrole Hvalid); [|
    |exact Hfind].
  - now rewrite (set_raises cache_service client _ _ _ Hu Hdown).
  - unfold get_match_cache, cache_get. rewrite Hu, Hdown.
    now destruct (use_cache request).
Qed.

(** X10. With a cache whose server does not answer, [CacheService.set]
    does not return [False]: its handler names [json.JSONEncodeError],
    which the [json] module does not have, and raises [AttributeError];
    a request that is not served from the cache then ends with the 500
    error and the cache as it was, although [find_matches] returned. *)
Theorem cache_write_failure_fails_request (matching_service : MatchingService)
    (cache_service : CacheService) (client : RedisClient) (utcnow : string)
    (request : MatchRequest) (current_user : User)
    (client_profile : ClientProfile) (matches : list MatchEntry) :
  role current_user = "client" ->
  validate_quiz_data client_profile = true ->
  usable_client cache_service = Some client -> server_up client = false ->
  find_matches matching_service client_profile (limit request) = Ok matches ->
  set_match_cache cache_service
    (generate_cache_key (user_id current_user) (quiz_data client_profile))
    {| cached_matches := matches; cached_total := length matches;
       cached_generated_at := utcnow |} 24
  = Raise AttributeError
  /\ get_coach_matches matching_service cache_service utcnow request
       current_user (Some client_profile)
     = (HTTPException 500 matching_failed, cache_service).
Proof.
  intros Hrole Hvalid Hu Hdown Hfind. split.
  - now apply (set_raises cache_service client).
  - now apply (endpoint_write_failure _ _ client _ _ _ _ matches).
Qed.

(** A cache whose server has stopped answering. *)
Definition silent_cache : CacheService :=
  {| redis_client := Some {| keyspace := ∅; server_up := false |};
     is_available := true |}.

Lemma cache_write_failure_fails_request_witness :
  find_matches two_coach_service (client_with_budget 150) 10
  = Ok [match_entry coach_ana (825 / 10) (825 / 10);
        match_entry coach_ben 5 5]
  /\ get_coach_matches two_coach_service silent_cache "t1" default_request
       client_user (Some (client_with_budget 150))
     = (HTTPException 500 matching_failed, silent_cache).
Proof.
  split; [exact find_matches_two_coaches|].
  apply (cache_write_failure_fails_request two_coach_service silent_cache
           {| keyspace := ∅; server_up := false |} "t1" default_request
           client_user (client_with_budget 150)
           [match_entry coach_ana (825 / 10) (825 / 10);
            match_entry coach_ben 5 5]);
    try reflexivity.
  exact find_matches_two_coaches.
Defined.

(** When the fallback query answers, [find_matches] returns. *)
Lemma find_matches_returns (self : MatchingService) (client : ClientProfile)
    (limit : Z) (coaches : list CoachProfile) :
  get_active_coaches self limit = Ok coaches ->
  exists matches, find_matches self client limit = Ok matches.
Proof.
  intros Hquery.
  destruct (find_matches self client limit) as [ms|e] eqn:Hfind;
    [now exists ms|].
  apply find_matches_raises in Hfind. congruence.
Qed.

(** Entries that do not pass the response schema end a computed request
    with the 500 error. *)
Lemma endpoint_invalid_entries (matching_service : MatchingService)
    (cache_service : CacheService) (utcnow : string) (request : MatchRequest)
    (current_user : User) (client_profile : ClientProfile)
    (matches : list MatchEntry) :
  role current_user = "client" ->
  validate_quiz_data client_profile = true ->
  (if use_cache request
   then get_match_cache cache_service
          (generate_cache_key (user_id current_user) (quiz_data client_profile))
   else None) = None ->
  find_matches matching_service client_profile (limit request) = Ok matches ->
  coach_match_results matches = None ->
  fst (get_coach_matches matching_service cache_service utcnow request
         current_user (Some client_profile))
  = HTTPException 500 matching_failed.
Proof.
  intros Hrole Hvalid Hmiss Hfind Hrs.
  rewrite (endpoint_on_miss _ _ _ _ _ _ matches Hrole Hvalid Hmiss Hfind).
  destruct (set_match_cache _ _ _ _) as [[stored cache']|e]; [|reflexivity].
  cbn [fst]. unfold match_response. now rewrite Hrs.
Qed.

(** C4 (amended). For a client with a stored profile, the endpoint raises
    the 400 "incomplete quiz" error exactly when the quiz payload is empty
    or lacks one of the ten required factors, and then it has touched
    neither the cache nor the matching service.  With all ten factors
    present the request does not always succeed:
    - an error in the ranking path diverts to the fallback provider, and
      [find_matches] raises only what the fallback provider's repository
      query raises; when that query answers, [find_matches] returns;
    - a request served from the cache (the request asks for the cache and
      the key has an entry) is answered from the stored entry, whatever
      the matching service would do;
    - a request not served from the cache ends with status 500 and the
      cache untouched when [find_matches] raises;
    - a request not served from the cache for which [find_matches]
      returns, with a cache that is unavailable or whose server answers,
      has the returned entries as its response if they pass the response
      schema, and ends with the 500 error otherwise. *)
Theorem quiz_validation_gate (matching_service : MatchingService)
    (cache_service : CacheService) (utcnow : string) (request : MatchRequest)
    (current_user : User) (client_profile : ClientProfile) :
  role current_user = "client" ->
  let outcome := get_coach_matches matching_service cache_service utcnow
                   request current_user (Some client_profile) in
  let key :=
    generate_cache_key (user_id current_user) (quiz_data client_profile) in
  let computed :=
    (if use_cache request then get_match_cache cache_service key else None)
    = None in
  (validate_quiz_data client_profile = false
   <-> quiz_data client_profile = []
       \/ exists field, In field required_fields
                        /\ dict_get field (quiz_data client_profile) = None)
  /\ (fst outcome = HTTPException 400 incomplete_quiz
      <-> validate_quiz_data client_profile = false)
  /\ (validate_quiz_data client_profile = false ->
      forall other_service,
        get_coach_matches other_service cache_service utcnow request
          current_user (Some client_profile)
        = (HTTPException 400 incomplete_quiz, cache_service))
  /\ (forall e, rank_matches matching_service client_profile (limit request)
                = Raise e ->
        find_matches matching_service client_profile (limit request)
        = get_fallback_matches matching_service (limit request))
  /\ (forall e, find_matches matching_service client_profile (limit request)
                = Raise e ->
        get_active_coaches matching_service (limit request) = Raise e)
  /\ (forall coaches,
        get_active_coaches matching_service (limit request) = Ok coaches ->
        exists matches,
          find_matches matching_service client_profile (limit request)
          = Ok matches)
  /\ (validate_quiz_data client_profile = true ->
      forall cached,
        use_cache request = true ->
        get_match_cache cache_service key = Some cached ->
        forall other_service,
          get_coach_matches other_service cache_service utcnow request
            current_user (Some client_profile)
          = (match match_response (cached_matches cached)
                     (cached_total cached) true (cached_generated_at cached)
             with
             | Some r => Response r
             | None => ResponseValidationError
             end, cache_service))
  /\ (validate_quiz_data client_profile = true -> computed ->
      forall e, find_matches matching_service client_profile (limit request)
                = Raise e ->
        http_status (fst outcome) = 500%Z /\ snd outcome = cache_service)
  /\ (validate_quiz_data client_profile = true -> computed ->
      forall matches,
        find_matches matching_service client_profile (limit request)
        = Ok matches ->
        writes_return cache_service ->
        (forall rs, coach_match_results matches = Some rs ->
           fst outcome
           = Response {| resp_matches := rs;
                         resp_total_matches := length matches;
                         resp_cached := false;
                         resp_generated_at := utcnow |})
        /\ (coach_match_results matches = None ->
            fst outcome = HTTPException 500 matching_failed)).
Proof.
  intros Hrole outcome key computed. subst outcome key computed.
  split; [apply validate_quiz_data_false|].
  split.
  { split.
    - intros H400.
      destruct (validate_quiz_data client_profile) eqn:Hvalid; [|reflexivity].
      exfalso. revert H400. now apply endpoint_past_validation.
    - intros Hinvalid. now rewrite endpoint_rejects_incomplete. }
  split.
  { intros Hinvalid other_service. now apply endpoint_rejects_incomplete. }
  split; [intros e; apply find_matches_degrades|].
  split; [intros e; apply find_matches_raises|].
  split; [intros coaches; apply find_matches_returns|].
  split.
  { intros Hvalid cached Huse Hhit other_service.
    now apply endpoint_on_hit. }
  split.
  { intros Hvalid Hmiss e Hfind. now apply (endpoint_failure_status _ _ _ _ _ _ e). }
  intros Hvalid Hmiss matches Hfind Hwrites. split.
  - intros rs Hrs.
    rewrite (endpoint_on_miss _ _ _ _ _ _ matches Hrole Hvalid Hmiss Hfind).
    destruct (set_returns cache_service
                (generate_cache_key (user_id current_user)
                   (quiz_data client_profile))
                {| cached_matches := matches;
                   cached_total := length matches;
                   cached_generated_at := utcnow |} 24 Hwrites day_accepted)
      as (stored & cache' & ->).
    cbn [fst]. unfold match_response. now rewrite Hrs.
  - now apply endpoint_invalid_entries.
Qed.

(** A payload with a single factor is turned away with the cache intact. *)
Definition partial_client : ClientProfile := {|
  client_user_id := 255%Z;
  client_timezone := None;
  quiz_data := [("industry", JStr "Technology")]
|}.

Lemma quiz_validation_gate_witness :
  get_coach_matches two_coach_service empty_cache "t1" default_request
    client_user (Some partial_client)
  = (HTTPException 400 incomplete_quiz, empty_cache).
Proof.
  destruct (quiz_validation_gate two_coach_service empty_cache "t1"
              default_request client_user partial_client eq_refl)
    as (_ & _ & Hreject & _).
  apply Hreject. reflexivity.
Defined.

(** A repository that is down. *)
Definition failing_service : MatchingService := {|
  get_active_coaches := fun _ => Raise DatabaseError;
  embeddings := {| openai_client := None |};
  scoring_timed_out := fun _ => false
|}.

(** C4, as stated, fails: a payload with all ten factors, and the request
    ends in the 500 error because the fallback provider cannot query the
    repository either. *)
Lemma complete_quiz_request_fails :
  validate_quiz_data (client_with_budget 150) = true
  /\ (forall field, In field required_fields ->
        dict_has field (quiz_data (client_with_budget 150)) = true)
  /\ find_matches failing_service (client_with_budget 150) 10
     = Raise DatabaseError
  /\ get_coach_matches failing_service empty_cache "t1" default_request
       client_user (Some (client_with_budget 150))
     = (HTTPException 500 matching_failed, empty_cache).
Proof.
  assert (Hfind : find_matches failing_service (client_with_budget 150) 10
                  = Raise DatabaseError).
  { unfold find_matches, rank_matches.
    now rewrite normalize_client_with_budget. }
  split; [reflexivity|].
  split.
  { intros field Hin. simpl in Hin.
    repeat (destruct Hin as [<-|Hin]; [reflexivity|]). destruct Hin. }
  split; [exact Hfind|].
  now rewrite (endpoint_on_failure failing_service empty_cache "t1"
                 default_request client_user (client_with_budget 150)
                 DatabaseError eq_refl eq_refl eq_refl Hfind).
Qed.

Local Close Scope R_scope.

(* ===================================================================== *)
(** ** The cache service, method by method *)
(* ===================================================================== *)

Module CacheOps.
Import HexFacts GlobFacts CacheFacts.

(** What a read finds in a store. *)
Definition stored_value (db : Redis.store) (key : string)
  : option CachedMatches :=
  match db !! key with
  | Some e => Some (Redis.entry_value e)
  | None => None
  end.

Definition stored (db : Redis.store) (key : string) : bool :=
  match db !! key with Some _ => true | None => false end.

Definition stored_ttl (db : Redis.store) (key : string) : option Z :=
  let ttl := redis_ttl db key in
  if (0 <? ttl)%Z then Some ttl else None.

Section Connected.

Variables (cache_service : CacheService) (db : Redis.store).
Hypothesis Hc : connected cache_service = Some db.

Lemma get_connected (key : string) :
  cache_get cache_service key = stored_value db key.
Proof.
  destruct (connected_client _ _ Hc) as (client & Hu & Hup & <-).
  unfold cache_get, stored_value. now rewrite Hu, Hup.
Qed.

Lemma exists_connected (key : string) :
  cache_exists cache_service key = stored db key.
Proof.
  destruct (connected_client _ _ Hc) as (client & Hu & Hup & <-).
  unfold cache_exists, stored. now rewrite Hu, Hup.
Qed.

Lemma ttl_connected (key : string) :
  cache_get_ttl cache_service key = stored_ttl db key.
Proof.
  destruct (connected_client _ _ Hc) as (client & Hu & Hup & <-).
  unfold cache_get_ttl, stored_ttl. now rewrite Hu, Hup.
Qed.

Lemma set_connected (key : string) (value : CachedMatches) (ttl_seconds : Z) :
  ttl_accepted ttl_seconds ->
  exists cache_service',
    cache_set cache_service key value ttl_seconds = Ok (true, cache_service')
    /\ connected cache_service'
       = Some (<[key := {| Redis.entry_value := value;
                           Redis.entry_ttl := ttl_seconds |}]> db).
Proof.
  intros Httl.
  destruct (connected_client _ _ Hc) as (client & Hu & Hup & <-).
  unfold cache_set. rewrite Hu, Hup, (ttl_accepted_test _ Httl).
  eexists. split; [reflexivity|].
  apply connected_with_keyspace. now apply (usable_available _ client).
Qed.

Lemma delete_connected (key : string) :
  exists cache_service',
    cache_delete cache_service key = (true, cache_service')
    /\ connected cache_service' = Some (delete key db).
Proof.
  destruct (connected_client _ _ Hc) as (client & Hu & Hup & <-).
  unfold cache_delete. rewrite Hu, Hup.
  eexists. split; [reflexivity|].
  apply connected_with_keyspace. now apply (usable_available _ client).
Qed.

Lemma flush_connected :
  exists cache_service',
    cache_flush_all cache_service = (true, cache_service')
    /\ connected cache_service' = Some ∅.
Proof.
  destruct (connected_client _ _ Hc) as (client & Hu & Hup & <-).
  unfold cache_flush_all. rewrite Hu, Hup.
  eexists. split; [reflexivity|].
  apply connected_with_keyspace. now apply (usable_available _ client).
Qed.

(** [cache_delete_pattern], in full. *)
Lemma delete_pattern_connected (pattern : string) :
  exists cache_service',
    cache_delete_pattern cache_service pattern
    = (Z.of_nat (length (Redis.keys db pattern)), cache_service')
    /\ connected cache_service'
       = Some (Redis.delete_all db (Redis.keys db pattern)).
Proof.
  destruct (connected_client _ _ Hc) as (client & Hu & Hup & <-).
  unfold cache_delete_pattern. rewrite Hu, Hup. cbv zeta.
  destruct (Redis.keys (keyspace client) pattern) as [|k ks] eqn:Hks.
  - exists cache_service. split; [reflexivity|]. exact Hc.
  - cbn [is_nil]. eexists. split; [reflexivity|].
    apply connected_with_keyspace. now apply (usable_available _ client).
Qed.

End Connected.

(** The three reads of one key agree on whether it is there. *)
Lemma stored_value_stored (db : Redis.store) (key : string) :
  stored db key = match stored_value db key with Some _ => true | None => false end.
Proof. unfold stored, stored_value. now destruct (db !! key). Qed.

Lemma stored_ttl_stored (db : Redis.store) (key : string) (t : Z) :
  stored_ttl db key = Some t -> stored db key = true /\ (0 < t)%Z.
Proof.
  unfold stored_ttl, stored, redis_ttl. cbv zeta.
  destruct (db !! key) as [e|].
  - destruct (0 <? Redis.entry_ttl e)%Z eqn:Hpos; [|discriminate].
    intros [= <-]. split; [reflexivity|]. now apply Z.ltb_lt.
  - discriminate.
Qed.

(** The keys [KEYS] lists are distinct and in the store. *)
Lemma keys_NoDup (db : Redis.store) (pattern : string) :
  NoDup (Redis.keys db pattern).
Proof.
  unfold Redis.keys, Redis.store in *.
  apply NoDup_filter, NoDup_elements.
Qed.

Lemma delete_all_size (db : Redis.store) (ks : list string) :
  NoDup ks -> (forall k, k ∈ ks -> is_Some (db !! k)) ->
  size db = (length ks + size (Redis.delete_all db ks))%nat.
Proof.
  unfold Redis.store in *.
  induction ks as [|k ks IH]; intros Hnd Hin; [reflexivity|].
  apply NoDup_cons in Hnd as [Hk Hnd].
  change (length (k :: ks)) with (S (length ks)).
  change (Redis.delete_all db (k :: ks))
    with (delete k (Redis.delete_all db ks)).
  rewrite IH; [|exact Hnd|intros k' Hk'; apply Hin; now right].
  assert (Hsome : is_Some (Redis.delete_all db ks !! k)).
  { rewrite delete_all_lookup.
    destruct (decide (k ∈ ks)) as [Hin'|_]; [contradiction|].
    apply Hin. now left. }
  unfold Redis.store in *.
  rewrite (map_size_delete_Some k (Redis.delete_all db ks) Hsome).
  destruct Hsome as [e He].
  match goal with
  | |- context [Init.Nat.pred ?n] => assert (Hpos : n <> 0%nat)
  end.
  { intros Hz. apply map_size_empty_inv in Hz. rewrite Hz in He.
    now rewrite lookup_empty in He. }
  lia.
Qed.

(** After [DEL] of [KEYS pattern], [KEYS pattern] is empty. *)
Lemma keys_after_delete (db : Redis.store) (pattern : string) :
  Redis.keys (Redis.delete_all db (Redis.keys db pattern)) pattern = [].
Proof.
  destruct (Redis.keys (Redis.delete_all _ _) pattern) as [|k ks] eqn:Hks;
    [reflexivity|].
  exfalso.
  assert (Hin : k ∈ Redis.keys
                  (Redis.delete_all db (Redis.keys db pattern)) pattern)
    by (rewrite Hks; now left).
  apply keys_spec in Hin as [[e He] Hm].
  rewrite delete_keys_lookup, Hm in He. discriminate.
Qed.

(** A pattern that begins with plain text selects keys that begin with
    that text, whatever follows in the pattern. *)
Lemma literals_need_prefix (lit : string) (p : list Redis.token) (s : string) :
  Redis.match_tokens (literals lit ++ p) s = true ->
  String.prefix lit s = true.
Proof.
  revert s. induction lit as [|c lit IH]; intros s.
  - intros _. now destruct s.
  - destruct s as [|c' s]; [discriminate|].
    cbn [literals app Redis.match_tokens String.prefix].
    intros H. apply andb_true_iff in H as [Hc H].
    apply Ascii.eqb_eq in Hc as <-.
    destruct (ascii_dec c c) as [_|Hne]; [now apply IH|contradiction].
Qed.

Lemma glob_needs_prefix (lit rest key : string) :
  plain lit = true -> lit <> EmptyString ->
  Redis.selects (lit ++ rest) key = true -> String.prefix lit key = true.
Proof.
  intros Hp Hne. unfold Redis.selects.
  replace (String.eqb (lit ++ rest) "*") with false.
  2:{ symmetry. apply String.eqb_neq. intros Heq.
      destruct lit as [|c lit]; [contradiction|].
      rewrite append_cons in Heq. injection Heq as -> _. discriminate. }
  cbn [orb]. unfold Redis.glob_match.
  destruct key as [|c key].
  - cbn [PyStr.is_empty]. destruct lit as [|c lit]; [reflexivity|].
    rewrite append_cons. discriminate.
  - cbn [PyStr.is_empty]. unfold Redis.tokens.
    rewrite tokens_plain by exact Hp. apply literals_need_prefix.
Qed.

(** Every cache key of the matcher begins with "match:". *)
Lemma cache_key_match_prefix (u : UUID) (quiz : pydict) :
  String.prefix "match:" (generate_cache_key u quiz) = true.
Proof.
  unfold generate_cache_key. cbv zeta. apply prefix_append.
Qed.

Lemma cache_key_not_api_cache (u : UUID) (quiz : pydict) :
  String.prefix "api_cache:" (generate_cache_key u quiz) = false.
Proof.
  unfold generate_cache_key. cbv zeta.
  change "match:" with (String "m" "atch:"). rewrite append_cons.
  reflexivity.
Qed.

(** A service with no usable client. *)
Lemma unusable_unconnected (cache_service : CacheService) :
  usable_client cache_service = None -> connected cache_service = None.
Proof. unfold connected. now intros ->. Qed.

Lemma down_unconnected (cache_service : CacheService) (client : RedisClient) :
  usable_client cache_service = Some client -> server_up client = false ->
  connected cache_service = None.
Proof. unfold connected. now intros -> ->. Qed.

End CacheOps.

(** A cache with one stored answer, for the examples. *)
Definition one_answer : CachedMatches :=
  {| cached_matches := []; cached_total := 0;
     cached_generated_at := "2025-01-01T00:00:00" |}.

(** X1. On a cache whose server answers, [set] with a time to live that
    is positive and fits a [timedelta] (at most 86399999999999 seconds)
    returns [True]; afterwards [get] of the key gives the value stored,
    [exists] is true and [get_ttl] gives the time to live; every other
    key reads as before. *)
Theorem cache_set_then_read (cache_service : CacheService) (db : Redis.store)
    (key : string) (value : CachedMatches) (ttl_seconds : Z) :
  connected cache_service = Some db ->
  (0 < ttl_seconds <= timedelta_max_seconds)%Z ->
  exists cache_service',
    cache_set cache_service key value ttl_seconds = Ok (true, cache_service')
    /\ cache_get cache_service' key = Some value
    /\ cache_exists cache_service' key = true
    /\ cache_get_ttl cache_service' key = Some ttl_seconds
    /\ forall k, k <> key ->
         cache_get cache_service' k = cache_get cache_service k
         /\ cache_exists cache_service' k = cache_exists cache_service k
         /\ cache_get_ttl cache_service' k = cache_get_ttl cache_service k.
Proof.
  intros Hc Httl.
  destruct (CacheOps.set_connected _ _ Hc key value ttl_seconds Httl)
    as (cache_service' & Hset & Hc').
  exists cache_service'. split; [exact Hset|].
  assert (Hpos : (0 <? ttl_seconds)%Z = true) by (apply Z.ltb_lt; lia).
  split; [|split; [|split]].
  - rewrite (CacheOps.get_connected _ _ Hc'). unfold CacheOps.stored_value.
    unfold Redis.store in *. now rewrite lookup_insert_eq.
  - rewrite (CacheOps.exists_connected _ _ Hc'). unfold CacheOps.stored.
    unfold Redis.store in *. now rewrite lookup_insert_eq.
  - rewrite (CacheOps.ttl_connected _ _ Hc').
    unfold CacheOps.stored_ttl, redis_ttl. unfold Redis.store in *.
    rewrite lookup_insert_eq. cbn [Redis.entry_ttl]. now rewrite Hpos.
  - intros k Hk.
    rewrite (CacheOps.get_connected _ _ Hc'), (CacheOps.get_connected _ _ Hc),
      (CacheOps.exists_connected _ _ Hc'), (CacheOps.exists_connected _ _ Hc),
      (CacheOps.ttl_connected _ _ Hc'), (CacheOps.ttl_connected _ _ Hc).
    unfold CacheOps.stored_value, CacheOps.stored, CacheOps.stored_ttl,
      redis_ttl. unfold Redis.store in *.
    rewrite !lookup_insert_ne by congruence. now repeat split.
Qed.

Lemma cache_set_then_read_witness :
  exists cache_service',
    cache_set empty_cache "k" one_answer 300 = Ok (true, cache_service')
    /\ cache_get cache_service' "k" = Some one_answer
    /\ cache_get_ttl cache_service' "k" = Some 300%Z.
Proof.
  destruct (cache_set_then_read empty_cache ∅ "k" one_answer 300 eq_refl
              ltac:(unfold timedelta_max_seconds; lia))
    as (c & Hset & Hget & _ & Httl & _).
  exists c. now repeat split.
Defined.

(** X2. On a cache whose server answers, [delete] returns [True] whether
    or not the key was stored; afterwards the key is gone for [get],
    [exists] and [get_ttl], and every other key reads as before. *)
Theorem cache_delete_removes_one_key (cache_service : CacheService)
    (db : Redis.store) (key : string) :
  connected cache_service = Some db ->
  exists cache_service',
    cache_delete cache_service key = (true, cache_service')
    /\ cache_get cache_service' key = None
    /\ cache_exists cache_service' key = false
    /\ cache_get_ttl cache_service' key = None
    /\ forall k, k <> key ->
         cache_get cache_service' k = cache_get cache_service k
         /\ cache_exists cache_service' k = cache_exists cache_service k
         /\ cache_get_ttl cache_service' k = cache_get_ttl cache_service k.
Proof.
  intros Hc.
  destruct (CacheOps.delete_connected _ _ Hc key) as (cache_service' & Hdel & Hc').
  exists cache_service'. split; [exact Hdel|].
  split; [|split; [|split]].
  - rewrite (CacheOps.get_connected _ _ Hc'). unfold CacheOps.stored_value.
    unfold Redis.store in *. now rewrite lookup_delete_eq.
  - rewrite (CacheOps.exists_connected _ _ Hc'). unfold CacheOps.stored.
    unfold Redis.store in *. now rewrite lookup_delete_eq.
  - rewrite (CacheOps.ttl_connected _ _ Hc').
    unfold CacheOps.stored_ttl, redis_ttl. unfold Redis.store in *.
    now rewrite lookup_delete_eq.
  - intros k Hk.
    rewrite (CacheOps.get_connected _ _ Hc'), (CacheOps.get_connected _ _ Hc),
      (CacheOps.exists_connected _ _ Hc'), (CacheOps.exists_connected _ _ Hc),
      (CacheOps.ttl_connected _ _ Hc'), (CacheOps.ttl_connected _ _ Hc).
    unfold CacheOps.stored_value, CacheOps.stored, CacheOps.stored_ttl,
      redis_ttl. unfold Redis.store in *.
    rewrite !lookup_delete_ne by congruence. now repeat split.
Qed.

Lemma cache_delete_removes_one_key_witness :
  exists cache_service',
    cache_delete empty_cache "k" = (true, cache_service')
    /\ cache_exists cache_service' "k" = false.
Proof.
  destruct (cache_delete_removes_one_key empty_cache ∅ "k" eq_refl)
    as (c & Hdel & _ & Hex & _).
  exists c. now split.
Defined.

(** X3. On a cache whose server answers, [flush_all] returns [True] and
    leaves no key: afterwards [get], [exists] and [get_ttl] find nothing
    and [delete_pattern] removes nothing, whatever the pattern. *)
Theorem cache_flush_all_empties (cache_service : CacheService)
    (db : Redis.store) :
  connected cache_service = Some db ->
  exists cache_service',
    cache_flush_all cache_service = (true, cache_service')
    /\ (forall k, cache_get cache_service' k = None
                  /\ cache_exists cache_service' k = false
                  /\ cache_get_ttl cache_service' k = None)
    /\ forall pattern,
         cache_delete_pattern cache_service' pattern = (0%Z, cache_service').
Proof.
  intros Hc.
  destruct (CacheOps.flush_connected _ _ Hc) as (cache_service' & Hflush & Hc').
  exists cache_service'. split; [exact Hflush|]. split.
  - intros k.
    rewrite (CacheOps.get_connected _ _ Hc'), (CacheOps.exists_connected _ _ Hc'),
      (CacheOps.ttl_connected _ _ Hc').
    unfold CacheOps.stored_value, CacheOps.stored, CacheOps.stored_ttl,
      redis_ttl, Redis.store in *.
    now rewrite lookup_empty.
  - intros pattern.
    destruct (CacheFacts.connected_client _ _ Hc') as (client & Hu & Hup & Hks).
    unfold cache_delete_pattern. rewrite Hu, Hup, Hks. cbv zeta.
    unfold Redis.keys, Redis.store. rewrite dom_empty_L, elements_empty.
    reflexivity.
Qed.

Lemma cache_flush_all_empties_witness :
  exists cache_service',
    cache_flush_all empty_cache = (true, cache_service')
    /\ cache_exists cache_service' "k" = false.
Proof.
  destruct (cache_flush_all_empties empty_cache ∅ eq_refl)
    as (c & Hflush & Hk & _).
  exists c. split; [exact Hflush|]. apply Hk.
Defined.

(** X4. The number [delete_pattern] returns is the number of entries it
    removed: the store shrinks by exactly that many entries, all of them
    matching the pattern, and none that matches is left. *)
Theorem delete_pattern_counts_removed (cache_service : CacheService)
    (db : Redis.store) (pattern : string) :
  connected cache_service = Some db ->
  exists db',
    connected (snd (cache_delete_pattern cache_service pattern)) = Some db'
    /\ Z.of_nat (size db)
       = (fst (cache_delete_pattern cache_service pattern)
          + Z.of_nat (size db'))%Z
    /\ (0 <= fst (cache_delete_pattern cache_service pattern))%Z
    /\ forall k, db' !! k
                 = if Redis.selects pattern k then None else db !! k.
Proof.
  intros Hc.
  destruct (CacheOps.delete_pattern_connected _ _ Hc pattern)
    as (cache_service' & Hdel & Hc').
  rewrite Hdel. cbn [fst snd].
  exists (Redis.delete_all db (Redis.keys db pattern)).
  split; [exact Hc'|]. split; [|split].
  - rewrite (CacheOps.delete_all_size db (Redis.keys db pattern)).
    + lia.
    + apply CacheOps.keys_NoDup.
    + intros k Hk. now apply CacheFacts.keys_spec in Hk as [Hk _].
  - lia.
  - apply CacheFacts.delete_keys_lookup.
Qed.

Lemma delete_pattern_counts_removed_witness :
  let db : Redis.store := <["match:a" := sample_entry]> ∅ in
  exists db',
    connected
      (snd (cache_delete_pattern
              {| redis_client := Some {| keyspace := db; server_up := true |};
                 is_available := true |} "match:*")) = Some db'
    /\ db' !! "match:a" = None.
Proof.
  intros db.
  destruct (delete_pattern_counts_removed
              {| redis_client := Some {| keyspace := db; server_up := true |};
                 is_available := true |} db "match:*" eq_refl)
    as (db' & Hc & _ & _ & Hk).
  exists db'. split; [exact Hc|]. now rewrite Hk.
Defined.

(** X5. [delete_pattern] is idempotent: run again with the same pattern
    on the cache it left, it returns 0 and changes nothing. *)
Theorem delete_pattern_idempotent (cache_service : CacheService)
    (pattern : string) :
  let once := cache_delete_pattern cache_service pattern in
  cache_delete_pattern (snd once) pattern = (0%Z, snd once).
Proof.
  cbv zeta.
  destruct (connected cache_service) as [db|] eqn:Hc.
  - destruct (CacheOps.delete_pattern_connected _ _ Hc pattern)
      as (cache_service' & Hdel & Hc').
    rewrite Hdel. cbn [snd].
    destruct (CacheFacts.connected_client _ _ Hc') as (client & Hu & Hup & Hks).
    unfold cache_delete_pattern. rewrite Hu, Hup, Hks. cbv zeta.
    now rewrite CacheOps.keys_after_delete.
  - rewrite (CacheFacts.delete_pattern_unconnected _ _ Hc). cbn [snd].
    apply CacheFacts.delete_pattern_unconnected. exact Hc.
Qed.

(** X6. [invalidate_all_match_cache] on a cache whose server answers
    removes exactly the keys that begin with "match:": every key
    [generate_cache_key] makes, for any client and quiz, is gone, and a
    key that does not begin with "match:" keeps its entry. *)
Theorem invalidate_all_removes_match_keys (cache_service : CacheService)
    (db : Redis.store) :
  connected cache_service = Some db ->
  exists db',
    connected (snd (invalidate_all_match_cache cache_service)) = Some db'
    /\ (forall k, db' !! k = if String.prefix "match:" k then None else db !! k)
    /\ (forall client_id quiz,
          get_match_cache (snd (invalidate_all_match_cache cache_service))
            (generate_cache_key client_id quiz) = None).
Proof.
  intros Hc. unfold invalidate_all_match_cache. cbv zeta.
  destruct (CacheFacts.delete_pattern_lookup cache_service db "match:*" Hc)
    as (db' & Hc' & Hlookup).
  assert (Hprefix : forall k,
             db' !! k = if String.prefix "match:" k then None else db !! k).
  { intros k. rewrite Hlookup.
    change "match:*" with ("match:" ++ "*").
    rewrite GlobFacts.selects_prefix; [reflexivity|reflexivity|discriminate]. }
  exists db'. split; [exact Hc'|]. split; [exact Hprefix|].
  intros client_id quiz. unfold get_match_cache.
  rewrite (CacheOps.get_connected _ _ Hc'). unfold CacheOps.stored_value.
  now rewrite Hprefix, CacheOps.cache_key_match_prefix.
Qed.

Lemma invalidate_all_removes_match_keys_witness :
  let db : Redis.store :=
    <["api_cache:coaches_list:/coaches" := sample_entry]>
      (<[generate_cache_key 255%Z sample_quiz := sample_entry]> ∅) in
  exists db',
    connected
      (snd (invalidate_all_match_cache
              {| redis_client := Some {| keyspace := db; server_up := true |};
                 is_available := true |})) = Some db'
    /\ db' !! generate_cache_key 255%Z sample_quiz = None
    /\ db' !! "api_cache:coaches_list:/coaches" = Some sample_entry.
Proof.
  intros db.
  destruct (invalidate_all_removes_match_keys
              {| redis_client := Some {| keyspace := db; server_up := true |};
                 is_available := true |} db eq_refl)
    as (db' & Hc & Hk & _).
  exists db'. split; [exact Hc|]. split.
  - now rewrite Hk, CacheOps.cache_key_match_prefix.
  - rewrite Hk. cbn [String.prefix]. unfold db, Redis.store.
    apply lookup_insert_eq.
Defined.

(** X7. [invalidate_endpoint_cache], for any endpoint name, removes only
    keys that begin with "api_cache:": every other key keeps its entry,
    so no cached match is lost. *)
Theorem endpoint_invalidation_spares_matches (cache_service : CacheService)
    (db : Redis.store) (endpoint_name : string) :
  connected cache_service = Some db ->
  exists db',
    connected (snd (invalidate_endpoint_cache cache_service endpoint_name))
    = Some db'
    /\ (forall k, String.prefix "api_cache:" k = false -> db' !! k = db !! k)
    /\ (forall client_id quiz,
          get_match_cache
            (snd (invalidate_endpoint_cache cache_service endpoint_name))
            (generate_cache_key client_id quiz)
          = get_match_cache cache_service (generate_cache_key client_id quiz)).
Proof.
  intros Hc. unfold invalidate_endpoint_cache. cbv zeta.
  destruct (CacheFacts.delete_pattern_lookup cache_service db
              ("api_cache:" ++ endpoint_name ++ ":*") Hc)
    as (db' & Hc' & Hlookup).
  assert (Hkeep : forall k,
             String.prefix "api_cache:" k = false -> db' !! k = db !! k).
  { intros k Hk. rewrite Hlookup.
    destruct (Redis.selects _ k) eqn:Hm; [|reflexivity].
    apply CacheOps.glob_needs_prefix in Hm;
      [congruence|reflexivity|discriminate]. }
  exists db'. split; [exact Hc'|]. split; [exact Hkeep|].
  intros client_id quiz. unfold get_match_cache.
  rewrite (CacheOps.get_connected _ _ Hc'), (CacheOps.get_connected _ _ Hc).
  unfold CacheOps.stored_value.
  now rewrite Hkeep by apply CacheOps.cache_key_not_api_cache.
Qed.

Lemma endpoint_invalidation_spares_matches_witness :
  let db : Redis.store :=
    <[generate_cache_key 255%Z sample_quiz := sample_entry]> ∅ in
  exists db',
    connected
      (snd (invalidate_endpoint_cache
              {| redis_client := Some {| keyspace := db; server_up := true |};
                 is_available := true |} "coaches_list")) = Some db'
    /\ db' !! generate_cache_key 255%Z sample_quiz = Some sample_entry.
Proof.
  intros db.
  destruct (endpoint_invalidation_spares_matches
              {| redis_client := Some {| keyspace := db; server_up := true |};
                 is_available := true |} db "coaches_list" eq_refl)
    as (db' & Hc & Hk & _).
  exists db'. split; [exact Hc|].
  rewrite Hk by apply CacheOps.cache_key_not_api_cache.
  unfold db, Redis.store. apply lookup_insert_eq.
Defined.
